(** * SafeRide Guardian: the detection and escalation pipeline of [App.tsx]

    A shallow embedding of the dashboard's decision logic: the low-pass
    filter, the orientation estimate, the vehicle-specific overrides, the
    connection heartbeat and the accident life cycle
    (pending, then confirmed or cancelled, then re-armed after a cooldown);
    and of the material effect of the 3D view
    ([VehicleVisualization.tsx]).

    Conventions.
    - A JavaScript [number] that takes part in the pipeline is an exact
      rational ([Q]); rounding, infinities and NaN are not represented.
      Times are integer milliseconds ([Z]), as [Date.now()] returns them.
    - [Math.atan2] and [Math.sqrt] are not rational functions, so the
      orientation estimate is stated over the real numbers ([R]).
    - The module [Binary64] has the low-pass filter and the orientation
      estimate in the arithmetic of the code, IEEE 754 binary64, for the
      statements that rounding decides.
    - React state and refs of the [App] component are the fields of one
      record, [AppState]; the browser's timer queue and the requests sent to
      Supabase are part of it as well.
    - In [dispatch] an [async] handler is run to completion: the answers
      to its awaited requests come with the event that starts it
      ([Replies]), and the next event is delivered after the handler has
      finished and the component has rendered again, so that every
      callback reads the current [activeAccident]. A rejected promise
      keeps the mutations made before the rejection.
    - The module [Awaits] cuts the asynchronous handlers at their awaits,
      so that clicks, readings and timers are handled while a request is
      under way. The handlers of [dispatch] are those of [Awaits] with
      every await settled at once. *)

From Stdlib Require Import Floats.
From Stdlib Require Import QArith Qabs Qreals Reals Lqa Lra Lia ZArith Bool String
  Ascii List.
Import ListNotations.

Set Implicit Arguments.

(* ===================================================================== *)
(** ** Numbers and vectors *)
(* ===================================================================== *)

Definition number := Q.

Record Vec3 (A : Type) : Type := { x : A; y : A; z : A }.

(** [a < b] on numbers, as a boolean. *)
Definition Qltb (a b : Q) : bool := negb (Qle_bool b a).

(** [Math.abs] and [Math.max] on numbers. *)
Definition Math_abs (a : number) : number := Qabs a.
Definition Math_max (a b : number) : number := if Qle_bool a b then b else a.

(* ===================================================================== *)
(** ** Signal conditioner *)
(* ===================================================================== *)

(** [function lowPassFilter(current, previous, alpha = 0.1)]:
    [previous + alpha * (current - previous)]. *)
Definition lowPassFilter (current previous alpha : number) : number :=
  (previous + alpha * (current - previous))%Q.

(** The value of the filter after [n] samples that all equal [current],
    starting from [previous]: each call feeds the result of the one before
    it back in as [previous], the way [prevAccel.current] is threaded
    through [handleNewData]. *)
Fixpoint smoothed (alpha current previous : number) (n : nat) : number :=
  match n with
  | O => previous
  | S k => lowPassFilter current (smoothed alpha current previous k) alpha
  end.

(* ===================================================================== *)
(** ** Orientation estimator *)
(* ===================================================================== *)

Local Open Scope R_scope.

(** [Math.atan2(y, x)] on real arguments, by the quadrant table of
    ECMAScript (20.2.2.8): the angle of the point [(x, y)] in [(-PI, PI]],
    and [0] at the origin. *)
Definition Math_atan2 (y x : R) : R :=
  if Rlt_dec 0 x then atan (y / x)
  else if Rlt_dec x 0 then
    if Rle_dec 0 y then atan (y / x) + PI else atan (y / x) - PI
  else if Rlt_dec 0 y then PI / 2
  else if Rlt_dec y 0 then - (PI / 2)
  else 0.

Definition toDeg (rad : R) : R := rad * (180 / PI).

(** [function calculateOrientation(acc)]: pitch in [x], roll in [z]. *)
Definition calculateOrientation (acc : Vec3 R) : Vec3 R :=
  let pitchRad := Math_atan2 (y acc) (z acc) in
  let rollRad := Math_atan2 (- x acc) (sqrt (y acc * y acc + z acc * z acc)) in
  {| x := toDeg pitchRad; y := 0; z := toDeg rollRad |}.

(** Uniform scaling of a vector. *)
Definition scale (k : R) (v : Vec3 R) : Vec3 R :=
  {| x := k * x v; y := k * y v; z := k * z v |}.

(** The smoothed accelerometer vector as the estimator receives it. *)
Definition toReal (v : Vec3 number) : Vec3 R :=
  {| x := Q2R (x v); y := Q2R (y v); z := Q2R (z v) |}.

Local Close Scope R_scope.

(* ===================================================================== *)
(** ** The numeric helpers in binary64 *)
(* ===================================================================== *)

(** A JavaScript [number] is an IEEE 754 binary64 value, and [+], [-],
    [*], [/] and [Math.sqrt] round to the nearest value, ties to even. The
    definitions above compute without rounding. The module [Binary64] has
    the same functions on the binary64 numbers of the kernel
    ([PrimFloat.float]), whose operations are the IEEE 754 ones. *)
Module Binary64.

Local Open Scope float_scope.
Local Set Warnings "-inexact-float".

(** [function lowPassFilter(current, previous, alpha = 0.1)]. *)
Definition lowPassFilter (current previous alpha : float) : float :=
  previous + alpha * (current - previous).

(** The filter after [n] samples that all equal [current], as [smoothed]
    above. *)
Fixpoint smoothed (alpha current previous : float) (n : nat) : float :=
  match n with
  | O => previous
  | S k => lowPassFilter current (smoothed alpha current previous k) alpha
  end.

(** The sign bit, and the upper 32 bits of the encoding without the sign
    bit ([__HI(x) & 0x7fffffff] in fdlibm). *)
Definition signbit (a : float) : bool :=
  match Prim2SF a with
  | S754_zero s | S754_infinity s | S754_finite s _ _ => s
  | S754_nan => false
  end.

Definition highWord (a : float) : Z :=
  match Prim2SF a with
  | S754_zero _ => 0
  | S754_infinity _ => 0x7ff00000
  | S754_nan => 0x7ff80000
  | S754_finite _ m e => Z.shiftr (Zpos m + (e + 1074) * 2 ^ 52) 32
  end%Z.

(** [Math.atan2]. ECMAScript fixes its value at zeros, infinities and NaN
    and leaves the accuracy elsewhere to the implementation. This is the
    algorithm of fdlibm ([s_atan.c], [e_atan2.c]), which V8 and
    SpiderMonkey use, with its tables and its order of operations. *)
Definition atanhi (id : Z) : float :=
  match id with
  | 0%Z => 0x1.dac670561bb4fp-2   (* 4.63647609000806093515e-01 *)
  | 1%Z => 0x1.921fb54442d18p-1   (* 7.85398163397448278999e-01 *)
  | 2%Z => 0x1.f730bd281f69bp-1   (* 9.82793723247329054082e-01 *)
  | _ => 0x1.921fb54442d18p+0     (* 1.57079632679489655800e+00 *)
  end.

Definition atanlo (id : Z) : float :=
  match id with
  | 0%Z => 0x1.a2b7f222f65e2p-56  (* 2.26987774529616870924e-17 *)
  | 1%Z => 0x1.1a62633145c07p-55  (* 3.06161699786838301793e-17 *)
  | 2%Z => 0x1.007887af0cbbdp-56  (* 1.39033110312309984516e-17 *)
  | _ => 0x1.1a62633145c07p-54    (* 6.12323399573676603587e-17 *)
  end.

Definition aT0 : float := 0x1.555555555550dp-2.    (*  3.33333333333329318027e-01 *)
Definition aT1 : float := -0x1.999999998ebc4p-3.   (* -1.99999999998764832476e-01 *)
Definition aT2 : float := 0x1.24924920083ffp-3.    (*  1.42857142725034663711e-01 *)
Definition aT3 : float := -0x1.c71c6fe231671p-4.   (* -1.11111104054623557880e-01 *)
Definition aT4 : float := 0x1.745cdc54c206ep-4.    (*  9.09088713343650656196e-02 *)
Definition aT5 : float := -0x1.3b0f2af749a6dp-4.   (* -7.69187620504482999495e-02 *)
Definition aT6 : float := 0x1.10d66a0d03d51p-4.    (*  6.66107313738753120669e-02 *)
Definition aT7 : float := -0x1.dde2d52defd9ap-5.   (* -5.83357013379057348645e-02 *)
Definition aT8 : float := 0x1.97b4b24760debp-5.    (*  4.97687799461593236017e-02 *)
Definition aT9 : float := -0x1.2b4442c6a6c2fp-5.   (* -3.65315727442169155270e-02 *)
Definition aT10 : float := 0x1.0ad3ae322da11p-6.   (*  1.62858201153657823623e-02 *)

Definition Math_atan (a : float) : float :=
  let ix := highWord a in
  if (0x44100000 <=? ix)%Z then
    (* |a| >= 2^66, or NaN *)
    if PrimFloat.is_nan a then a + a
    else if signbit a then - atanhi 3 - atanlo 3 else atanhi 3 + atanlo 3
  else if (ix <? 0x3e200000)%Z then a   (* |a| < 2^-29 *)
  else
    let '(id, r) :=
      if (ix <? 0x3fdc0000)%Z then (-1, a)%Z           (* |a| < 0.4375 *)
      else
        let b := PrimFloat.abs a in
        if (ix <? 0x3ff30000)%Z then                     (* |a| < 1.1875 *)
          if (ix <? 0x3fe60000)%Z                        (* |a| < 11/16 *)
          then (0%Z, (2 * b - 1) / (2 + b))
          else (1%Z, (b - 1) / (b + 1))
        else
          if (ix <? 0x40038000)%Z                        (* |a| < 2.4375 *)
          then (2%Z, (b - 1.5) / (1 + 1.5 * b))
          else (3%Z, -1 / b) in
    let z := r * r in
    let w := z * z in
    let s1 :=
      z * (aT0 + w * (aT2 + w * (aT4 + w * (aT6 + w * (aT8 + w * aT10))))) in
    let s2 := w * (aT1 + w * (aT3 + w * (aT5 + w * (aT7 + w * aT9)))) in
    if (id <? 0)%Z then r - r * (s1 + s2)
    else
      let t := atanhi id - ((r * (s1 + s2) - atanlo id) - r) in
      if signbit a then - t else t.

Definition pi : float := 0x1.921fb54442d18p+1.      (* 3.1415926535897931160E+00 *)
Definition pi_lo : float := 0x1.1a62633145c07p-53.  (* 1.2246467991473531772E-16 *)
Definition pi_o_2 : float := 0x1.921fb54442d18p+0.
Definition pi_o_4 : float := 0x1.921fb54442d18p-1.
Definition tiny : float := 1e-300.

Definition Math_atan2 (b a : float) : float :=
  if PrimFloat.is_nan a || PrimFloat.is_nan b then a + b
  else if a =? 1 then Math_atan b
  else if PrimFloat.is_zero b then
    if signbit a then (if signbit b then - pi - tiny else pi + tiny) else b
  else if PrimFloat.is_zero a then
    if signbit b then - pi_o_2 - tiny else pi_o_2 + tiny
  else if PrimFloat.is_infinity a then
    if PrimFloat.is_infinity b then
      match signbit a, signbit b with
      | false, false => pi_o_4 + tiny
      | false, true => - pi_o_4 - tiny
      | true, false => 3 * pi_o_4 + tiny
      | true, true => -3 * pi_o_4 - tiny
      end
    else
      match signbit a, signbit b with
      | false, false => 0
      | false, true => -0
      | true, false => pi + tiny
      | true, true => - pi - tiny
      end
  else if PrimFloat.is_infinity b then
    if signbit b then - pi_o_2 - tiny else pi_o_2 + tiny
  else
    let k := Z.shiftr (highWord b - highWord a) 20 in
    let t :=
      if (60 <? k)%Z then pi_o_2 + 0.5 * pi_lo
      else if signbit a && (k <? -60)%Z then 0
      else Math_atan (PrimFloat.abs (b / a)) in
    match signbit a, signbit b with
    | false, false => t
    | false, true => - t
    | true, false => pi - (t - pi_lo)
    | true, true => (t - pi_lo) - pi
    end.

(** [Math.PI] and [Math.sqrt]. *)
Definition Math_PI : float := 0x1.921fb54442d18p+1.   (* 3.141592653589793 *)
Definition Math_sqrt (a : float) : float := PrimFloat.sqrt a.

(** [function calculateOrientation(acc)]. *)
Definition calculateOrientation (acc : Vec3 float) : Vec3 float :=
  let pitchRad := Math_atan2 (y acc) (z acc) in
  let rollRad :=
    Math_atan2 (- x acc) (Math_sqrt (y acc * y acc + z acc * z acc)) in
  let toDeg := fun rad : float => rad * (180 / Math_PI) in
  {| x := toDeg pitchRad; y := 0; z := toDeg rollRad |}.

(** Uniform scaling of a vector. *)
Definition scale (k : float) (v : Vec3 float) : Vec3 float :=
  {| x := k * x v; y := k * y v; z := k * z v |}.

End Binary64.

(* ===================================================================== *)
(** ** Connection monitor *)
(* ===================================================================== *)

Local Open Scope Z_scope.

(** The body of the heartbeat interval: [threshold = 10000],
    [timeSinceLastPacket = Date.now() - lastPacketTimeRef.current],
    [shouldBeConnected = timeSinceLastPacket < threshold]. *)
Definition shouldBeConnected (now lastPacketTime : Z) : bool :=
  let threshold := 10000 in
  let timeSinceLastPacket := now - lastPacketTime in
  timeSinceLastPacket <? threshold.

(** [setIsConnected(prev => prev !== shouldBeConnected ? shouldBeConnected : prev)]. *)
Definition updateConnected (prev should : bool) : bool :=
  if negb (Bool.eqb prev should) then should else prev.

Local Close Scope Z_scope.

(* ===================================================================== *)
(** ** Data model *)
(* ===================================================================== *)

Inductive VehicleType : Type := scooter | car.

(** [SensorDataRow]: a row of the [sensor_data] table, in raw sensor units. *)
Module SensorDataRow.
Record t : Type := {
  latitude : number;
  longitude : number;
  acc_x : number; acc_y : number; acc_z : number;
  gyro_x : number; gyro_y : number; gyro_z : number;
  created_at : string
}.
End SensorDataRow.

Record Location : Type := { latitude : number; longitude : number }.

Record SensorData : Type := {
  location : Location;
  accelerometer : Vec3 number;
  gyroscope : Vec3 number;
  timestamp : string
}.

(** [function convertToSensorData(row)]. *)
Definition convertToSensorData (row : SensorDataRow.t) : SensorData :=
  {| location := {| latitude := SensorDataRow.latitude row;
                    longitude := SensorDataRow.longitude row |};
     accelerometer := {| x := SensorDataRow.acc_x row / 16384;
                         y := SensorDataRow.acc_y row / 16384;
                         z := SensorDataRow.acc_z row / 16384 |};
     gyroscope := {| x := SensorDataRow.gyro_x row / 131;
                     y := SensorDataRow.gyro_y row / 131;
                     z := SensorDataRow.gyro_z row / 131 |};
     timestamp := SensorDataRow.created_at row |}.

(** The result of [detectWithHistory()]. *)
Record DetectionResult : Type := {
  isAccident : bool;
  dangerPercentage : number
}.

(** Modelled from the spec: the class [AccidentDetectionService] of
    [lib/accidentDetection] is imported by [App.tsx] but is not among the
    sources. The spec (4.3) gives its contract: [addReading] appends to the
    history, [detectWithHistory] scores the history, [setVehicleType]
    switches the profile, [reset] clears the history. Only this interface is
    assumed; [detectWithHistory] may update internal counters, so it also
    returns the service. *)
Class AccidentDetectionService (D : Type) : Type := {
  newService : D;
  setVehicleType : D -> VehicleType -> D;
  addReading : D -> number -> number -> number ->
               number -> number -> number -> D;
  detectWithHistory : D -> DetectionResult * D;
  reset : D -> D
}.

(** Lines 296-313 of [handleNewData]: the base result and the overrides on
    the smoothed z axis, giving [(shouldTrigger, finalDanger)]. *)
Definition triggerDecision (vehicleType : VehicleType) (zValue : number)
    (result : DetectionResult) : bool * number :=
  let shouldTrigger := isAccident result in
  let finalDanger := dangerPercentage result in
  match vehicleType with
  | scooter =>
      let isUpsideDown := Qltb zValue (-0.5) in
      let isTippedOver := Qltb (Math_abs zValue) 0.4 in
      if isUpsideDown || isTippedOver then
        (true,
         if isUpsideDown then 100
         else if isTippedOver then Math_max finalDanger 80
         else finalDanger)
      else (shouldTrigger, finalDanger)
  | car =>
      if Qltb (Math_abs zValue) 0.3 then (true, Math_max finalDanger 90)
      else (shouldTrigger, finalDanger)
  end.

(** The row of [user_settings] read by [handleAccidentDetected]; an absent
    or empty field is the empty string (both are falsy for [||]). *)
Record Settings : Type := {
  user_email : string;
  emergency_contact_1 : string;
  emergency_contact_2 : string
}.

(** [value || fallback] on strings. *)
Definition orElse (value fallback : string) : string :=
  match value with
  | EmptyString => fallback
  | _ => value
  end.

Inductive EmailType : Type := user_confirmation | emergency_alert.

(** The two updates of [accident_logs] made by the application:
    [{ status: 'confirmed', emails_sent: true }] and
    [{ status: 'cancelled', user_responded: true }]. *)
Inductive LogUpdate : Type := status_confirmed | status_cancelled.

(** Requests sent to the collaborators, recorded in the order of the calls. *)
Inductive Request : Type :=
| InsertAccidentLog (latitude longitude danger_percentage : number)
    (acc_x acc_y acc_z gyro_x gyro_y gyro_z : number)
    (* status: 'pending', user_responded: false, emails_sent: false *)
| SelectUserSettings
| PostAccidentAlert (userEmail contact1 contact2 : string)
    (latitude longitude dangerPercentage : number)
    (accidentId : string) (emailType : EmailType)
| UpdateAccidentLog (id : string) (update : LogUpdate)
| SaveVehicleType (newType : VehicleType).

(** [{ data: accidentLog, error: logError }] of the insert:
    [data] is the id of the created record, if any. *)
Record InsertReply : Type := {
  data : option string;
  error : bool
}.

(** The answers of the collaborators to the requests of one handler run. *)
Record Replies : Type := {
  insertReply : InsertReply;
  settingsReply : option Settings;
  fetchResolves : bool
}.

(** [useState<{ id: string; dangerPercentage: number } | null>];
    [activeDanger] is the field [dangerPercentage]. *)
Record ActiveAccident : Type := {
  id : string;
  activeDanger : number
}.

(** Timer ids, as the browser hands them out: positive integers, so that
    a stored id is never falsy. *)
Definition TimerId := nat.

(** The two closures handed to [setTimeout]:
    [async () => { await sendEmergencyAlerts(accidentLog.id, settings,
    latitude, longitude, dangerPercentage) }] and
    [() => { isTriggered.current = false }]. *)
Inductive Callback : Type :=
| Escalate (accidentId : string) (settings : option Settings)
    (latitude longitude dangerPercentage : number)
| Rearm.

Record Timer : Type := {
  tid : TimerId;
  due : Z;
  callback : Callback
}.

Definition isEscalate (tm : Timer) : bool :=
  match callback tm with Escalate _ _ _ _ _ => true | Rearm => false end.

Section App.

Context {D : Type} `{AccidentDetectionService D}.

(** The state and refs of [App], the timer queue and the request log. *)
Record AppState : Type := {
  vehicleType : VehicleType;
  sensorData : SensorData;
  isConnected : bool;
  activeAccident : option ActiveAccident;
  lastPacketTimeRef : Z;
  detectionService : D;
  accidentTimeoutRef : option TimerId;
  prevAccel : Vec3 number;
  isTriggered : bool;
  clock : Z;
  timers : list Timer;
  nextTimerId : TimerId;
  outbox : list Request
}.

(** Assignments to one field. *)
Definition set_vehicleType (v : VehicleType) (s : AppState) : AppState :=
  {| vehicleType := v; sensorData := sensorData s;
     isConnected := isConnected s; activeAccident := activeAccident s;
     lastPacketTimeRef := lastPacketTimeRef s;
     detectionService := detectionService s;
     accidentTimeoutRef := accidentTimeoutRef s; prevAccel := prevAccel s;
     isTriggered := isTriggered s; clock := clock s; timers := timers s;
     nextTimerId := nextTimerId s; outbox := outbox s |}.

Definition set_sensorData (v : SensorData) (s : AppState) : AppState :=
  {| vehicleType := vehicleType s; sensorData := v;
     isConnected := isConnected s; activeAccident := activeAccident s;
     lastPacketTimeRef := lastPacketTimeRef s;
     detectionService := detectionService s;
     accidentTimeoutRef := accidentTimeoutRef s; prevAccel := prevAccel s;
     isTriggered := isTriggered s; clock := clock s; timers := timers s;
     nextTimerId := nextTimerId s; outbox := outbox s |}.

Definition set_isConnected (v : bool) (s : AppState) : AppState :=
  {| vehicleType := vehicleType s; sensorData := sensorData s;
     isConnected := v; activeAccident := activeAccident s;
     lastPacketTimeRef := lastPacketTimeRef s;
     detectionService := detectionService s;
     accidentTimeoutRef := accidentTimeoutRef s; prevAccel := prevAccel s;
     isTriggered := isTriggered s; clock := clock s; timers := timers s;
     nextTimerId := nextTimerId s; outbox := outbox s |}.

Definition set_activeAccident (v : option ActiveAccident) (s : AppState) : AppState :=
  {| vehicleType := vehicleType s; sensorData := sensorData s;
     isConnected := isConnected s; activeAccident := v;
     lastPacketTimeRef := lastPacketTimeRef s;
     detectionService := detectionService s;
     accidentTimeoutRef := accidentTimeoutRef s; prevAccel := prevAccel s;
     isTriggered := isTriggered s; clock := clock s; timers := timers s;
     nextTimerId := nextTimerId s; outbox := outbox s |}.

Definition set_lastPacketTimeRef (v : Z) (s : AppState) : AppState :=
  {| vehicleType := vehicleType s; sensorData := sensorData s;
     isConnected := isConnected s; activeAccident := activeAccident s;
     lastPacketTimeRef := v; detectionService := detectionService s;
     accidentTimeoutRef := accidentTimeoutRef s; prevAccel := prevAccel s;
     isTriggered := isTriggered s; clock := clock s; timers := timers s;
     nextTimerId := nextTimerId s; outbox := outbox s |}.

Definition set_detectionService (v : D) (s : AppState) : AppState :=
  {| vehicleType := vehicleType s; sensorData := sensorData s;
     isConnected := isConnected s; activeAccident := activeAccident s;
     lastPacketTimeRef := lastPacketTimeRef s; detectionService := v;
     accidentTimeoutRef := accidentTimeoutRef s; prevAccel := prevAccel s;
     isTriggered := isTriggered s; clock := clock s; timers := timers s;
     nextTimerId := nextTimerId s; outbox := outbox s |}.

Definition set_accidentTimeoutRef (v : option TimerId) (s : AppState) : AppState :=
  {| vehicleType := vehicleType s; sensorData := sensorData s;
     isConnected := isConnected s; activeAccident := activeAccident s;
     lastPacketTimeRef := lastPacketTimeRef s;
     detectionService := detectionService s; accidentTimeoutRef := v;
     prevAccel := prevAccel s; isTriggered := isTriggered s;
     clock := clock s; timers := timers s; nextTimerId := nextTimerId s;
     outbox := outbox s |}.

Definition set_prevAccel (v : Vec3 number) (s : AppState) : AppState :=
  {| vehicleType := vehicleType s; sensorData := sensorData s;
     isConnected := isConnected s; activeAccident := activeAccident s;
     lastPacketTimeRef := lastPacketTimeRef s;
     detectionService := detectionService s;
     accidentTimeoutRef := accidentTimeoutRef s; prevAccel := v;
     isTriggered := isTriggered s; clock := clock s; timers := timers s;
     nextTimerId := nextTimerId s; outbox := outbox s |}.

Definition set_isTriggered (v : bool) (s : AppState) : AppState :=
  {| vehicleType := vehicleType s; sensorData := sensorData s;
     isConnected := isConnected s; activeAccident := activeAccident s;
     lastPacketTimeRef := lastPacketTimeRef s;
     detectionService := detectionService s;
     accidentTimeoutRef := accidentTimeoutRef s; prevAccel := prevAccel s;
     isTriggered := v; clock := clock s; timers := timers s;
     nextTimerId := nextTimerId s; outbox := outbox s |}.

Definition set_clock (v : Z) (s : AppState) : AppState :=
  {| vehicleType := vehicleType s; sensorData := sensorData s;
     isConnected := isConnected s; activeAccident := activeAccident s;
     lastPacketTimeRef := lastPacketTimeRef s;
     detectionService := detectionService s;
     accidentTimeoutRef := accidentTimeoutRef s; prevAccel := prevAccel s;
     isTriggered := isTriggered s; clock := v; timers := timers s;
     nextTimerId := nextTimerId s; outbox := outbox s |}.

Definition set_timers (v : list Timer) (s : AppState) : AppState :=
  {| vehicleType := vehicleType s; sensorData := sensorData s;
     isConnected := isConnected s; activeAccident := activeAccident s;
     lastPacketTimeRef := lastPacketTimeRef s;
     detectionService := detectionService s;
     accidentTimeoutRef := accidentTimeoutRef s; prevAccel := prevAccel s;
     isTriggered := isTriggered s; clock := clock s; timers := v;
     nextTimerId := nextTimerId s; outbox := outbox s |}.

Definition set_nextTimerId (v : TimerId) (s : AppState) : AppState :=
  {| vehicleType := vehicleType s; sensorData := sensorData s;
     isConnected := isConnected s; activeAccident := activeAccident s;
     lastPacketTimeRef := lastPacketTimeRef s;
     detectionService := detectionService s;
     accidentTimeoutRef := accidentTimeoutRef s; prevAccel := prevAccel s;
     isTriggered := isTriggered s; clock := clock s; timers := timers s;
     nextTimerId := v; outbox := outbox s |}.

Definition set_outbox (v : list Request) (s : AppState) : AppState :=
  {| vehicleType := vehicleType s; sensorData := sensorData s;
     isConnected := isConnected s; activeAccident := activeAccident s;
     lastPacketTimeRef := lastPacketTimeRef s;
     detectionService := detectionService s;
     accidentTimeoutRef := accidentTimeoutRef s; prevAccel := prevAccel s;
     isTriggered := isTriggered s; clock := clock s; timers := timers s;
     nextTimerId := nextTimerId s; outbox := v |}.

(* --------------------------------------------------------------------- *)
(** *** Promises *)

(** How the promise of an [async] function settles, with the state it
    leaves behind. *)
Inductive Settled (A : Type) : Type :=
| Fulfilled (a : A) (s : AppState)
| Rejected (s : AppState).

Arguments Fulfilled {A} a s.
Arguments Rejected {A} s.

Definition Async (A : Type) : Type := AppState -> Settled A.

Definition ret {A : Type} (a : A) : Async A := fun s => Fulfilled a s.

Definition bind {A B : Type} (m : Async A) (k : A -> Async B) : Async B :=
  fun s =>
    match m s with
    | Fulfilled a s' => k a s'
    | Rejected s' => Rejected s'
    end.

Notation "v <- m ;; k" := (bind m (fun v => k))
  (at level 61, m at next level, right associativity).
Notation "m ;; k" := (bind m (fun _ => k))
  (at level 61, right associativity).

(** [try { body } catch (error) { handler }]. *)
Definition tryCatch (body handler : Async unit) : Async unit :=
  fun s =>
    match body s with
    | Fulfilled a s' => Fulfilled a s'
    | Rejected s' => handler s'
    end.

Definition stateOf {A : Type} (r : Settled A) : AppState :=
  match r with
  | Fulfilled _ s => s
  | Rejected s => s
  end.

Definition read {A : Type} (field : AppState -> A) : Async A :=
  fun s => Fulfilled (field s) s.

Definition modify (f : AppState -> AppState) : Async unit :=
  fun s => Fulfilled tt (f s).

(** A request to a collaborator is appended to the log. *)
Definition send (r : Request) : Async unit :=
  modify (fun s => set_outbox (outbox s ++ [r]) s).

(** [await fetch(url, { method: 'POST', body })]: the promise rejects on a
    network failure. *)
Definition fetch (body : Request) (resolves : bool) : Async unit :=
  send body ;;
  if resolves then ret tt else (fun s => Rejected s).

(** [setTimeout(callback, delay)] returns the id of the new timer. *)
Definition setTimeout (cb : Callback) (delay : Z) : Async TimerId :=
  fun s =>
    let tm := {| tid := nextTimerId s; due := (clock s + delay)%Z;
                 callback := cb |} in
    Fulfilled (nextTimerId s)
      (set_nextTimerId (S (nextTimerId s)) (set_timers (timers s ++ [tm]) s)).

Definition withoutTimer (t : TimerId) (l : list Timer) : list Timer :=
  filter (fun tm => negb (Nat.eqb (tid tm) t)) l.

(** [clearTimeout(id)]: does nothing when the timer has fired already. *)
Definition clearTimeout (t : TimerId) : Async unit :=
  modify (fun s => set_timers (withoutTimer t (timers s)) s).

Definition isSome {A : Type} (o : option A) : bool :=
  match o with Some _ => true | None => false end.

(* --------------------------------------------------------------------- *)
(** *** The handlers of [App] *)

(** [const handleAccidentDetected = async (latitude, longitude,
    dangerPercentage, accX, ..., gyroZ) => { try { ... } catch { ... } }]. *)
Definition handleAccidentDetected (net : Replies)
    (latitude longitude dangerPercentage : number)
    (accX accY accZ gyroX gyroY gyroZ : number) : Async unit :=
  tryCatch
    (send (InsertAccidentLog latitude longitude dangerPercentage
             accX accY accZ gyroX gyroY gyroZ) ;;
     let logError := error (insertReply net) in
     match data (insertReply net) with
     | None => ret tt
     | Some accidentLog_id =>
         if logError then ret tt
         else
           modify (set_activeAccident
                     (Some {| id := accidentLog_id;
                              activeDanger := dangerPercentage |})) ;;
           send SelectUserSettings ;;
           let settings := settingsReply net in
           match settings with
           | Some st =>
               fetch (PostAccidentAlert
                        (orElse (user_email st) "telegram-user")
                        (orElse (emergency_contact_1 st) "telegram-group")
                        (orElse (emergency_contact_2 st) EmptyString)
                        latitude longitude dangerPercentage
                        accidentLog_id user_confirmation)
                     (fetchResolves net)
           | None => ret tt
           end ;;
           t <- setTimeout (Escalate accidentLog_id settings
                              latitude longitude dangerPercentage) 30000 ;;
           modify (set_accidentTimeoutRef (Some t))
     end)
    (* console.error('Accident handling error:', error) *)
    (ret tt).

(** [const sendEmergencyAlerts = async (accidentId, settings, latitude,
    longitude, dangerPercentage) => { ... }]. *)
Definition sendEmergencyAlerts (net : Replies) (accidentId : string)
    (settings : option Settings)
    (latitude longitude dangerPercentage : number) : Async unit :=
  match settings with
  | Some st =>
      fetch (PostAccidentAlert
               (orElse (user_email st) "telegram-user")
               (orElse (emergency_contact_1 st) "telegram-group")
               (orElse (emergency_contact_2 st) EmptyString)
               latitude longitude dangerPercentage
               accidentId emergency_alert)
            (fetchResolves net) ;;
      send (UpdateAccidentLog accidentId status_confirmed)
  | None => ret tt
  end ;;
  modify (set_activeAccident None) ;;
  _ <- setTimeout Rearm 5000 ;;
  ret tt.

(** [const handleCancelAccident = async () => { ... }]. *)
Definition handleCancelAccident : Async unit :=
  active <- read activeAccident ;;
  timeout <- read accidentTimeoutRef ;;
  match active, timeout with
  | Some a, Some t =>
      clearTimeout t ;;
      modify (set_accidentTimeoutRef None) ;;
      send (UpdateAccidentLog (id a) status_cancelled) ;;
      modify (set_activeAccident None) ;;
      modify (fun s => set_detectionService (reset (detectionService s)) s) ;;
      _ <- setTimeout Rearm 5000 ;;
      ret tt
  | _, _ => ret tt
  end.

(** [const handleNewData = (newData, isInitialLoad = false) => { ... }],
    the callback of both [fetchHistory] and [subscribeSensorData].
    [handleAccidentDetected] is called without [await]; it handles its own
    rejections. *)
Definition handleNewData (newData : SensorDataRow.t) (net : Replies)
    : Async unit :=
  let raw := convertToSensorData newData in
  now <- read clock ;;
  modify (set_lastPacketTimeRef now) ;;
  modify (set_isConnected true) ;;
  prev <- read prevAccel ;;
  let smoothAlpha := 0.3 in
  let smoothedAccel :=
    {| x := lowPassFilter (x (accelerometer raw)) (x prev) smoothAlpha;
       y := lowPassFilter (y (accelerometer raw)) (y prev) smoothAlpha;
       z := lowPassFilter (z (accelerometer raw)) (z prev) smoothAlpha |} in
  modify (set_prevAccel smoothedAccel) ;;
  let finalData :=
    {| location := location raw; accelerometer := smoothedAccel;
       gyroscope := gyroscope raw; timestamp := timestamp raw |} in
  modify (set_sensorData finalData) ;;
  modify (fun s =>
    set_detectionService
      (addReading (detectionService s)
         (x (accelerometer finalData)) (y (accelerometer finalData))
         (z (accelerometer finalData))
         (x (gyroscope finalData)) (y (gyroscope finalData))
         (z (gyroscope finalData))) s) ;;
  service <- read detectionService ;;
  let result := fst (detectWithHistory service) in
  modify (set_detectionService (snd (detectWithHistory service))) ;;
  let zValue := z (accelerometer finalData) in
  vehicle <- read vehicleType ;;
  let shouldTrigger := fst (triggerDecision vehicle zValue result) in
  let finalDanger := snd (triggerDecision vehicle zValue result) in
  active <- read activeAccident ;;
  triggered <- read isTriggered ;;
  if shouldTrigger && negb (isSome active) && negb triggered then
    modify (set_isTriggered true) ;;
    handleAccidentDetected net
      (latitude (location finalData)) (longitude (location finalData))
      finalDanger
      (SensorDataRow.acc_x newData) (SensorDataRow.acc_y newData)
      (SensorDataRow.acc_z newData)
      (SensorDataRow.gyro_x newData) (SensorDataRow.gyro_y newData)
      (SensorDataRow.gyro_z newData)
  else ret tt.

(** [const handleVehicleChange = async (newType) => { ... }]. *)
Definition handleVehicleChange (newType : VehicleType) : Async unit :=
  modify (set_vehicleType newType) ;;
  modify (fun s =>
    set_detectionService (setVehicleType (detectionService s) newType) s) ;;
  send (SaveVehicleType newType).

(** [loadVehicleType] of the mount effect; [type] is what
    [getVehicleType()] resolves to. *)
Definition loadVehicleType (type : option VehicleType) : Async unit :=
  match type with
  | Some newType =>
      modify (set_vehicleType newType) ;;
      modify (fun s =>
        set_detectionService (setVehicleType (detectionService s) newType) s)
  | None => ret tt
  end.

(** One run of the callback of [heartbeatInterval]. *)
Definition heartbeat : Async unit :=
  now <- read clock ;;
  last <- read lastPacketTimeRef ;;
  modify (fun s =>
    set_isConnected (updateConnected (isConnected s)
                       (shouldBeConnected now last)) s).

(** What a timer does when it fires. *)
Definition runCallback (net : Replies) (cb : Callback) : Async unit :=
  match cb with
  | Escalate accidentId settings latitude longitude dangerPercentage =>
      sendEmergencyAlerts net accidentId settings
        latitude longitude dangerPercentage
  | Rearm => modify (set_isTriggered false)
  end.

(* --------------------------------------------------------------------- *)
(** *** The event loop *)

(** What the browser delivers to the component. An event that comes from
    outside carries its time of arrival; [TimerDue] is the next timer of
    the queue firing. *)
Inductive Event : Type :=
| SensorRow (t : Z) (newData : SensorDataRow.t) (net : Replies)
| CancelClick (t : Z)
| VehicleChange (t : Z) (newType : VehicleType)
| HeartbeatTick (t : Z)
| TimerDue (net : Replies)
| VehicleLoaded (t : Z) (type : option VehicleType).

(** The timer that fires next: the earliest one, the oldest among equals. *)
Fixpoint earliest (l : list Timer) : option Timer :=
  match l with
  | [] => None
  | tm :: rest =>
      match earliest rest with
      | None => Some tm
      | Some tm' => if (due tm <=? due tm')%Z then Some tm else Some tm'
      end
  end.

(** An outside event at time [t] can be delivered when the clock has not
    passed [t] and no timer was due before [t]. *)
Definition deliverable (t : Z) (s : AppState) : bool :=
  (clock s <=? t)%Z && forallb (fun tm => (t <=? due tm)%Z) (timers s).

Definition at_time (t : Z) (handler : Async unit) (s : AppState)
    : option AppState :=
  if deliverable t s then Some (stateOf (handler (set_clock t s))) else None.

(** One turn of the event loop; [None] when the event cannot happen next. *)
Definition dispatch (s : AppState) (e : Event) : option AppState :=
  match e with
  | SensorRow t newData net => at_time t (handleNewData newData net) s
  | CancelClick t => at_time t handleCancelAccident s
  | VehicleChange t newType => at_time t (handleVehicleChange newType) s
  | HeartbeatTick t => at_time t heartbeat s
  | TimerDue net =>
      match earliest (timers s) with
      | None => None
      | Some tm =>
          Some (stateOf
                  (runCallback net (callback tm)
                     (set_clock (Z.max (clock s) (due tm))
                        (set_timers (withoutTimer (tid tm) (timers s)) s))))
      end
  | VehicleLoaded t type => at_time t (loadVehicleType type) s
  end.

Fixpoint run (events : list Event) (s : AppState) : option AppState :=
  match events with
  | [] => Some s
  | e :: rest =>
      match dispatch s e with
      | Some s' => run rest s'
      | None => None
      end
  end.

(** The component when it mounts at time [t0]; [saved] is the vehicle type
    found in local storage (['scooter'] when there is none) and [simulated]
    is [getSimulatedData()]. *)
Definition initialState (t0 : Z) (saved : VehicleType)
    (simulated : SensorData) : AppState :=
  {| vehicleType := saved;
     sensorData := simulated;
     isConnected := false;
     activeAccident := None;
     lastPacketTimeRef := t0;
     detectionService := newService;
     accidentTimeoutRef := None;
     prevAccel := {| x := 0; y := 0; z := 1 |};
     isTriggered := false;
     clock := t0;
     timers := [];
     nextTimerId := 1%nat;
     outbox := [] |}.

End App.

Arguments AppState D : clear implicits.

(* ===================================================================== *)
(** ** The handlers with their awaits *)
(* ===================================================================== *)

(** In the event loop of [dispatch] a handler runs to its end before the
    next event is delivered. In the browser an [async] function returns to
    the event loop at every [await]: clicks, readings and timers are handled
    while the awaited request is under way, and the function goes on when
    the request has settled. The module [Awaits] cuts the three
    asynchronous handlers at their awaits. The code between two awaits runs
    without interruption and is written with the same monad as above; it
    returns what the call waits for next, if anything. Timers fire at or
    after their due time, never before. *)
Module Awaits.

(** What a suspended call is waiting for, with the variables that the rest
    of the call still uses. *)
Inductive Awaiting : Type :=
| InsertingLog (latitude longitude dangerPercentage : number)
    (* handleAccidentDetected: await supabase.from('accident_logs').insert *)
| SelectingSettings (accidentLog_id : string)
    (latitude longitude dangerPercentage : number)
    (* handleAccidentDetected: await supabase.from('user_settings').select *)
| PostingConfirmation (accidentLog_id : string) (settings : Settings)
    (latitude longitude dangerPercentage : number)
    (* handleAccidentDetected: await fetch(..., 'user_confirmation') *)
| PostingEmergency (accidentId : string)
    (* sendEmergencyAlerts: await fetch(..., 'emergency_alert') *)
| UpdatingConfirmed
    (* sendEmergencyAlerts: await supabase...update({ status: 'confirmed' }) *)
| UpdatingCancelled.
    (* handleCancelAccident: await supabase...update({ status: 'cancelled' }) *)

Section App.

Context {D : Type} `{AccidentDetectionService D}.

Local Notation "v <- m ;; k" := (bind m (fun v => k))
  (at level 61, m at next level, right associativity).
Local Notation "m ;; k" := (bind m (fun _ => k))
  (at level 61, right associativity).

(** A call that runs to its end without waiting. *)
Definition finish (h : Async (D := D) unit) : Async (option Awaiting) :=
  h ;; ret None.

(** [handleAccidentDetected] up to its first await: the insert is sent. *)
Definition handleAccidentDetected
    (latitude longitude dangerPercentage : number)
    (accX accY accZ gyroX gyroY gyroZ : number)
    : Async (D := D) (option Awaiting) :=
  send (InsertAccidentLog latitude longitude dangerPercentage
          accX accY accZ gyroX gyroY gyroZ) ;;
  ret (Some (InsertingLog latitude longitude dangerPercentage)).

(** [sendEmergencyAlerts] up to its first await, or to its end when there
    are no settings. *)
Definition sendEmergencyAlerts (accidentId : string)
    (settings : option Settings)
    (latitude longitude dangerPercentage : number)
    : Async (D := D) (option Awaiting) :=
  match settings with
  | Some st =>
      send (PostAccidentAlert
              (orElse (user_email st) "telegram-user")
              (orElse (emergency_contact_1 st) "telegram-group")
              (orElse (emergency_contact_2 st) EmptyString)
              latitude longitude dangerPercentage
              accidentId emergency_alert) ;;
      ret (Some (PostingEmergency accidentId))
  | None =>
      modify (set_activeAccident None) ;;
      _ <- setTimeout Rearm 5000 ;;
      ret None
  end.

(** [handleCancelAccident] up to its await. *)
Definition handleCancelAccident : Async (D := D) (option Awaiting) :=
  active <- read activeAccident ;;
  timeout <- read accidentTimeoutRef ;;
  match active, timeout with
  | Some a, Some t =>
      clearTimeout t ;;
      modify (set_accidentTimeoutRef None) ;;
      send (UpdateAccidentLog (id a) status_cancelled) ;;
      ret (Some UpdatingCancelled)
  | _, _ => ret None
  end.

(** The rest of a suspended call, from the await that has settled to the
    next await or to the end; [net] holds the answer. In
    [handleAccidentDetected] a rejected [fetch] is caught
    ([console.error]) and the call ends; in [sendEmergencyAlerts] it is
    not caught and the call ends there as well. *)
Definition resume (w : Awaiting) (net : Replies)
    : Async (D := D) (option Awaiting) :=
  match w with
  | InsertingLog latitude longitude dangerPercentage =>
      let logError := error (insertReply net) in
      match data (insertReply net) with
      | None => ret None
      | Some accidentLog_id =>
          if logError then ret None
          else
            modify (set_activeAccident
                      (Some {| id := accidentLog_id;
                               activeDanger := dangerPercentage |})) ;;
            send SelectUserSettings ;;
            ret (Some (SelectingSettings accidentLog_id
                         latitude longitude dangerPercentage))
      end
  | SelectingSettings accidentLog_id latitude longitude dangerPercentage =>
      match settingsReply net with
      | Some st =>
          send (PostAccidentAlert
                  (orElse (user_email st) "telegram-user")
                  (orElse (emergency_contact_1 st) "telegram-group")
                  (orElse (emergency_contact_2 st) EmptyString)
                  latitude longitude dangerPercentage
                  accidentLog_id user_confirmation) ;;
          ret (Some (PostingConfirmation accidentLog_id st
                       latitude longitude dangerPercentage))
      | None =>
          t <- setTimeout (Escalate accidentLog_id None
                             latitude longitude dangerPercentage) 30000 ;;
          modify (set_accidentTimeoutRef (Some t)) ;;
          ret None
      end
  | PostingConfirmation accidentLog_id st
      latitude longitude dangerPercentage =>
      if fetchResolves net then
        t <- setTimeout (Escalate accidentLog_id (Some st)
                           latitude longitude dangerPercentage) 30000 ;;
        modify (set_accidentTimeoutRef (Some t)) ;;
        ret None
      else ret None
  | PostingEmergency accidentId =>
      if fetchResolves net then
        send (UpdateAccidentLog accidentId status_confirmed) ;;
        ret (Some UpdatingConfirmed)
      else ret None
  | UpdatingConfirmed =>
      modify (set_activeAccident None) ;;
      _ <- setTimeout Rearm 5000 ;;
      ret None
  | UpdatingCancelled =>
      modify (set_activeAccident None) ;;
      modify (fun s => set_detectionService (reset (detectionService s)) s) ;;
      _ <- setTimeout Rearm 5000 ;;
      ret None
  end.

(** [handleNewData], as above up to the call of [handleAccidentDetected],
    which returns at its first await. *)
Definition handleNewData (newData : SensorDataRow.t)
    : Async (D := D) (option Awaiting) :=
  let raw := convertToSensorData newData in
  now <- read clock ;;
  modify (set_lastPacketTimeRef now) ;;
  modify (set_isConnected true) ;;
  prev <- read prevAccel ;;
  let smoothAlpha := 0.3 in
  let smoothedAccel :=
    {| x := lowPassFilter (x (accelerometer raw)) (x prev) smoothAlpha;
       y := lowPassFilter (y (accelerometer raw)) (y prev) smoothAlpha;
       z := lowPassFilter (z (accelerometer raw)) (z prev) smoothAlpha |} in
  modify (set_prevAccel smoothedAccel) ;;
  let finalData :=
    {| location := location raw; accelerometer := smoothedAccel;
       gyroscope := gyroscope raw; timestamp := timestamp raw |} in
  modify (set_sensorData finalData) ;;
  modify (fun s =>
    set_detectionService
      (addReading (detectionService s)
         (x (accelerometer finalData)) (y (accelerometer finalData))
         (z (accelerometer finalData))
         (x (gyroscope finalData)) (y (gyroscope finalData))
         (z (gyroscope finalData))) s) ;;
  service <- read detectionService ;;
  let result := fst (detectWithHistory service) in
  modify (set_detectionService (snd (detectWithHistory service))) ;;
  let zValue := z (accelerometer finalData) in
  vehicle <- read vehicleType ;;
  let shouldTrigger := fst (triggerDecision vehicle zValue result) in
  let finalDanger := snd (triggerDecision vehicle zValue result) in
  active <- read activeAccident ;;
  triggered <- read isTriggered ;;
  if shouldTrigger && negb (isSome active) && negb triggered then
    modify (set_isTriggered true) ;;
    handleAccidentDetected
      (latitude (location finalData)) (longitude (location finalData))
      finalDanger
      (SensorDataRow.acc_x newData) (SensorDataRow.acc_y newData)
      (SensorDataRow.acc_z newData)
      (SensorDataRow.gyro_x newData) (SensorDataRow.gyro_y newData)
      (SensorDataRow.gyro_z newData)
  else ret None.

(** What a timer does when it fires, up to the first await. *)
Definition runCallback (cb : Callback) : Async (D := D) (option Awaiting) :=
  match cb with
  | Escalate accidentId settings latitude longitude dangerPercentage =>
      sendEmergencyAlerts accidentId settings
        latitude longitude dangerPercentage
  | Rearm => finish (modify (set_isTriggered false))
  end.

(* --------------------------------------------------------------------- *)
(** *** The event loop *)

(** The component and the calls that are suspended at an await, oldest
    first. *)
Record Loop : Type := {
  app : AppState D;
  awaited : list Awaiting
}.

(** What the browser delivers: the events of [dispatch] with their time of
    arrival, a timer firing, and the settling of what the [k]-th suspended
    call waits for, with the answer in [net]. *)
Inductive Event : Type :=
| SensorRow (t : Z) (newData : SensorDataRow.t)
| CancelClick (t : Z)
| VehicleChange (t : Z) (newType : VehicleType)
| HeartbeatTick (t : Z)
| VehicleLoaded (t : Z) (type : option VehicleType)
| TimerFired (t : Z)
| Resumed (t : Z) (k : nat) (net : Replies).

(** One piece of code runs at time [t]; what it waits for next joins the
    suspended calls. Time does not go back. *)
Definition turn (t : Z) (h : Async (D := D) (option Awaiting))
    (app0 : AppState D) (others : list Awaiting) : option Loop :=
  if (clock app0 <=? t)%Z then
    Some match h (set_clock t app0) with
         | Fulfilled (Some w) s => {| app := s; awaited := others ++ [w] |}
         | Fulfilled None s => {| app := s; awaited := others |}
         | Rejected _ s => {| app := s; awaited := others |}
         end
  else None.

Definition without_nth {A : Type} (k : nat) (l : list A) : list A :=
  firstn k l ++ skipn (S k) l.

(** One turn of the event loop; [None] when the event cannot happen next:
    time would go back, no timer is due, or nothing is awaited at [k]. *)
Definition dispatch (l : Loop) (e : Event) : option Loop :=
  match e with
  | SensorRow t newData => turn t (handleNewData newData) (app l) (awaited l)
  | CancelClick t => turn t handleCancelAccident (app l) (awaited l)
  | VehicleChange t newType =>
      turn t (finish (handleVehicleChange newType)) (app l) (awaited l)
  | HeartbeatTick t => turn t (finish heartbeat) (app l) (awaited l)
  | VehicleLoaded t type =>
      turn t (finish (loadVehicleType type)) (app l) (awaited l)
  | TimerFired t =>
      match earliest (timers (app l)) with
      | Some tm =>
          if (due tm <=? t)%Z then
            turn t (runCallback (callback tm))
              (set_timers (withoutTimer (tid tm) (timers (app l))) (app l))
              (awaited l)
          else None
      | None => None
      end
  | Resumed t k net =>
      match nth_error (awaited l) k with
      | Some w => turn t (resume w net) (app l) (without_nth k (awaited l))
      | None => None
      end
  end.

Fixpoint run (events : list Event) (l : Loop) : option Loop :=
  match events with
  | [] => Some l
  | e :: rest =>
      match dispatch l e with
      | Some l' => run rest l'
      | None => None
      end
  end.

(** Every await settled at once: the suspended call [w] is resumed with
    the answers of [net] until it ends. No call has more than three
    awaits. *)
Definition settle (net : Replies) (w : option Awaiting) (s : AppState D)
    : AppState D :=
  let next (r : option Awaiting * AppState D) :=
    match fst r with
    | Some w' =>
        match resume w' net (snd r) with
        | Fulfilled w'' s' => (w'', s')
        | Rejected _ s' => (None, s')
        end
    | None => r
    end in
  snd (next (next (next (w, s)))).

End App.

End Awaits.

(* ===================================================================== *)
(** ** A detection service for concrete runs *)
(* ===================================================================== *)

(** One entry of the history: accelerometer and gyroscope of a reading. *)
Definition Sample : Type := (Vec3 number * Vec3 number)%type.

Record WindowDetector : Type := {
  profile : VehicleType;
  history : list Sample
}.

(** [push capacity a l]: append [a], evicting the oldest entries beyond
    [capacity]. *)
Definition push (capacity : nat) (a : Sample) (l : list Sample)
    : list Sample :=
  let l' := l ++ [a] in
  skipn (length l' - capacity) l'.

(** Modelled from the spec: a service with the state the spec describes
    (4.3: a bounded history with ring-buffer eviction and the current
    vehicle profile). The scoring formula is left open by the spec, so it is
    a parameter [score] of the instance, a function of the profile and the
    history only. *)
Definition windowService (capacity : nat)
    (score : VehicleType -> list Sample -> DetectionResult)
    : AccidentDetectionService WindowDetector :=
  {| newService := {| profile := scooter; history := [] |};
     setVehicleType := fun d v => {| profile := v; history := history d |};
     addReading := fun d ax ay az gx gy gz =>
       {| profile := profile d;
          history := push capacity
                       ({| x := ax; y := ay; z := az |},
                        {| x := gx; y := gy; z := gz |}) (history d) |};
     detectWithHistory := fun d => (score (profile d) (history d), d);
     reset := fun d => {| profile := profile d; history := [] |} |}.

(** A scoring that never flags an accident, and one that always does. *)
Definition quiet (_ : VehicleType) (_ : list Sample) : DetectionResult :=
  {| isAccident := false; dangerPercentage := 0 |}.

Definition alarmed (_ : VehicleType) (_ : list Sample) : DetectionResult :=
  {| isAccident := true; dangerPercentage := 95 |}.

(* ===================================================================== *)
(** ** Vocabulary of the specification *)
(* ===================================================================== *)

(** Observations on the request log. *)
Definition isInsert (r : Request) : bool :=
  match r with InsertAccidentLog _ _ _ _ _ _ _ _ _ => true | _ => false end.

Definition isEmergencyAlert (r : Request) : bool :=
  match r with
  | PostAccidentAlert _ _ _ _ _ _ _ emergency_alert => true
  | _ => false
  end.

Definition isConfirmation (r : Request) : bool :=
  match r with UpdateAccidentLog _ status_confirmed => true | _ => false end.

(** How many accident events were created, how many emergency alerts were
    posted and how many events were marked confirmed. *)
Definition inserts (l : list Request) : nat := length (filter isInsert l).
Definition emergencyAlerts (l : list Request) : nat :=
  length (filter isEmergencyAlert l).
Definition confirmations (l : list Request) : nat :=
  length (filter isConfirmation l).

(** The insert sent by [handleAccidentDetected] for a row and a danger. *)
Definition insertOf (newData : SensorDataRow.t) (danger : number) : Request :=
  InsertAccidentLog (SensorDataRow.latitude newData)
    (SensorDataRow.longitude newData) danger
    (SensorDataRow.acc_x newData) (SensorDataRow.acc_y newData)
    (SensorDataRow.acc_z newData)
    (SensorDataRow.gyro_x newData) (SensorDataRow.gyro_y newData)
    (SensorDataRow.gyro_z newData).

(** The alert posted under [if (settings)], if any. *)
Definition alertOf (settings : option Settings)
    (latitude longitude danger : number) (accidentId : string)
    (emailType : EmailType) : list Request :=
  match settings with
  | Some st =>
      [PostAccidentAlert (orElse (user_email st) "telegram-user")
         (orElse (emergency_contact_1 st) "telegram-group")
         (orElse (emergency_contact_2 st) EmptyString)
         latitude longitude danger accidentId emailType]
  | None => []
  end.

(** Events other than a cancellation and a timer firing. *)
Definition uncancelled (e : Event) : bool :=
  match e with
  | SensorRow _ _ _ | VehicleChange _ _ | HeartbeatTick _
  | VehicleLoaded _ _ => true
  | CancelClick _ | TimerDue _ => false
  end.

Section Lifecycle.

Context {D : Type} `{AccidentDetectionService D}.
Implicit Types (s : AppState D) (a : ActiveAccident) (tm : Timer).

(** [(shouldTrigger, finalDanger)] as [handleNewData] computes them for a
    row arriving in state [s]. *)
Definition decision s (newData : SensorDataRow.t) : bool * number :=
  let raw := convertToSensorData newData in
  let zValue := lowPassFilter (z (accelerometer raw)) (z (prevAccel s)) 0.3 in
  let service :=
    addReading (detectionService s)
      (lowPassFilter (x (accelerometer raw)) (x (prevAccel s)) 0.3)
      (lowPassFilter (y (accelerometer raw)) (y (prevAccel s)) 0.3)
      zValue
      (x (gyroscope raw)) (y (gyroscope raw)) (z (gyroscope raw)) in
  triggerDecision (vehicleType s) zValue (fst (detectWithHistory service)).

(** The part of the state that the accident life cycle lives in. *)
Definition escalation s :=
  (activeAccident s, isTriggered s, timers s, accidentTimeoutRef s).

(** The phases of the life cycle. [Idle], [Pending] and [Cooling] are the
    states of the specification; [Latched] and [Unarmed] are the two states
    the handlers stop in when a collaborator fails. *)
Definition Idle s : Prop :=
  activeAccident s = None /\ isTriggered s = false /\ timers s = [].

Definition Latched s : Prop :=
  activeAccident s = None /\ isTriggered s = true /\ timers s = [].

Definition Pending s a tm : Prop :=
  activeAccident s = Some a /\ isTriggered s = true /\ timers s = [tm] /\
  accidentTimeoutRef s = Some (tid tm) /\
  exists settings latitude longitude,
    callback tm = Escalate (id a) settings latitude longitude (activeDanger a).

Definition Unarmed s a : Prop :=
  activeAccident s = Some a /\ isTriggered s = true /\ timers s = [].

Definition Cooling s tm : Prop :=
  activeAccident s = None /\ isTriggered s = true /\ timers s = [tm] /\
  callback tm = Rearm.

Inductive Phase s : Prop :=
| phase_idle : Idle s -> Phase s
| phase_latched : Latched s -> Phase s
| phase_pending a tm : Pending s a tm -> Phase s
| phase_unarmed a : Unarmed s a -> Phase s
| phase_cooling tm : Cooling s tm -> Phase s.

(** What a step that starts no accident and resolves none preserves. *)
Definition undisturbed s s' : Prop :=
  escalation s' = escalation s /\
  inserts (outbox s') = inserts (outbox s) /\
  emergencyAlerts (outbox s') = emergencyAlerts (outbox s) /\
  confirmations (outbox s') = confirmations (outbox s).

End Lifecycle.

(* ===================================================================== *)
(** ** A ride for the concrete runs *)
(* ===================================================================== *)

(** A row with the given raw z acceleration and the vehicle at rest. *)
Definition rowWithZ (raw_z : number) : SensorDataRow.t :=
  {| SensorDataRow.latitude := 36.8;
     SensorDataRow.longitude := 10.18;
     SensorDataRow.acc_x := 0;
     SensorDataRow.acc_y := 0;
     SensorDataRow.acc_z := raw_z;
     SensorDataRow.gyro_x := 0;
     SensorDataRow.gyro_y := 0;
     SensorDataRow.gyro_z := 0;
     SensorDataRow.created_at := "2025-01-01T00:00:00Z" |}.

(** Upright: 1 g on z. Fallen: after the filter, from the initial
    [prevAccel.z = 1], z is [1 + 0.3 * (-2 - 1) = 0.1]. *)
Definition uprightRow : SensorDataRow.t := rowWithZ 16384.
Definition fallenRow : SensorDataRow.t := rowWithZ (-32768).

Definition contacts : Settings :=
  {| user_email := "rider@example.org";
     emergency_contact_1 := "family@example.org";
     emergency_contact_2 := EmptyString |}.

(** Every collaborator answers. *)
Definition allFine : Replies :=
  {| insertReply := {| data := Some "acc-1"%string; error := false |};
     settingsReply := Some contacts;
     fetchResolves := true |}.

(** The insert reports an error and returns no record. *)
Definition insertFails : Replies :=
  {| insertReply := {| data := None; error := true |};
     settingsReply := Some contacts;
     fetchResolves := true |}.

(** The [user_settings] table has no row. *)
Definition noSettings : Replies :=
  {| insertReply := {| data := Some "acc-1"%string; error := false |};
     settingsReply := None;
     fetchResolves := true |}.

Definition demoService : AccidentDetectionService WindowDetector :=
  windowService 5 quiet.

(** A scooter dashboard mounted at time 0. *)
Definition mounted : AppState WindowDetector :=
  initialState (H := demoService) 0 scooter (convertToSensorData uprightRow).

Definition ride (events : list Event) : option (AppState WindowDetector) :=
  run (H := demoService) events mounted.

(** The fall at 1000 ms, with every collaborator answering. *)
Definition fall : list Event := [SensorRow 1000 fallenRow allFine].

(** What follows the fall in the runs below: the rider is watched for a
    while (a further reading, a heartbeat), or the fall is cancelled. *)
Definition watching : list Event :=
  [SensorRow 20000 fallenRow allFine; HeartbeatTick 30000].

Definition orElseMounted (o : option (AppState WindowDetector))
    : AppState WindowDetector :=
  match o with Some s => s | None => mounted end.

(** The states the ride goes through, computed once. *)
Definition pendingFall : AppState WindowDetector :=
  Eval vm_compute in orElseMounted (ride fall).

Definition watchedFall : AppState WindowDetector :=
  Eval vm_compute in orElseMounted (ride (fall ++ watching)).

Definition confirmedFall : AppState WindowDetector :=
  Eval vm_compute in
    orElseMounted (ride (fall ++ watching ++ [TimerDue allFine])).

Definition timedOutFall : AppState WindowDetector :=
  Eval vm_compute in orElseMounted (ride (fall ++ [TimerDue allFine])).

Definition rearmedFall : AppState WindowDetector :=
  Eval vm_compute in
    orElseMounted (ride (fall ++ [TimerDue allFine; TimerDue allFine])).

Definition cancelledFall : AppState WindowDetector :=
  Eval vm_compute in orElseMounted (ride (fall ++ [CancelClick 5000])).

Definition coolingFall : AppState WindowDetector :=
  Eval vm_compute in
    orElseMounted
      (ride (fall ++ [CancelClick 5000; SensorRow 9999 fallenRow allFine])).

Definition coolingTimeout : AppState WindowDetector :=
  Eval vm_compute in
    orElseMounted
      (ride (fall ++ [TimerDue allFine; SensorRow 35999 fallenRow allFine])).

(** The fall whose insert fails, and two later falls with a working one. *)
Definition latchedFall : AppState WindowDetector :=
  Eval vm_compute in
    orElseMounted (ride [SensorRow 1000 fallenRow insertFails]).

Definition laterFalls : list Event :=
  [SensorRow 2000 fallenRow allFine; SensorRow 60000 fallenRow allFine].

Definition ignoredFalls : AppState WindowDetector :=
  Eval vm_compute in
    orElseMounted
      (ride (SensorRow 1000 fallenRow insertFails :: laterFalls)).

(** A reading at time 0 on the mounted dashboard, and the heartbeats that
    follow it. *)
Definition firstReading : AppState WindowDetector :=
  Eval vm_compute in orElseMounted (ride [SensorRow 0 uprightRow allFine]).

Definition beatAt (t : Z) : AppState WindowDetector :=
  orElseMounted (dispatch (H := demoService) firstReading (HeartbeatTick t)).

(* ===================================================================== *)
(** ** The 3D view *)
(* ===================================================================== *)

(** [THREE.FrontSide], [THREE.BackSide], [THREE.DoubleSide]. *)
Inductive Side : Type := FrontSide | BackSide | DoubleSide.

(** The fields of a [THREE.MeshStandardMaterial] that the view reads or
    writes. *)
Record Material : Type := {
  name : string;
  opacity : number;
  transparent : bool;
  depthWrite : bool;
  roughness : number;
  metalness : number;
  side : Side
}.

(** [String.prototype.toLowerCase] on the letters A to Z; other characters
    are kept. *)
Definition lowerChar (c : ascii) : ascii :=
  let n := nat_of_ascii c in
  if (65 <=? n)%nat && (n <=? 90)%nat then ascii_of_nat (n + 32) else c.

Fixpoint toLowerCase (s : string) : string :=
  match s with
  | EmptyString => EmptyString
  | String c rest => String (lowerChar c) (toLowerCase rest)
  end.

(** [s.includes(needle)]. *)
Fixpoint includes (needle s : string) : bool :=
  String.prefix needle s
  || match s with
     | EmptyString => false
     | String _ rest => includes needle rest
     end.

(** [const isGlass = material.name.toLowerCase().includes('window') ||
    material.name.toLowerCase().includes('glass') ||
    material.opacity < 0.5]. *)
Definition isGlass (material : Material) : bool :=
  includes "window" (toLowerCase (name material))
  || includes "glass" (toLowerCase (name material))
  || Qltb (opacity material) 0.5.

(** The body of the material effect of [Model]: the [side] is left as it
    was. *)
Definition fixMaterial_Model (material : Material) : Material :=
  if isGlass material then
    {| name := name material; opacity := 0.3; transparent := true;
       depthWrite := false; roughness := 0; metalness := 0.8;
       side := side material |}
  else
    {| name := name material; opacity := 1; transparent := false;
       depthWrite := true; roughness := 0.6; metalness := 0.1;
       side := side material |}.

(** The body of the material effect of [VehicleModel]: the same, with
    [material.side = THREE.FrontSide] in both branches. *)
Definition fixMaterial_VehicleModel (material : Material) : Material :=
  if isGlass material then
    {| name := name material; opacity := 0.3; transparent := true;
       depthWrite := false; roughness := 0; metalness := 0.8;
       side := FrontSide |}
  else
    {| name := name material; opacity := 1; transparent := false;
       depthWrite := true; roughness := 0.6; metalness := 0.1;
       side := FrontSide |}.

(* ===================================================================== *)
(** ** The vehicle type as a string *)
(* ===================================================================== *)

(** The initializer of [vehicleType]:
    [(localStorage.getItem('selectedVehicleType') as VehicleType) ||
    'scooter']. The cast checks nothing. *)
Definition initialVehicleType (saved : option string) : string :=
  match saved with
  | Some s => orElse s "scooter"
  | None => "scooter"%string
  end.

(** Which overrides [handleNewData] applies:
    [if (vehicleType === 'scooter') { ... } else { ... }]. *)
Definition overridesFor (vehicleType : string) : VehicleType :=
  if String.eqb vehicleType "scooter" then scooter else car.

(** What [VehicleModel] and the header of [App] show:
    [vehicleType === 'car' ? '/car.glb' : '/scooter1.glb'],
    [vehicleType === 'car' ? 0.6 : 0.5] and
    [vehicleType === 'car' ? 'Car' : 'Scooter']. *)
Definition shownAs (vehicleType : string) : VehicleType :=
  if String.eqb vehicleType "car" then car else scooter.

Definition modelPath (vehicleType : string) : string :=
  match shownAs vehicleType with
  | car => "/car.glb"
  | scooter => "/scooter1.glb"
  end.

(* ===================================================================== *)
(** ** More of [App] *)
(* ===================================================================== *)

Section MoreOfApp.

Context {D : Type} `{AccidentDetectionService D}.

(** [const fetchHistory = async () => { ... }]: [latestData] is what
    [getLatestSensorData()] resolves to and [dataAge] is
    [Date.now() - new Date(latestData.created_at).getTime()]. *)
Definition fetchHistory (latestData : option SensorDataRow.t) (dataAge : Z)
    (net : Replies) : Async unit :=
  match latestData with
  | Some row =>
      bind (handleNewData row net) (fun _ =>
      if (dataAge <? 10000)%Z then modify (set_isConnected true) else ret tt)
  | None => ret tt
  end.

(** Every axis of a vector lies in [[lo, hi]]. *)
Definition within (lo hi : number) (v : Vec3 number) : Prop :=
  (lo <= x v /\ x v <= hi) /\ (lo <= y v /\ y v <= hi) /\
  (lo <= z v /\ z v <= hi).

(** The readings of a trace have every axis of the acceleration, in g, in
    [[lo, hi]]. *)
Definition rowsWithin (lo hi : number) (events : list Event) : Prop :=
  forall t newData net,
    In (SensorRow t newData net) events ->
    within lo hi (accelerometer (convertToSensorData newData)).

(** The readings of a trace have a z acceleration, in g, of at least
    [floor]. *)
Definition rowsAtLeast (floor : number) (events : list Event) : Prop :=
  forall t newData net,
    In (SensorRow t newData net) events ->
    floor <= SensorDataRow.acc_z newData / 16384.

(** A detection service whose base result never flags an accident. *)
Definition neverFlags : Prop :=
  forall d : D, isAccident (fst (detectWithHistory d)) = false.

End MoreOfApp.

(* ===================================================================== *)
(** ** Further runs of the ride *)
(* ===================================================================== *)

(** The insert and the settings answer, the request of an alert is
    rejected. *)
Definition alertRejected : Replies :=
  {| insertReply := {| data := Some "acc-1"%string; error := false |};
     settingsReply := Some contacts;
     fetchResolves := false |}.

(** The fall whose first alert is rejected, and what is tried afterwards. *)
Definition trappedFall : AppState WindowDetector :=
  Eval vm_compute in
    orElseMounted (ride [SensorRow 1000 fallenRow alertRejected]).

Definition afterTrap : list Event :=
  [CancelClick 5000; SensorRow 60000 fallenRow allFine].

Definition stillTrapped : AppState WindowDetector :=
  Eval vm_compute in
    orElseMounted
      (ride (SensorRow 1000 fallenRow alertRejected :: afterTrap)).

(** The fall whose emergency alert is rejected at the timeout, and the
    cancel click that follows. *)
Definition unconfirmedFall : AppState WindowDetector :=
  Eval vm_compute in
    orElseMounted (ride (fall ++ [TimerDue alertRejected])).

Definition lateCancelledFall : AppState WindowDetector :=
  Eval vm_compute in
    orElseMounted
      (ride (fall ++ [TimerDue alertRejected; CancelClick 40000])).

(** The fall and the reading that follows it. *)
Definition secondReading : AppState WindowDetector :=
  Eval vm_compute in
    orElseMounted (ride (fall ++ [SensorRow 20000 fallenRow allFine])).

(** A cancel click on the mounted dashboard. *)
Definition idleClick : AppState WindowDetector :=
  Eval vm_compute in orElseMounted (ride [CancelClick 500]).

(** A ride that stays upright: 1 g and 0.5 g on z, a heartbeat and a change
    of vehicle in between. *)
Definition calmRide : list Event :=
  [SensorRow 0 uprightRow allFine; HeartbeatTick 500;
   SensorRow 1000 (rowWithZ 8192) allFine; VehicleChange 2000 car;
   SensorRow 3000 (rowWithZ 8192) allFine].

Definition calmState : AppState WindowDetector :=
  Eval vm_compute in orElseMounted (ride calmRide).

(** Two materials of a model: a window, opaque in the file, and tinted
    paint. *)
Definition windowMaterial : Material :=
  {| name := "Car_WINDOW_left"; opacity := 1; transparent := false;
     depthWrite := true; roughness := 0.5; metalness := 0.5;
     side := DoubleSide |}.

Definition tintedMaterial : Material :=
  {| name := "paint"; opacity := 0.2; transparent := true;
     depthWrite := true; roughness := 0.5; metalness := 0.5;
     side := DoubleSide |}.

(* --------------------------------------------------------------------- *)
(** *** A ride with a click in flight *)

(** Every collaborator answers; the insert returns the record [accidentId]. *)
Definition answering (accidentId : string) : Replies :=
  {| insertReply := {| data := Some accidentId; error := false |};
     settingsReply := Some contacts;
     fetchResolves := true |}.

Definition mountedLoop : Awaits.Loop (D := WindowDetector) :=
  {| Awaits.app := mounted; Awaits.awaited := [] |}.

Definition orElseMountedLoop (o : option (Awaits.Loop (D := WindowDetector)))
    : Awaits.Loop (D := WindowDetector) :=
  match o with Some l => l | None => mountedLoop end.

(** The first accident of the session: a fall at 1000 ms, its three
    requests answered within 300 ms, no click, the timeout 30000 ms after
    the timer was armed, the emergency alert and the update answered, and
    the re-arming 5000 ms later. *)
Definition firstAccident : list Awaits.Event :=
  [Awaits.SensorRow 1000 fallenRow;
   Awaits.Resumed 1100 0 (answering "acc-1");
   Awaits.Resumed 1200 0 (answering "acc-1");
   Awaits.Resumed 1300 0 (answering "acc-1");
   Awaits.TimerFired 31300;
   Awaits.Resumed 31400 0 (answering "acc-1");
   Awaits.Resumed 31500 0 (answering "acc-1");
   Awaits.TimerFired 36500].

(** The second accident: a fall at 40000 ms, the insert and the settings
    answered at 40100 ms and 40200 ms, the cancel click at 41500 ms while
    the first alert is under way, the update of the click answered at
    41600 ms, the alert answered at 42500 ms, and the re-arming of the
    click at 46600 ms. *)
Definition clickInFlight : list Awaits.Event :=
  [Awaits.SensorRow 40000 fallenRow;
   Awaits.Resumed 40100 0 (answering "acc-2");
   Awaits.Resumed 40200 0 (answering "acc-2");
   Awaits.CancelClick 41500;
   Awaits.Resumed 41600 1 (answering "acc-2");
   Awaits.Resumed 42500 0 (answering "acc-2");
   Awaits.TimerFired 46600].

(** A third fall at 50000 ms, its three requests answered. *)
Definition thirdAccident : list Awaits.Event :=
  [Awaits.SensorRow 50000 fallenRow;
   Awaits.Resumed 50100 0 (answering "acc-3");
   Awaits.Resumed 50200 0 (answering "acc-3");
   Awaits.Resumed 52500 0 (answering "acc-3")].

(** The timer of the second accident fires 30000 ms after it was armed. *)
Definition lateEscalation : list Awaits.Event :=
  [Awaits.TimerFired 72500;
   Awaits.Resumed 72600 0 (answering "acc-2");
   Awaits.Resumed 72700 0 (answering "acc-2")].

(** The first accident of a session, up to the posting of its first
    alert. *)
Definition firstClick : list Awaits.Event :=
  [Awaits.SensorRow 1000 fallenRow;
   Awaits.Resumed 1100 0 (answering "acc-1");
   Awaits.Resumed 1200 0 (answering "acc-1")].

Definition staleLoop : Awaits.Loop (D := WindowDetector) :=
  Eval vm_compute in
    orElseMountedLoop (Awaits.run (H := demoService) firstAccident mountedLoop).

Definition clickedLoop : Awaits.Loop (D := WindowDetector) :=
  Eval vm_compute in
    orElseMountedLoop
      (Awaits.run (H := demoService) (firstAccident ++ clickInFlight)
         mountedLoop).

Definition twoTimersLoop : Awaits.Loop (D := WindowDetector) :=
  Eval vm_compute in
    orElseMountedLoop
      (Awaits.run (H := demoService)
         (firstAccident ++ clickInFlight ++ thirdAccident) mountedLoop).

Definition escalatedLoop : Awaits.Loop (D := WindowDetector) :=
  Eval vm_compute in
    orElseMountedLoop
      (Awaits.run (H := demoService)
         (firstAccident ++ clickInFlight ++ lateEscalation) mountedLoop).

Definition activeLoop : Awaits.Loop (D := WindowDetector) :=
  Eval vm_compute in
    orElseMountedLoop (Awaits.run (H := demoService) firstClick mountedLoop).

Definition ignoredClickLoop : Awaits.Loop (D := WindowDetector) :=
  Eval vm_compute in
    orElseMountedLoop
      (Awaits.run (H := demoService) (firstClick ++ [Awaits.CancelClick 2500])
         mountedLoop).

(* ===================================================================== *)
(** ** Properties of the numeric helpers *)
(* ===================================================================== *)

Unset Implicit Arguments.

Lemma Qltb_lt (a b : Q) : Qltb a b = true <-> a < b.
Proof.
  unfold Qltb. rewrite negb_true_iff. split; intro Hab.
  - apply Qnot_le_lt. intro Hle. apply Qle_bool_iff in Hle. congruence.
  - destruct (Qle_bool b a) eqn:E; [|reflexivity].
    apply Qle_bool_iff in E. exfalso. exact (Qlt_not_le _ _ Hab E).
Qed.

Lemma Qltb_ge (a b : Q) : Qltb a b = false <-> b <= a.
Proof. unfold Qltb. rewrite negb_false_iff. apply Qle_bool_iff. Qed.

Lemma Math_max_cases (a b : number) :
  (a <= b /\ Math_max a b = b) \/ (b < a /\ Math_max a b = a).
Proof.
  unfold Math_max. destruct (Qle_bool a b) eqn:E.
  - left. split; [now apply Qle_bool_iff | reflexivity].
  - right. split; [|reflexivity]. apply Qnot_le_lt. intro Hle.
    apply Qle_bool_iff in Hle. congruence.
Qed.

Lemma Math_max_ge_l (a b : number) : a <= Math_max a b.
Proof.
  destruct (Math_max_cases a b) as [[Hle ->]|[Hlt ->]];
    [assumption|apply Qle_refl].
Qed.

Lemma Math_max_ge_r (a b : number) : b <= Math_max a b.
Proof.
  destruct (Math_max_cases a b) as [[Hle ->]|[Hlt ->]];
    [apply Qle_refl|now apply Qlt_le_weak].
Qed.

(** A scooter that lies on its side is not upside down: the two override
    conditions exclude each other. *)
Lemma tipped_not_upside_down (zValue : number) :
  Qabs zValue < 0.4 -> Qltb zValue (-0.5) = false.
Proof.
  intro Habs. apply Qltb_ge.
  apply Qabs_Qlt_condition in Habs. destruct Habs as [Hlo _].
  apply Qlt_le_weak. eapply Qle_lt_trans; [|exact Hlo]. discriminate.
Qed.

Lemma triggerDecision_upside_down (result : DetectionResult) (zValue : number) :
  zValue < -0.5 -> triggerDecision scooter zValue result = (true, 100).
Proof.
  intro Hz. apply Qltb_lt in Hz. unfold triggerDecision. now rewrite Hz.
Qed.

Lemma triggerDecision_tipped_over (result : DetectionResult) (zValue : number) :
  Qabs zValue < 0.4 ->
  triggerDecision scooter zValue result
  = (true, Math_max (dangerPercentage result) 80).
Proof.
  intro Hz. unfold triggerDecision, Math_abs.
  rewrite (tipped_not_upside_down _ Hz).
  apply Qltb_lt in Hz. now rewrite Hz.
Qed.

Lemma triggerDecision_car_flat (result : DetectionResult) (zValue : number) :
  Qabs zValue < 0.3 ->
  triggerDecision car zValue result
  = (true, Math_max (dangerPercentage result) 90).
Proof.
  intro Hz. unfold triggerDecision, Math_abs.
  apply Qltb_lt in Hz. now rewrite Hz.
Qed.

(** Outside the override conditions the base result passes through. *)
Lemma triggerDecision_base (v : VehicleType) (result : DetectionResult)
    (zValue : number) :
  match v with
  | scooter => -0.5 <= zValue /\ 0.4 <= Qabs zValue
  | car => 0.3 <= Qabs zValue
  end ->
  triggerDecision v zValue result
  = (isAccident result, dangerPercentage result).
Proof.
  destruct v; unfold triggerDecision, Math_abs.
  - intros [Hup Htip]. apply Qltb_ge in Hup, Htip. now rewrite Hup, Htip.
  - intro Hflat. apply Qltb_ge in Hflat. now rewrite Hflat.
Qed.

(* --------------------------------------------------------------------- *)
(** *** The low-pass filter on a constant input *)

Lemma smoothed_step (alpha c p : number) (n : nat) :
  smoothed alpha c p (S n)
  = (smoothed alpha c p n + alpha * (c - smoothed alpha c p n))%Q.
Proof. reflexivity. Qed.

(** The error after [n] samples is the initial error times [(1 - alpha)^n]. *)
Lemma smoothed_error (alpha c p : number) (n : nat) :
  (Q2R (smoothed alpha c p n) - Q2R c
   = (1 - Q2R alpha) ^ n * (Q2R p - Q2R c))%R.
Proof.
  induction n as [|n IH].
  - cbn [smoothed pow]. ring.
  - rewrite smoothed_step, Q2R_plus, Q2R_mult, Q2R_minus.
    cbn [pow]. rewrite Rmult_assoc, <- IH. ring.
Qed.

Lemma smoothed_from_below (alpha c p : number) :
  0 < alpha -> alpha <= 1 -> p <= c ->
  forall n, smoothed alpha c p n <= smoothed alpha c p (S n)
            /\ smoothed alpha c p (S n) <= c.
Proof.
  intros Ha0 Ha1 Hpc.
  assert (Hn : forall n, smoothed alpha c p n <= c).
  { induction n as [|n IH]; [exact Hpc|].
    rewrite smoothed_step. Lqa.nra. }
  intro n. specialize (Hn n). rewrite smoothed_step. split; Lqa.nra.
Qed.

Lemma smoothed_from_above (alpha c p : number) :
  0 < alpha -> alpha <= 1 -> c <= p ->
  forall n, c <= smoothed alpha c p (S n)
            /\ smoothed alpha c p (S n) <= smoothed alpha c p n.
Proof.
  intros Ha0 Ha1 Hpc.
  assert (Hn : forall n, c <= smoothed alpha c p n).
  { induction n as [|n IH]; [exact Hpc|].
    rewrite smoothed_step. Lqa.nra. }
  intro n. specialize (Hn n). rewrite smoothed_step. split; Lqa.nra.
Qed.

Lemma geometric_error_vanishes (r e eps : R) :
  (0 <= r < 1)%R -> (0 < eps)%R ->
  exists N, forall n, (N <= n)%nat -> (Rabs (r ^ n * e) < eps)%R.
Proof.
  intros Hr Heps.
  assert (He : (0 <= Rabs e)%R) by apply Rabs_pos.
  assert (Hr1 : (Rabs r < 1)%R) by (apply Rabs_def1; lra).
  assert (Hy : (0 < eps / (Rabs e + 1))%R) by (apply Rdiv_lt_0_compat; lra).
  destruct (pow_lt_1_zero _ Hr1 _ Hy) as [N HN].
  exists N. intros n Hn. specialize (HN n Hn).
  rewrite Rabs_mult.
  apply Rle_lt_trans with (Rabs (r ^ n) * (Rabs e + 1))%R.
  - apply Rmult_le_compat_l; [apply Rabs_pos | lra].
  - apply Rmult_lt_reg_r with (/ (Rabs e + 1))%R.
    + apply Rinv_0_lt_compat; lra.
    + rewrite Rmult_assoc, Rinv_r by lra. rewrite Rmult_1_r. exact HN.
Qed.

Lemma smoothed_converges (alpha c p : number) :
  0 < alpha -> alpha <= 1 ->
  forall eps, 0 < eps ->
  exists N, forall n, (N <= n)%nat -> Qabs (smoothed alpha c p n - c) < eps.
Proof.
  intros Ha0 Ha1 eps Heps.
  apply Qlt_Rlt in Ha0, Heps. apply Qle_Rle in Ha1.
  rewrite RMicromega.Q2R_0 in Ha0, Heps. rewrite RMicromega.Q2R_1 in Ha1.
  destruct (geometric_error_vanishes (1 - Q2R alpha) (Q2R p - Q2R c)
              (Q2R eps)) as [N HN]; [lra|exact Heps|].
  exists N. intros n Hn. specialize (HN n Hn).
  rewrite <- smoothed_error in HN.
  apply Rabs_def2 in HN. destruct HN as [Hhi Hlo].
  apply Qabs_Qlt_condition.
  split; apply Rlt_Qlt.
  - now rewrite Q2R_opp, Q2R_minus.
  - now rewrite Q2R_minus.
Qed.

(* --------------------------------------------------------------------- *)
(** *** The orientation estimate *)

Local Open Scope R_scope.

Lemma Math_atan2_scale (k a b : R) :
  0 < k -> Math_atan2 (k * a) (k * b) = Math_atan2 a b.
Proof.
  intro Hk. unfold Math_atan2.
  assert (Hq : b <> 0 -> k * a / (k * b) = a / b) by (intro; field; lra).
  destruct (Rlt_dec 0 b) as [Hb|Hb].
  - destruct (Rlt_dec 0 (k * b)) as [_|Hkb]; [|exfalso; nra].
    rewrite Hq by lra. reflexivity.
  - destruct (Rlt_dec 0 (k * b)) as [Hkb|_]; [exfalso; nra|].
    destruct (Rlt_dec b 0) as [Hb'|Hb'].
    + destruct (Rlt_dec (k * b) 0) as [_|Hkb]; [|exfalso; nra].
      rewrite Hq by lra.
      destruct (Rle_dec 0 a), (Rle_dec 0 (k * a));
        try reflexivity; exfalso; nra.
    + destruct (Rlt_dec (k * b) 0) as [Hkb|_]; [exfalso; nra|].
      destruct (Rlt_dec 0 a), (Rlt_dec 0 (k * a));
        try (exfalso; nra); try reflexivity.
      destruct (Rlt_dec a 0), (Rlt_dec (k * a) 0);
        try reflexivity; exfalso; nra.
Qed.

Lemma sqrt_scale (k a b : R) :
  0 < k ->
  sqrt (k * a * (k * a) + k * b * (k * b)) = k * sqrt (a * a + b * b).
Proof.
  intro Hk.
  replace (k * a * (k * a) + k * b * (k * b))
    with (k * k * (a * a + b * b)) by ring.
  rewrite sqrt_mult by nra.
  rewrite sqrt_square by lra. reflexivity.
Qed.

Lemma Math_atan2_origin : Math_atan2 0 0 = 0.
Proof.
  unfold Math_atan2.
  destruct (Rlt_dec 0 0) as [Hlt|_]; [exfalso; lra|]. reflexivity.
Qed.

Local Close Scope R_scope.

(* --------------------------------------------------------------------- *)
(** *** The low-pass filter in binary64 *)

Local Open Scope float_scope.
Local Set Warnings "-inexact-float".

(** A finite number is a zero or has a mantissa and an exponent. *)
Lemma is_finite_cases (a : float) :
  PrimFloat.is_finite a = true ->
  (exists s, Prim2SF a = S754_zero s) \/
  (exists s m e, Prim2SF a = S754_finite s m e).
Proof.
  unfold PrimFloat.is_finite, PrimFloat.is_nan, PrimFloat.is_infinity.
  rewrite !FloatAxioms.eqb_spec, FloatAxioms.abs_spec.
  change (Prim2SF infinity) with (S754_infinity false).
  destruct (Prim2SF a) as [s|s| |s m e]; cbn; try discriminate; eauto.
  destruct s; discriminate.
Qed.

Lemma SFeqb_refl_finite (s : bool) (m : positive) (e : Z) :
  SFeqb (S754_finite s m e) (S754_finite s m e) = true.
Proof.
  unfold SFeqb, SFcompare.
  rewrite Z.compare_refl, Pos.compare_cont_refl. now destruct s.
Qed.

Lemma SF64sub_diag (s : bool) (m : positive) (e : Z) :
  SF64sub (S754_finite s m e) (S754_finite s m e) = S754_zero false.
Proof.
  unfold SF64sub, SFsub. rewrite Z.min_id. rewrite Z.sub_diag. reflexivity.
Qed.

(** A filter state that equals the sample is kept, whatever [alpha]: the
    difference is an exact zero, its product with [alpha] is a zero, and
    adding a zero changes nothing. *)
Lemma lowPassFilter_fixed_point (c alpha : float) :
  PrimFloat.is_finite c = true -> PrimFloat.is_finite alpha = true ->
  (Binary64.lowPassFilter c c alpha =? c) = true.
Proof.
  intros Hc Ha. unfold Binary64.lowPassFilter.
  rewrite FloatAxioms.eqb_spec, FloatAxioms.add_spec, FloatAxioms.mul_spec,
    FloatAxioms.sub_spec.
  destruct (is_finite_cases c Hc) as [[s ->]|(s & m & e & ->)];
    destruct (is_finite_cases alpha Ha) as [[sa ->]|(sa & ma & ea & ->)].
  - destruct s, sa; reflexivity.
  - destruct s, sa; reflexivity.
  - rewrite SF64sub_diag. cbn. apply SFeqb_refl_finite.
  - rewrite SF64sub_diag. cbn. apply SFeqb_refl_finite.
Qed.

Lemma smoothed_stalls (alpha c p stall : float) (N : nat) :
  Binary64.smoothed alpha c p N = stall ->
  Binary64.lowPassFilter c stall alpha = stall ->
  forall n, (N <= n)%nat -> Binary64.smoothed alpha c p n = stall.
Proof.
  intros Hreach Hfix n Hn. induction Hn as [|n Hn IH]; [exact Hreach|].
  cbn [Binary64.smoothed]. rewrite IH. exact Hfix.
Qed.

Local Close Scope float_scope.

(* ===================================================================== *)
(** ** The accident life cycle *)
(* ===================================================================== *)

Section LifecycleProofs.

Context {D : Type} `{AccidentDetectionService D}.
Implicit Types (s : AppState D) (a : ActiveAccident) (tm : Timer).

Ltac run_handler :=
  cbv [handleNewData handleAccidentDetected sendEmergencyAlerts
       handleCancelAccident handleVehicleChange loadVehicleType heartbeat
       runCallback
       tryCatch bind ret read modify send fetch setTimeout clearTimeout
       stateOf].

Lemma withoutTimer_self tm : withoutTimer (tid tm) [tm] = [].
Proof. unfold withoutTimer. simpl. now rewrite Nat.eqb_refl. Qed.

Lemma inserts_app l l' : inserts (l ++ l') = (inserts l + inserts l')%nat.
Proof. unfold inserts. now rewrite filter_app, length_app. Qed.

Lemma emergencyAlerts_app l l' :
  emergencyAlerts (l ++ l') = (emergencyAlerts l + emergencyAlerts l')%nat.
Proof. unfold emergencyAlerts. now rewrite filter_app, length_app. Qed.

Lemma confirmations_app l l' :
  confirmations (l ++ l') = (confirmations l + confirmations l')%nat.
Proof. unfold confirmations. now rewrite filter_app, length_app. Qed.

Lemma at_time_Some t (h : Async unit) s s' :
  at_time t h s = Some s' ->
  deliverable t s = true /\ s' = stateOf (h (set_clock t s)).
Proof.
  unfold at_time. destruct (deliverable t s); [|discriminate].
  intro E. injection E as <-. auto.
Qed.

Lemma deliverable_bounds t s :
  deliverable t s = true ->
  (clock s <= t)%Z /\ forall tm, In tm (timers s) -> (t <= due tm)%Z.
Proof.
  unfold deliverable. intro E. apply andb_true_iff in E.
  destruct E as [Ec Et]. split; [now apply Z.leb_le|].
  intros tm Hin. rewrite forallb_forall in Et. now apply Z.leb_le, Et.
Qed.

(* --------------------------------------------------------------------- *)
(** *** A reading that starts no accident *)

(** The guard of [handleNewData]: with the latch set or an event active,
    the reading touches neither the life cycle nor the request log. *)
Lemma handleNewData_ignored s newData net :
  isTriggered s = true \/ activeAccident s <> None ->
  let s' := stateOf (handleNewData newData net s) in
  escalation s' = escalation s /\ nextTimerId s' = nextTimerId s /\
  outbox s' = outbox s.
Proof.
  intros Hbusy. run_handler. cbn. unfold escalation.
  destruct (activeAccident s) eqn:Ea, (isTriggered s) eqn:Et;
    cbn; rewrite ?andb_false_r; cbn; rewrite ?Ea, ?Et;
    try solve [repeat split; auto].
  destruct Hbusy; congruence.
Qed.

Lemma handleNewData_quiet s newData net :
  fst (decision s newData) = false ->
  let s' := stateOf (handleNewData newData net s) in
  escalation s' = escalation s /\ outbox s' = outbox s.
Proof.
  intro Hq. unfold decision in Hq. cbn in Hq.
  run_handler. cbn. rewrite Hq. cbn. auto.
Qed.

Lemma clock_handleNewData s newData net :
  clock (stateOf (handleNewData newData net s)) = clock s.
Proof.
  run_handler. cbn.
  match goal with |- context [if ?c then _ else _] => destruct c end;
    [|reflexivity].
  cbn. destruct net as [[[i|] [|]] [st|] [|]]; reflexivity.
Qed.

(** The telemetry part of [handleNewData] does not depend on the guard. *)
Lemma handleNewData_telemetry s newData net :
  let s' := stateOf (handleNewData newData net s) in
  let raw := convertToSensorData newData in
  prevAccel s'
  = {| x := lowPassFilter (x (accelerometer raw)) (x (prevAccel s)) 0.3;
       y := lowPassFilter (y (accelerometer raw)) (y (prevAccel s)) 0.3;
       z := lowPassFilter (z (accelerometer raw)) (z (prevAccel s)) 0.3 |} /\
  accelerometer (sensorData s') = prevAccel s' /\
  lastPacketTimeRef s' = clock s /\ isConnected s' = true /\
  gyroscope (sensorData s') = gyroscope raw /\
  detectionService s'
  = snd (detectWithHistory
           (addReading (detectionService s)
              (x (prevAccel s')) (y (prevAccel s')) (z (prevAccel s'))
              (x (gyroscope raw)) (y (gyroscope raw)) (z (gyroscope raw)))).
Proof.
  run_handler. cbn.
  match goal with |- context [if ?c then _ else _] => destruct c end;
    [|repeat split; reflexivity].
  cbn. destruct net as [[[i|] [|]] [st|] [|]]; repeat split; reflexivity.
Qed.

(* --------------------------------------------------------------------- *)
(** *** A reading that starts an accident *)

Lemma handleNewData_insert_failed s newData net :
  isTriggered s = false -> activeAccident s = None ->
  fst (decision s newData) = true ->
  data (insertReply net) = None \/ error (insertReply net) = true ->
  let s' := stateOf (handleNewData newData net s) in
  activeAccident s' = None /\ isTriggered s' = true /\
  timers s' = timers s /\ accidentTimeoutRef s' = accidentTimeoutRef s /\
  outbox s' = outbox s ++ [insertOf newData (snd (decision s newData))].
Proof.
  intros Et Ea Hq Hfail. unfold decision in Hq. cbn in Hq.
  run_handler. cbn. rewrite Ea, Et, Hq. cbn.
  destruct net as [[[i|] [|]] [st|] [|]]; cbn in *;
    try (destruct Hfail; discriminate); repeat split; auto.
Qed.

Lemma handleNewData_armed s newData net i :
  isTriggered s = false -> activeAccident s = None ->
  fst (decision s newData) = true ->
  insertReply net = {| data := Some i; error := false |} ->
  settingsReply net = None \/ fetchResolves net = true ->
  let danger := snd (decision s newData) in
  let s' := stateOf (handleNewData newData net s) in
  activeAccident s' = Some {| id := i; activeDanger := danger |} /\
  isTriggered s' = true /\
  timers s' = timers s ++
    [{| tid := nextTimerId s; due := (clock s + 30000)%Z;
        callback := Escalate i (settingsReply net)
                      (SensorDataRow.latitude newData)
                      (SensorDataRow.longitude newData) danger |}] /\
  accidentTimeoutRef s' = Some (nextTimerId s) /\
  nextTimerId s' = S (nextTimerId s) /\
  outbox s' = outbox s ++ insertOf newData danger :: SelectUserSettings ::
                alertOf (settingsReply net) (SensorDataRow.latitude newData)
                  (SensorDataRow.longitude newData) danger i user_confirmation.
Proof.
  intros Et Ea Hq Hins Harm. unfold decision in Hq. cbn in Hq.
  run_handler. cbn. rewrite Ea, Et, Hq, Hins. cbn.
  destruct (settingsReply net) as [st|]; cbn.
  - destruct Harm as [Harm|Harm]; [discriminate|]. rewrite Harm. cbn.
    rewrite <- !app_assoc. repeat split; reflexivity.
  - rewrite <- !app_assoc. repeat split; reflexivity.
Qed.

(* --------------------------------------------------------------------- *)
(** *** The phase invariant *)

Lemma Phase_ext s s' : escalation s' = escalation s -> Phase s -> Phase s'.
Proof.
  unfold escalation. intros E P. injection E as Ea Et Etm Er.
  destruct P as [P|P|a tm P|a P|tm P];
    [apply phase_idle|apply phase_latched|apply phase_pending with a tm
    |apply phase_unarmed with a|apply phase_cooling with tm];
    red; red in P; rewrite Ea, Et, Etm, ?Er; exact P.
Qed.

Lemma Phase_set_clock t s : Phase s -> Phase (set_clock t s).
Proof. apply Phase_ext. reflexivity. Qed.

Lemma free_is_idle s : Phase s -> isTriggered s = false -> Idle s.
Proof.
  intros P Et.
  destruct P as [P|P|a tm P|a P|tm P]; red in P; [exact P|..];
    exfalso; intuition congruence.
Qed.

Lemma active_is_latched s :
  Phase s -> activeAccident s <> None -> isTriggered s = true.
Proof.
  intros P Ha.
  destruct P as [P|P|a tm P|a P|tm P]; red in P; intuition congruence.
Qed.

Lemma Phase_handleNewData s newData net :
  Phase s -> Phase (stateOf (handleNewData newData net s)).
Proof.
  intro P.
  destruct (isTriggered s) eqn:Et.
  { eapply Phase_ext; [|exact P].
    apply handleNewData_ignored. now left. }
  destruct (free_is_idle s P Et) as (Ea & _ & Etm).
  destruct (fst (decision s newData)) eqn:Hq.
  2:{ eapply Phase_ext; [|exact P]. now apply handleNewData_quiet. }
  unfold decision in Hq. cbn in Hq.
  run_handler. cbn. rewrite Ea, Et, Hq. cbn.
  destruct net as [[[i|] [|]] [st|] [|]]; cbn;
    try (apply phase_latched; red; cbn; now auto);
    try (eapply phase_unarmed; red; cbn; now eauto);
    (eapply phase_pending; red; cbn; rewrite Etm; cbn;
     repeat split; try reflexivity; do 3 eexists; reflexivity).
Qed.

Lemma Phase_handleCancelAccident s :
  Phase s -> Phase (stateOf (handleCancelAccident s)).
Proof.
  intro P. run_handler.
  destruct P as [P|P|a tm P|a P|tm P]; red in P.
  - destruct P as (Ea & Et & Etm). rewrite Ea. apply phase_idle. red. auto.
  - destruct P as (Ea & Et & Etm). rewrite Ea. apply phase_latched. red. auto.
  - destruct P as (Ea & Et & Etm & Er & _). rewrite Ea, Er. cbn.
    eapply phase_cooling. red. cbn. rewrite Etm, withoutTimer_self. cbn.
    repeat split; auto.
  - destruct P as (Ea & Et & Etm). rewrite Ea.
    destruct (accidentTimeoutRef s) as [t|] eqn:Er.
    + cbn. eapply phase_cooling. red. cbn. rewrite Etm. cbn.
      repeat split; auto.
    + eapply phase_unarmed. red. eauto.
  - destruct P as (Ea & Et & Etm & Ecb). rewrite Ea.
    eapply phase_cooling. red. eauto.
Qed.

Lemma Phase_dispatch s e s' : Phase s -> dispatch s e = Some s' -> Phase s'.
Proof.
  intros P E. destruct e as [t newData net|t|t newType|t|net|t type]; cbn in E.
  - apply at_time_Some in E. destruct E as [_ ->].
    now apply Phase_handleNewData, Phase_set_clock.
  - apply at_time_Some in E. destruct E as [_ ->].
    now apply Phase_handleCancelAccident, Phase_set_clock.
  - apply at_time_Some in E. destruct E as [_ ->].
    revert P. apply Phase_ext. reflexivity.
  - apply at_time_Some in E. destruct E as [_ ->].
    revert P. apply Phase_ext. reflexivity.
  - destruct P as [P|P|a tm P|a P|tm P]; red in P.
    + destruct P as (Ea & Et & Etm). rewrite Etm in E. discriminate.
    + destruct P as (Ea & Et & Etm). rewrite Etm in E. discriminate.
    + destruct P as (Ea & Et & Etm & Er & settings & lat & lon & Ecb).
      rewrite Etm in E. cbn [earliest] in E.
      rewrite withoutTimer_self, Ecb in E.
      injection E as <-. run_handler.
      destruct settings as [st|]; [destruct (fetchResolves net)|]; cbn;
        try (eapply phase_cooling; red; cbn; now auto).
      eapply phase_unarmed. red. cbn. eauto.
    + destruct P as (Ea & Et & Etm). rewrite Etm in E. discriminate.
    + destruct P as (Ea & Et & Etm & Ecb).
      rewrite Etm in E. cbn [earliest] in E.
      rewrite withoutTimer_self, Ecb in E.
      injection E as <-. cbn. apply phase_idle. red. cbn. auto.
  - apply at_time_Some in E. destruct E as [_ ->].
    revert P. apply Phase_ext. now destruct type.
Qed.

Lemma Phase_run events : forall s s',
  Phase s -> run events s = Some s' -> Phase s'.
Proof.
  induction events as [|e events IH]; intros s s' P E; cbn in E.
  - now injection E as <-.
  - destruct (dispatch s e) as [s1|] eqn:E1; [|discriminate].
    eapply IH; [|exact E]. eapply Phase_dispatch; eauto.
Qed.

Lemma Phase_initialState t0 saved simulated :
  Phase (initialState t0 saved simulated).
Proof. apply phase_idle. red. cbn. auto. Qed.

(** Every state the component can reach is in one of the five phases. *)
Lemma Phase_reachable t0 saved simulated events s :
  run events (initialState t0 saved simulated) = Some s -> Phase s.
Proof. apply Phase_run, Phase_initialState. Qed.

(* --------------------------------------------------------------------- *)
(** *** The clock *)

Lemma clock_handleCancelAccident s :
  clock (stateOf (handleCancelAccident s)) = clock s.
Proof.
  run_handler.
  destruct (activeAccident s), (accidentTimeoutRef s); reflexivity.
Qed.

Lemma clock_runCallback net cb s :
  clock (stateOf (runCallback net cb s)) = clock s.
Proof.
  destruct cb as [i [st|] lat lon d|]; run_handler;
    try destruct (fetchResolves net); reflexivity.
Qed.

(** The clock never runs backwards; an outside event sets it to its time
    of arrival, a timer to its due time at the earliest. *)
Lemma clock_dispatch s e s' :
  dispatch s e = Some s' ->
  (clock s <= clock s')%Z /\
  match e with
  | SensorRow t _ _ | CancelClick t | VehicleChange t _ | HeartbeatTick t
  | VehicleLoaded t _ =>
      clock s' = t
  | TimerDue _ =>
      exists tm, earliest (timers s) = Some tm /\
                 clock s' = Z.max (clock s) (due tm)
  end.
Proof.
  intro E. destruct e as [t newData net|t|t newType|t|net|t type]; cbn in E.
  - apply at_time_Some in E. destruct E as [Hd ->].
    rewrite clock_handleNewData. cbn.
    split; [now apply deliverable_bounds|reflexivity].
  - apply at_time_Some in E. destruct E as [Hd ->].
    rewrite clock_handleCancelAccident. cbn.
    split; [now apply deliverable_bounds|reflexivity].
  - apply at_time_Some in E. destruct E as [Hd ->]. cbn.
    split; [now apply deliverable_bounds|reflexivity].
  - apply at_time_Some in E. destruct E as [Hd ->]. cbn.
    split; [now apply deliverable_bounds|reflexivity].
  - destruct (earliest (timers s)) as [tm|]; [|discriminate].
    injection E as <-. rewrite clock_runCallback. cbn.
    split; [lia|]. exists tm. auto.
  - apply at_time_Some in E. destruct E as [Hd ->].
    split; [|now destruct type].
    apply deliverable_bounds in Hd. now destruct type.
Qed.

Lemma clock_run events : forall s s',
  run events s = Some s' -> (clock s <= clock s')%Z.
Proof.
  induction events as [|e events IH]; intros s s' E; cbn in E.
  - injection E as <-. lia.
  - destruct (dispatch s e) as [s1|] eqn:E1; [|discriminate].
    apply clock_dispatch in E1. apply IH in E. lia.
Qed.

(* --------------------------------------------------------------------- *)
(** *** Steps that leave the life cycle alone *)

Lemma undisturbed_refl s : undisturbed s s.
Proof. repeat split. Qed.

Lemma undisturbed_trans s1 s2 s3 :
  undisturbed s1 s2 -> undisturbed s2 s3 -> undisturbed s1 s3.
Proof.
  unfold undisturbed. intros (E1 & I1 & A1 & C1) (E2 & I2 & A2 & C2).
  repeat split; congruence.
Qed.

Lemma undisturbed_busy_reading s t newData net s' :
  isTriggered s = true \/ activeAccident s <> None ->
  dispatch s (SensorRow t newData net) = Some s' -> undisturbed s s'.
Proof.
  intros Hbusy E. cbn in E. apply at_time_Some in E. destruct E as [_ ->].
  destruct (handleNewData_ignored (set_clock t s) newData net Hbusy)
    as (Ee & _ & Eo).
  unfold undisturbed. rewrite Ee, Eo. repeat split.
Qed.

Lemma undisturbed_quiet_reading s t newData net s' :
  fst (decision s newData) = false ->
  dispatch s (SensorRow t newData net) = Some s' -> undisturbed s s'.
Proof.
  intros Hq E. cbn in E. apply at_time_Some in E. destruct E as [_ ->].
  destruct (handleNewData_quiet (set_clock t s) newData net Hq) as (Ee & Eo).
  unfold undisturbed. rewrite Ee, Eo. repeat split.
Qed.

Lemma undisturbed_vehicle_change s t newType s' :
  dispatch s (VehicleChange t newType) = Some s' -> undisturbed s s'.
Proof.
  intro E. cbn in E. apply at_time_Some in E. destruct E as [_ ->].
  unfold undisturbed. split; [reflexivity|].
  change (outbox (stateOf (handleVehicleChange newType (set_clock t s))))
    with (outbox s ++ [SaveVehicleType newType]).
  rewrite inserts_app, emergencyAlerts_app, confirmations_app. cbn. lia.
Qed.

Lemma undisturbed_vehicle_loaded s t type s' :
  dispatch s (VehicleLoaded t type) = Some s' -> undisturbed s s'.
Proof.
  intro E. cbn in E. apply at_time_Some in E. destruct E as [_ ->].
  destruct type; repeat split.
Qed.

Lemma undisturbed_heartbeat s t s' :
  dispatch s (HeartbeatTick t) = Some s' -> undisturbed s s'.
Proof.
  intro E. cbn in E. apply at_time_Some in E. destruct E as [_ ->].
  repeat split.
Qed.

Lemma undisturbed_idle_cancel s t s' :
  activeAccident s = None ->
  dispatch s (CancelClick t) = Some s' -> undisturbed s s'.
Proof.
  intros Ea E. cbn in E. apply at_time_Some in E. destruct E as [_ ->].
  unfold undisturbed, escalation. run_handler. cbn. rewrite Ea. cbn.
  repeat split; auto. now rewrite Ea.
Qed.

(** While the latch is set, nothing but a cancellation or a timer changes
    the life cycle. *)
Lemma undisturbed_uncancelled s e s' :
  isTriggered s = true -> uncancelled e = true ->
  dispatch s e = Some s' -> undisturbed s s'.
Proof.
  intros Et Hu E. destruct e as [t newData net|t|t newType|t|net|t type];
    try discriminate.
  - eapply undisturbed_busy_reading; eauto.
  - eapply undisturbed_vehicle_change; eauto.
  - eapply undisturbed_heartbeat; eauto.
  - eapply undisturbed_vehicle_loaded; eauto.
Qed.

Lemma undisturbed_latch s s' :
  undisturbed s s' -> isTriggered s' = isTriggered s.
Proof. unfold undisturbed, escalation. intros (E & _). congruence. Qed.

Lemma undisturbed_run events : forall s s',
  isTriggered s = true -> forallb uncancelled events = true ->
  run events s = Some s' -> undisturbed s s'.
Proof.
  induction events as [|e events IH]; intros s s' Et Hu E; cbn in E, Hu.
  - injection E as <-. apply undisturbed_refl.
  - destruct (dispatch s e) as [s1|] eqn:E1; [|discriminate].
    apply andb_true_iff in Hu. destruct Hu as [Hu1 Hu].
    pose proof (undisturbed_uncancelled s e s1 Et Hu1 E1) as U1.
    eapply undisturbed_trans; [exact U1|].
    apply IH; auto. rewrite (undisturbed_latch _ _ U1). exact Et.
Qed.

(* --------------------------------------------------------------------- *)
(** *** After a failed insert *)

Lemma Latched_ext s s' : escalation s' = escalation s -> Latched s -> Latched s'.
Proof.
  unfold escalation, Latched. intros E P. injection E as -> -> -> _. exact P.
Qed.

Lemma Latched_dispatch s e s' :
  Latched s -> dispatch s e = Some s' -> Latched s' /\ undisturbed s s'.
Proof.
  intros L E.
  assert (U : undisturbed s s').
  { destruct L as (Ea & Et & Etm).
    destruct e as [t newData net|t|t newType|t|net|t type].
    - eapply undisturbed_busy_reading; eauto.
    - eapply undisturbed_idle_cancel; eauto.
    - eapply undisturbed_vehicle_change; eauto.
    - eapply undisturbed_heartbeat; eauto.
    - cbn in E. rewrite Etm in E. discriminate.
    - eapply undisturbed_vehicle_loaded; eauto. }
  split; [|exact U]. destruct U as (Ue & _). eapply Latched_ext; eauto.
Qed.

(** Nothing leads out of [Latched]: no event clears the latch, and no
    timer is left that could. *)
Lemma Latched_run events : forall s s',
  Latched s -> run events s = Some s' -> Latched s' /\ undisturbed s s'.
Proof.
  induction events as [|e events IH]; intros s s' L E; cbn in E.
  - injection E as <-. split; [exact L|apply undisturbed_refl].
  - destruct (dispatch s e) as [s1|] eqn:E1; [|discriminate].
    destruct (Latched_dispatch s e s1 L E1) as [L1 U1].
    destruct (IH _ _ L1 E) as [L2 U2].
    split; [exact L2|]. eapply undisturbed_trans; eauto.
Qed.

(* --------------------------------------------------------------------- *)
(** *** The pending event *)

Lemma Pending_ext s s' a tm :
  escalation s' = escalation s -> Pending s a tm -> Pending s' a tm.
Proof.
  unfold escalation, Pending. intros E P. injection E as -> -> -> ->. exact P.
Qed.

Lemma cancel_pending s a tm t s' :
  Pending s a tm -> dispatch s (CancelClick t) = Some s' ->
  clock s' = t /\
  activeAccident s' = None /\ isTriggered s' = true /\
  accidentTimeoutRef s' = None /\
  timers s' = [{| tid := nextTimerId s; due := (t + 5000)%Z;
                  callback := Rearm |}] /\
  outbox s' = outbox s ++ [UpdateAccidentLog (id a) status_cancelled] /\
  detectionService s' = reset (detectionService s).
Proof.
  intros (Ea & Et & Etm & Er & _) E.
  cbn in E. apply at_time_Some in E. destruct E as [_ ->].
  run_handler. cbn -[withoutTimer]. rewrite Ea, Er.
  cbn -[withoutTimer]. rewrite Etm, withoutTimer_self.
  repeat split; auto.
Qed.

(** An event that is active without a stored timer (the first alert
    request was rejected before [setTimeout] was reached) cannot be
    cancelled: the guard of [handleCancelAccident] fails. *)
Lemma cancel_without_timer s a t s' :
  Unarmed s a -> accidentTimeoutRef s = None ->
  dispatch s (CancelClick t) = Some s' ->
  Unarmed s' a /\ outbox s' = outbox s.
Proof.
  intros (Ea & Et & Etm) Er E.
  cbn in E. apply at_time_Some in E. destruct E as [_ ->].
  run_handler. cbn. rewrite Ea, Er. cbn. repeat split; assumption.
Qed.

Lemma timeout_pending s a tm settings lat lon net s' :
  Pending s a tm ->
  callback tm = Escalate (id a) settings lat lon (activeDanger a) ->
  settings = None \/ fetchResolves net = true ->
  dispatch s (TimerDue net) = Some s' ->
  clock s' = Z.max (clock s) (due tm) /\
  activeAccident s' = None /\ isTriggered s' = true /\
  timers s' = [{| tid := nextTimerId s; due := (clock s' + 5000)%Z;
                  callback := Rearm |}] /\
  outbox s' = outbox s
              ++ alertOf settings lat lon (activeDanger a) (id a)
                   emergency_alert
              ++ match settings with
                 | Some _ => [UpdateAccidentLog (id a) status_confirmed]
                 | None => []
                 end /\
  detectionService s' = detectionService s.
Proof.
  intros (Ea & Et & Etm & Er & _) Ecb Hok E.
  cbn in E. rewrite Etm in E. cbn [earliest] in E.
  rewrite withoutTimer_self, Ecb in E. injection E as <-.
  run_handler. destruct settings as [st|]; cbn.
  - destruct Hok as [Hok|Hok]; [discriminate|]. rewrite Hok. cbn.
    rewrite <- !app_assoc. repeat split; auto.
  - rewrite app_nil_r. repeat split; auto.
Qed.

(** The escalation leaves the detection service alone even when the alert
    request is rejected. *)
Lemma sendEmergencyAlerts_detectionService net i settings lat lon d s :
  detectionService (stateOf (sendEmergencyAlerts net i settings lat lon d s))
  = detectionService s.
Proof.
  run_handler. destruct settings as [st|]; cbn;
    try destruct (fetchResolves net); reflexivity.
Qed.

Lemma TimerDue_detectionService s net s' :
  dispatch s (TimerDue net) = Some s' ->
  detectionService s' = detectionService s.
Proof.
  intro E. cbn in E. destruct (earliest (timers s)) as [tm|]; [|discriminate].
  injection E as <-. destruct (callback tm) as [i settings lat lon d|].
  - cbn [runCallback]. now rewrite sendEmergencyAlerts_detectionService.
  - reflexivity.
Qed.

(* --------------------------------------------------------------------- *)
(** *** The cooldown *)

Lemma Cooling_ext s s' tm :
  escalation s' = escalation s -> Cooling s tm -> Cooling s' tm.
Proof.
  unfold escalation, Cooling. intros E P. injection E as -> -> -> _. exact P.
Qed.

(** Every step that resolves the active event, by cancellation or by
    timeout, schedules the re-arming 5000 ms later and nothing else. *)
Lemma resolution_starts_cooldown s e s1 :
  Phase s -> activeAccident s <> None ->
  dispatch s e = Some s1 -> activeAccident s1 = None ->
  exists tm, Cooling s1 tm /\ due tm = (clock s1 + 5000)%Z.
Proof.
  intros P Ha E Ha1.
  assert (Hkeep : undisturbed s s1 -> False).
  { unfold undisturbed, escalation. intros (Ee & _).
    injection Ee as Ea _ _ _. congruence. }
  destruct e as [t newData net|t|t newType|t|net|t type].
  - exfalso. apply Hkeep. eapply undisturbed_busy_reading; eauto.
  - cbn in E. apply at_time_Some in E. destruct E as [_ ->].
    revert Ha1. run_handler.
    destruct P as [P|P|a tm P|a P|tm P]; red in P;
      try (exfalso; intuition congruence).
    + destruct P as (Ea & Et & Etm & Er & _).
      cbn -[withoutTimer]. rewrite Ea, Er. cbn -[withoutTimer].
      rewrite Etm, withoutTimer_self. intros _.
      eexists. split; [red; cbn; now auto|reflexivity].
    + destruct P as (Ea & Et & Etm).
      cbn -[withoutTimer]. rewrite Ea.
      destruct (accidentTimeoutRef s) as [r|]; cbn -[withoutTimer].
      * rewrite Etm. intros _.
        eexists. split; [red; cbn; now auto|reflexivity].
      * rewrite Ea. discriminate.
  - exfalso. apply Hkeep. eapply undisturbed_vehicle_change; eauto.
  - exfalso. apply Hkeep. eapply undisturbed_heartbeat; eauto.
  - destruct P as [P|P|a tm P|a P|tm P]; red in P;
      try (exfalso; intuition congruence).
    + destruct P as (Ea & Et & Etm & Er & settings & lat & lon & Ecb).
      cbn in E. rewrite Etm in E. cbn [earliest] in E.
      rewrite withoutTimer_self, Ecb in E. injection E as <-.
      revert Ha1. run_handler.
      destruct settings as [st|]; [destruct (fetchResolves net)|]; cbn;
        try (intros _; eexists; split; [red; cbn; now auto|reflexivity]).
      rewrite Ea. discriminate.
    + destruct P as (Ea & Et & Etm).
      cbn in E. rewrite Etm in E. discriminate.
  - exfalso. apply Hkeep. eapply undisturbed_vehicle_loaded; eauto.
Qed.

Lemma Cooling_dispatch s tm e s' :
  Cooling s tm -> dispatch s e = Some s' -> (clock s' < due tm)%Z ->
  Cooling s' tm /\ undisturbed s s'.
Proof.
  intros C E Hc.
  assert (U : undisturbed s s').
  { destruct C as (Ea & Et & Etm & Ecb).
    destruct e as [t newData net|t|t newType|t|net|t type].
    - eapply undisturbed_busy_reading; eauto.
    - eapply undisturbed_idle_cancel; eauto.
    - eapply undisturbed_vehicle_change; eauto.
    - eapply undisturbed_heartbeat; eauto.
    - exfalso. apply clock_dispatch in E.
      destruct E as (_ & tm' & Etm' & Ec).
      rewrite Etm in Etm'. cbn in Etm'. injection Etm' as <-. lia.
    - eapply undisturbed_vehicle_loaded; eauto. }
  split; [|exact U]. destruct U as (Ue & _). eapply Cooling_ext; eauto.
Qed.

(** Until the clock reaches the due time of the re-arming, the latch stays
    set and no accident is created, whatever arrives. *)
Lemma Cooling_run events : forall s s' tm,
  Cooling s tm -> run events s = Some s' -> (clock s' < due tm)%Z ->
  Cooling s' tm /\ undisturbed s s'.
Proof.
  induction events as [|e events IH]; intros s s' tm C E Hc; cbn in E.
  - injection E as <-. split; [exact C|apply undisturbed_refl].
  - destruct (dispatch s e) as [s1|] eqn:E1; [|discriminate].
    pose proof (clock_run _ _ _ E) as Hmono.
    destruct (Cooling_dispatch s tm e s1 C E1) as [C1 U1]; [lia|].
    destruct (IH _ _ _ C1 E Hc) as [C2 U2].
    split; [exact C2|]. eapply undisturbed_trans; eauto.
Qed.

(** When the re-arming timer fires the component is idle again, and the
    clock has reached the due time. *)
Lemma Cooling_rearm s tm net s' :
  Cooling s tm -> dispatch s (TimerDue net) = Some s' ->
  Idle s' /\ (due tm <= clock s')%Z /\ outbox s' = outbox s /\
  detectionService s' = detectionService s.
Proof.
  intros (Ea & Et & Etm & Ecb) E.
  cbn in E. rewrite Etm in E. cbn [earliest] in E.
  rewrite withoutTimer_self, Ecb in E. injection E as <-. cbn.
  repeat split; auto. lia.
Qed.

(** In [Idle] a qualifying reading goes through to the insert. *)
Lemma Idle_trigger s t newData net s' :
  Idle s -> fst (decision s newData) = true ->
  dispatch s (SensorRow t newData net) = Some s' ->
  isTriggered s' = true /\
  exists rest,
    outbox s' = outbox s ++ insertOf newData (snd (decision s newData)) :: rest.
Proof.
  intros (Ea & Et & Etm) Hq E.
  cbn in E. apply at_time_Some in E. destruct E as [_ ->].
  unfold decision in Hq. cbn in Hq.
  run_handler. cbn. rewrite Ea, Et, Hq. cbn.
  destruct net as [[[i|] [|]] [st|] [|]]; cbn;
    rewrite <- ?app_assoc; split; try reflexivity; eexists; reflexivity.
Qed.

(* --------------------------------------------------------------------- *)
(** *** Between two accidents *)

(** With no event active and none being created, the component is idle or
    cooling down. Out of these two phases every step either creates an
    event, and then sends an insert, or stays within them and posts no
    emergency alert. *)
Lemma quiet_dispatch s e s' :
  Idle s \/ (exists tm, Cooling s tm) ->
  dispatch s e = Some s' ->
  (inserts (outbox s) < inserts (outbox s'))%nat \/
  ((Idle s' \/ exists tm, Cooling s' tm) /\
   inserts (outbox s') = inserts (outbox s) /\
   emergencyAlerts (outbox s') = emergencyAlerts (outbox s)).
Proof.
  intros Hq E.
  assert (Hkeep : undisturbed s s' ->
            (Idle s' \/ exists tm, Cooling s' tm) /\
            inserts (outbox s') = inserts (outbox s) /\
            emergencyAlerts (outbox s') = emergencyAlerts (outbox s)).
  { intros (Ee & Ui & Ua & _). split; [|auto].
    destruct Hq as [I|[tm C]]; [left|right; exists tm].
    - unfold escalation in Ee. injection Ee as Ea Et Etm _.
      destruct I as (? & ? & ?). red. rewrite Ea, Et, Etm. auto.
    - eapply Cooling_ext; eauto. }
  assert (Ha : activeAccident s = None).
  { destruct Hq as [I|[tm C]]; [apply I|apply C]. }
  destruct e as [t newData net|t|t newType|t|net|t type].
  - destruct Hq as [I|[tm C]].
    + destruct (fst (decision s newData)) eqn:Hd.
      * left. destruct (Idle_trigger s t newData net s' I Hd E)
          as (_ & rest & ->).
        rewrite inserts_app. unfold inserts at 3. cbn. lia.
      * right. apply Hkeep. eapply undisturbed_quiet_reading; eauto.
    + right. apply Hkeep. eapply undisturbed_busy_reading; eauto.
      left. apply C.
  - right. apply Hkeep. eapply undisturbed_idle_cancel; eauto.
  - right. apply Hkeep. eapply undisturbed_vehicle_change; eauto.
  - right. apply Hkeep. eapply undisturbed_heartbeat; eauto.
  - right. destruct Hq as [I|[tm C]].
    + destruct I as (_ & _ & Etm). cbn in E. rewrite Etm in E. discriminate.
    + destruct (Cooling_rearm s tm net s' C E) as (I' & _ & -> & _). auto.
  - right. apply Hkeep. eapply undisturbed_vehicle_loaded; eauto.
Qed.

(** The request log only grows. *)
Lemma inserts_dispatch s e s' :
  Phase s -> dispatch s e = Some s' ->
  (inserts (outbox s) <= inserts (outbox s'))%nat.
Proof.
  intros P E.
  assert (Hkeep : undisturbed s s' ->
            (inserts (outbox s) <= inserts (outbox s'))%nat).
  { intros (_ & -> & _). lia. }
  destruct e as [t newData net|t|t newType|t|net|t type].
  - destruct (isTriggered s) eqn:Et.
    { apply Hkeep. eapply undisturbed_busy_reading; eauto. }
    destruct (fst (decision s newData)) eqn:Hd.
    + destruct (Idle_trigger s t newData net s' (free_is_idle s P Et) Hd E)
        as (_ & rest & ->).
      rewrite inserts_app. lia.
    + apply Hkeep. eapply undisturbed_quiet_reading; eauto.
  - cbn in E. apply at_time_Some in E. destruct E as [_ ->].
    run_handler. cbn -[withoutTimer inserts].
    destruct (activeAccident s), (accidentTimeoutRef s);
      cbn -[withoutTimer inserts]; rewrite ?inserts_app; lia.
  - apply Hkeep. eapply undisturbed_vehicle_change; eauto.
  - apply Hkeep. eapply undisturbed_heartbeat; eauto.
  - cbn in E. destruct (earliest (timers s)) as [tm|]; [|discriminate].
    injection E as <-. run_handler.
    destruct (callback tm) as [i [st|] lat lon d|];
      try destruct (fetchResolves net);
      cbn -[withoutTimer inserts]; rewrite ?inserts_app; lia.
  - apply Hkeep. eapply undisturbed_vehicle_loaded; eauto.
Qed.

Lemma inserts_run events : forall s s',
  Phase s -> run events s = Some s' ->
  (inserts (outbox s) <= inserts (outbox s'))%nat.
Proof.
  induction events as [|e events IH]; intros s s' P E; cbn in E.
  - injection E as <-. lia.
  - destruct (dispatch s e) as [s1|] eqn:E1; [|discriminate].
    pose proof (inserts_dispatch s e s1 P E1).
    pose proof (IH s1 s' (Phase_dispatch s e s1 P E1) E). lia.
Qed.

(** As long as no further event is created, no emergency alert is posted. *)
Lemma quiet_run events : forall s s',
  Idle s \/ (exists tm, Cooling s tm) ->
  run events s = Some s' ->
  inserts (outbox s') = inserts (outbox s) ->
  emergencyAlerts (outbox s') = emergencyAlerts (outbox s).
Proof.
  induction events as [|e events IH]; intros s s' Hq E Hi; cbn in E.
  - now injection E as <-.
  - destruct (dispatch s e) as [s1|] eqn:E1; [|discriminate].
    assert (P : Phase s).
    { destruct Hq as [I|[tm C]];
        [now apply phase_idle|now apply phase_cooling with tm]. }
    pose proof (inserts_run events s1 s' (Phase_dispatch s e s1 P E1) E).
    destruct (quiet_dispatch s e s1 Hq E1) as [Hmore|(Hq1 & Hi1 & Ha1)];
      [lia|].
    rewrite <- Ha1. apply IH; auto. congruence.
Qed.

(* ===================================================================== *)
(** ** The claims about the life cycle and the pipeline *)
(* ===================================================================== *)

(** Handlers run to completion. When no event is delivered between the
    awaits of a handler, then in every state the component can reach,
    whatever readings, cancellations and timers came before, at most one
    escalation timer is armed, and an armed timer belongs to the one
    active event. While an
    event is active the latch is set, and a reading that arrives then is
    ignored: it creates no event (no request is sent), arms no timer and
    leaves the active event, the timer queue and the latch as they were;
    nothing is stored for later. *)
Lemma single_pending_event_run_to_completion t0 saved simulated events s :
  run events (initialState t0 saved simulated) = Some s ->
  (length (filter isEscalate (timers s)) <= 1)%nat /\
  (forall tm, In tm (timers s) -> isEscalate tm = true ->
     exists a, Pending s a tm) /\
  (forall a, activeAccident s = Some a ->
     isTriggered s = true /\
     forall t newData net s',
       dispatch s (SensorRow t newData net) = Some s' ->
       escalation s' = escalation s /\
       nextTimerId s' = nextTimerId s /\
       outbox s' = outbox s).
Proof.
  intro Hrun. pose proof (Phase_reachable _ _ _ _ _ Hrun) as P.
  split; [|split].
  - destruct P as [P|P|a tm P|a P|tm P]; red in P;
      decompose [and] P; clear P;
      match goal with E : timers s = _ |- _ => rewrite E end; cbn;
      try destruct (isEscalate tm); cbn; lia.
  - intros tm Hin Hesc.
    destruct P as [P|P|a tm' P|a P|tm' P]; pose proof P as P'; red in P;
      decompose [and] P; clear P;
      match goal with E : timers s = _ |- _ => rewrite E in Hin end;
      cbn in Hin; try contradiction;
      destruct Hin as [<-|[]].
    + exists a. exact P'.
    + unfold isEscalate in Hesc.
      match goal with E : callback tm' = Rearm |- _ => rewrite E in Hesc end.
      discriminate.
  - intros a Ea.
    assert (Ha : activeAccident s <> None) by congruence.
    split; [now apply active_is_latched|].
    intros t newData net s' E.
    cbn in E. apply at_time_Some in E. destruct E as [_ ->].
    apply (handleNewData_ignored (set_clock t s)). now right.
Qed.

(** C2. When the insert of a qualifying reading fails (it reports an error
    or returns no record), no event becomes active and no timer is armed.
    The latch, however, was set before the insert was sent and nothing
    clears it: from then on no sequence of events makes the component send
    another insert. Detection does not re-attempt. *)
Theorem C2_failed_insert_latches s t newData net s1 :
  Phase s -> isTriggered s = false ->
  fst (decision s newData) = true ->
  data (insertReply net) = None \/ error (insertReply net) = true ->
  dispatch s (SensorRow t newData net) = Some s1 ->
  (activeAccident s1 = None /\ timers s1 = []) /\
  isTriggered s1 = true /\
  inserts (outbox s1) = S (inserts (outbox s)) /\
  forall later s2,
    run later s1 = Some s2 ->
    isTriggered s2 = true /\ activeAccident s2 = None /\
    inserts (outbox s2) = inserts (outbox s1).
Proof.
  intros P Et Hq Hfail E.
  destruct (free_is_idle s P Et) as (Ea & _ & Etm).
  cbn in E. apply at_time_Some in E. destruct E as [_ ->].
  destruct (handleNewData_insert_failed (set_clock t s) newData net
              Et Ea Hq Hfail) as (Ea1 & Et1 & Etm1 & _ & Eo1).
  change (timers (set_clock t s)) with (timers s) in Etm1.
  change (outbox (set_clock t s)) with (outbox s) in Eo1.
  change (decision (set_clock t s) newData) with (decision s newData) in Eo1.
  rewrite Etm in Etm1.
  assert (L : Latched (stateOf (handleNewData newData net (set_clock t s))))
    by (red; auto).
  split; [auto|]. split; [exact Et1|]. split.
  - rewrite Eo1, inserts_app. cbn. lia.
  - intros later s2 Hlater.
    destruct (Latched_run later _ s2 L Hlater)
      as [(Ea2 & Et2 & _) (_ & Ei & _)].
    auto.
Qed.

(** C3. [handleNewData] decides on the smoothed z axis, the one it stores
    in [sensorData], and sends the danger it decided with the insert. On
    that axis: for a scooter, [z < -0.5] gives [isAccident = true] and
    danger 100, and [|z| < 0.4] gives [isAccident = true] and the larger of
    the base danger and 80; for a car, [|z| < 0.3] gives
    [isAccident = true] and the larger of the base danger and 90. So a
    scooter at [z = -0.6] gets danger 100 and a car at [z = 0.25] gets a
    danger of at least 90, whatever the base result. *)
Theorem C3_vehicle_overrides (result : DetectionResult) (zValue : number) :
  (forall s newData net,
     let s' := stateOf (handleNewData newData net s) in
     let acc := accelerometer (sensorData s') in
     let gyro := gyroscope (sensorData s') in
     z acc = lowPassFilter (SensorDataRow.acc_z newData / 16384)
               (z (prevAccel s)) 0.3 /\
     decision s newData
     = triggerDecision (vehicleType s) (z acc)
         (fst (detectWithHistory
                 (addReading (detectionService s)
                    (x acc) (y acc) (z acc) (x gyro) (y gyro) (z gyro))))) /\
  (forall s t newData net s',
     Idle s -> fst (decision s newData) = true ->
     dispatch s (SensorRow t newData net) = Some s' ->
     exists rest,
       outbox s'
       = outbox s ++ insertOf newData (snd (decision s newData)) :: rest) /\
  (zValue < -0.5 -> triggerDecision scooter zValue result = (true, 100)) /\
  (Qabs zValue < 0.4 ->
     triggerDecision scooter zValue result
     = (true, Math_max (dangerPercentage result) 80)) /\
  (Qabs zValue < 0.3 ->
     triggerDecision car zValue result
     = (true, Math_max (dangerPercentage result) 90)) /\
  (forall a b : number,
     a <= Math_max a b /\ b <= Math_max a b /\
     (Math_max a b = a \/ Math_max a b = b)) /\
  triggerDecision scooter (-0.6) result = (true, 100) /\
  fst (triggerDecision car 0.25 result) = true /\
  90 <= snd (triggerDecision car 0.25 result).
Proof.
  split; [|split; [|split; [|split; [|split; [|split; [|split; [|split]]]]]]].
  - intros s newData net s' acc gyro.
    destruct (handleNewData_telemetry s newData net)
      as (Ep & Es & _ & _ & Eg & _).
    fold s' in Ep, Es, Eg. subst acc gyro. rewrite Eg, Es, Ep. cbn [x y z].
    split; reflexivity.
  - intros s t newData net s' Hidle Hq E.
    now apply (Idle_trigger s t newData net s').
  - apply triggerDecision_upside_down.
  - apply triggerDecision_tipped_over.
  - apply triggerDecision_car_flat.
  - intros a b. split; [apply Math_max_ge_l|split; [apply Math_max_ge_r|]].
    destruct (Math_max_cases a b) as [[_ ->]|[_ ->]]; auto.
  - reflexivity.
  - reflexivity.
  - apply Math_max_ge_r.
Qed.

(* --------------------------------------------------------------------- *)
(** *** From the trigger to the timeout *)

(** A qualifying reading in [Idle] whose insert succeeds, and whose first
    alert (if any) goes through, makes the event pending with a timer due
    30000 ms later. *)
Lemma trigger_pending s t newData net i s1 :
  Idle s -> fst (decision s newData) = true ->
  insertReply net = {| data := Some i; error := false |} ->
  settingsReply net = None \/ fetchResolves net = true ->
  dispatch s (SensorRow t newData net) = Some s1 ->
  let danger := snd (decision s newData) in
  let tm := {| tid := nextTimerId s; due := (t + 30000)%Z;
               callback := Escalate i (settingsReply net)
                             (SensorDataRow.latitude newData)
                             (SensorDataRow.longitude newData) danger |} in
  Pending s1 {| id := i; activeDanger := danger |} tm /\
  clock s1 = t /\
  outbox s1 = outbox s ++ insertOf newData danger :: SelectUserSettings ::
                alertOf (settingsReply net) (SensorDataRow.latitude newData)
                  (SensorDataRow.longitude newData) danger i user_confirmation.
Proof.
  intros (Ea & Et & Etm) Hq Hins Harm E.
  pose proof (clock_dispatch _ _ _ E) as [_ Ec].
  cbn in E. apply at_time_Some in E. destruct E as [_ ->].
  destruct (handleNewData_armed (set_clock t s) newData net i
              Et Ea Hq Hins Harm) as (Ea1 & Et1 & Etm1 & Er1 & _ & Eo1).
  change (timers (set_clock t s)) with (timers s) in Etm1.
  rewrite Etm in Etm1. cbn [app] in Etm1.
  split; [|split; [exact Ec|exact Eo1]].
  red. repeat split; try assumption. do 3 eexists. reflexivity.
Qed.

Lemma uncancelled_run_bound events : forall s s' tm,
  isTriggered s = true -> timers s = [tm] -> (clock s <= due tm)%Z ->
  forallb uncancelled events = true -> run events s = Some s' ->
  (clock s' <= due tm)%Z.
Proof.
  induction events as [|e events IH]; intros s s' tm Et Etm Hc Hu E;
    cbn in E, Hu.
  - now injection E as <-.
  - destruct (dispatch s e) as [s1|] eqn:E1; [|discriminate].
    apply andb_true_iff in Hu. destruct Hu as [Hu1 Hu].
    pose proof (undisturbed_uncancelled s e s1 Et Hu1 E1) as U1.
    assert (Etm1 : timers s1 = [tm]).
    { destruct U1 as (Ee & _). unfold escalation in Ee.
      injection Ee as _ _ Ee _. congruence. }
    apply (IH s1 s' tm); auto.
    + rewrite (undisturbed_latch _ _ U1). exact Et.
    + destruct e as [t newData net|t|t newType|t|net|t type]; try discriminate;
        pose proof (clock_dispatch _ _ _ E1) as [_ ->];
        cbn in E1; apply at_time_Some in E1; destruct E1 as [Hd _];
        apply deliverable_bounds in Hd; destruct Hd as [_ Hd];
        apply Hd; rewrite Etm; now left.
Qed.

Lemma alertOf_counts settings lat lon d i :
  emergencyAlerts (alertOf settings lat lon d i user_confirmation) = O /\
  confirmations (alertOf settings lat lon d i user_confirmation) = O /\
  confirmations (alertOf settings lat lon d i emergency_alert) = O /\
  emergencyAlerts (alertOf settings lat lon d i emergency_alert)
  = match settings with Some _ => 1%nat | None => O end.
Proof. destruct settings; repeat split. Qed.


(** Handlers run to completion. When no event is delivered between the
    awaits of a handler, a cancellation delivered while the escalation
    timer of the active event is armed and stored (and has not fired)
    removes the escalation timer, marks the stored event
    cancelled, clears the active event, resets the detection service and
    posts no alert; the only timer left is the re-arming, due 5000 ms after
    the cancellation, and no emergency alert is posted for as long as no
    further event is created. After any step that resolves the active event, by
    cancellation or by timeout, the latch stays set and no event is created
    for as long as the clock is within 5000 ms of the resolution, whatever
    readings arrive and whatever the detector says about them. *)
Lemma cancel_then_cooldown_run_to_completion :
  (forall s a tm t s',
     Pending s a tm -> dispatch s (CancelClick t) = Some s' ->
     timers s' = [{| tid := nextTimerId s; due := (t + 5000)%Z;
                     callback := Rearm |}] /\
     accidentTimeoutRef s' = None /\
     outbox s' = outbox s ++ [UpdateAccidentLog (id a) status_cancelled] /\
     activeAccident s' = None /\
     detectionService s' = reset (detectionService s) /\
     emergencyAlerts (outbox s') = emergencyAlerts (outbox s) /\
     isTriggered s' = true /\
     forall later s2,
       run later s' = Some s2 ->
       inserts (outbox s2) = inserts (outbox s') ->
       emergencyAlerts (outbox s2) = emergencyAlerts (outbox s)) /\
  (forall s e s1 later s2,
     Phase s -> activeAccident s <> None ->
     dispatch s e = Some s1 -> activeAccident s1 = None ->
     run later s1 = Some s2 -> (clock s2 < clock s1 + 5000)%Z ->
     isTriggered s2 = true /\ activeAccident s2 = None /\
     inserts (outbox s2) = inserts (outbox s1) /\
     emergencyAlerts (outbox s2) = emergencyAlerts (outbox s1)).
Proof.
  split.
  - intros s a tm t s' P E.
    destruct (cancel_pending s a tm t s' P E)
      as (_ & Ea & Et & Er & Etm & Eo & Ed).
    assert (Eal : emergencyAlerts (outbox s') = emergencyAlerts (outbox s)).
    { rewrite Eo, emergencyAlerts_app. cbn. lia. }
    repeat split; auto.
    intros later s2 Elater Hi. rewrite <- Eal.
    apply (quiet_run later s' s2); auto.
    right. eexists. red. eauto.
  - intros s e s1 later s2 P Ha E Ha1 Elater Hc.
    destruct (resolution_starts_cooldown s e s1 P Ha E Ha1) as (tm & C & Edue).
    destruct (Cooling_run later s1 s2 tm C Elater) as [C2 U]; [lia|].
    destruct C2 as (Ea2 & Et2 & _). destruct U as (_ & Ui & Ua & _).
    auto.
Qed.

(** C6. The heartbeat sets [isConnected] to
    [(now - lastPacketTimeRef) < 10000], a strict comparison, and a reading
    stamps [lastPacketTimeRef] with its time of arrival. With the last
    reading at 0 the result is [true] at 9999 and [false] at 10000 and at
    10001. *)
Theorem C6_connection_monitor :
  (forall now last,
     shouldBeConnected now last = true <-> (now - last < 10000)%Z) /\
  (forall s t s',
     dispatch s (HeartbeatTick t) = Some s' ->
     isConnected s' = shouldBeConnected t (lastPacketTimeRef s)) /\
  (forall s t0 newData net s1 t s2,
     dispatch s (SensorRow t0 newData net) = Some s1 ->
     dispatch s1 (HeartbeatTick t) = Some s2 ->
     isConnected s2 = (t - t0 <? 10000)%Z) /\
  shouldBeConnected 9999 0 = true /\
  shouldBeConnected 10000 0 = false /\
  shouldBeConnected 10001 0 = false.
Proof.
  assert (Hbeat : forall s t s',
            dispatch s (HeartbeatTick t) = Some s' ->
            isConnected s' = shouldBeConnected t (lastPacketTimeRef s)).
  { intros s t s' E. cbn in E. apply at_time_Some in E. destruct E as [_ ->].
    cbn. unfold updateConnected.
    destruct (isConnected s), (shouldBeConnected t (lastPacketTimeRef s));
      reflexivity. }
  split; [|split; [exact Hbeat|split; [|repeat split]]].
  - intros now last. unfold shouldBeConnected. cbv zeta. apply Z.ltb_lt.
  - intros s t0 newData net s1 t s2 E1 E2.
    rewrite (Hbeat _ _ _ E2).
    cbn in E1. apply at_time_Some in E1. destruct E1 as [_ ->].
    destruct (handleNewData_telemetry (set_clock t0 s) newData net)
      as (_ & _ & -> & _).
    reflexivity.
Qed.


(** C10. The timeout path leaves the detection service as it was: neither
    [sendEmergencyAlerts] nor any timer touches it, while a cancellation of
    a pending event resets it. So once a pending event has timed out and
    the re-arming timer has fired, the component is idle with the very
    service it had, and the next reading that qualifies is sent to the
    insert at once. *)
Theorem C10_timeout_keeps_history :
  (forall net i settings lat lon d s,
     detectionService (stateOf (sendEmergencyAlerts net i settings lat lon d s))
     = detectionService s) /\
  (forall s net s',
     dispatch s (TimerDue net) = Some s' ->
     detectionService s' = detectionService s) /\
  (forall s a tm t s',
     Pending s a tm -> dispatch s (CancelClick t) = Some s' ->
     detectionService s' = reset (detectionService s)) /\
  (forall s a tm net net' s1 s2,
     Pending s a tm -> fetchResolves net = true ->
     dispatch s (TimerDue net) = Some s1 ->
     dispatch s1 (TimerDue net') = Some s2 ->
     Idle s2 /\ detectionService s2 = detectionService s /\
     forall t newData net'' s3,
       fst (decision s2 newData) = true ->
       dispatch s2 (SensorRow t newData net'') = Some s3 ->
       exists rest,
         outbox s3
         = outbox s2 ++ insertOf newData (snd (decision s2 newData)) :: rest).
Proof.
  split; [exact sendEmergencyAlerts_detectionService|].
  split; [exact TimerDue_detectionService|]. split.
  - intros s a tm t s' P E. now apply (cancel_pending s a tm t s' P E).
  - intros s a tm net net' s1 s2 P Hok E1 E2.
    pose proof P as (_ & _ & _ & _ & settings & lat & lon & Ecb).
    assert (Hok' : settings = None \/ fetchResolves net = true) by now right.
    destruct (timeout_pending s a tm settings lat lon net s1 P Ecb Hok' E1)
      as (_ & Ea1 & Et1 & Etm1 & _ & Ed1).
    assert (C1 : Cooling s1 {| tid := nextTimerId s;
                               due := (clock s1 + 5000)%Z;
                               callback := Rearm |}) by (red; auto).
    destruct (Cooling_rearm s1 _ net' s2 C1 E2) as (I2 & _ & _ & Ed2).
    split; [exact I2|]. split; [congruence|].
    intros t newData net'' s3 Hq E3.
    now apply (Idle_trigger s2 t newData net'' s3 I2 Hq E3).
Qed.

End LifecycleProofs.

(* ===================================================================== *)
(** ** The claims about the orientation estimate *)
(* ===================================================================== *)

Local Open Scope R_scope.


(** C9. On the all-zero accelerometer vector the estimate is the zero
    orientation, pitch 0 and roll 0: [atan2] is defined at the origin and
    the function has a value for every input. *)
Theorem C9_zero_vector_zero_orientation :
  calculateOrientation {| x := 0; y := 0; z := 0 |}
  = {| x := 0; y := 0; z := 0 |} /\
  calculateOrientation (toReal {| x := 0%Q; y := 0%Q; z := 0%Q |})
  = {| x := 0; y := 0; z := 0 |}.
Proof.
  assert (Hzero : calculateOrientation {| x := 0; y := 0; z := 0 |}
                  = {| x := 0; y := 0; z := 0 |}).
  { unfold calculateOrientation. cbn [x y z].
    replace (0 * 0 + 0 * 0) with 0 by ring.
    rewrite sqrt_0, Ropp_0, Math_atan2_origin.
    unfold toDeg. f_equal; ring. }
  split; [exact Hzero|].
  unfold toReal. cbn [x y z]. rewrite RMicromega.Q2R_0. exact Hzero.
Qed.

Local Close Scope R_scope.

(* ===================================================================== *)
(** ** Concrete runs *)
(* ===================================================================== *)

(** The scenarios of the specification, on the scooter of [mounted].
    A fall at 1000 ms is cancelled at 5000 ms: a reading at 9999 ms is
    ignored, and once the re-arming timer has fired (at 10000 ms) the next
    reading starts a second event. *)
Example cancel_scenario :
  option_map
    (fun s => (clock s, inserts (outbox s), emergencyAlerts (outbox s),
               isTriggered s))
    (ride (fall ++ [CancelClick 5000; SensorRow 9999 fallenRow allFine]))
  = Some (9999%Z, 1%nat, 0%nat, true) /\
  option_map
    (fun s => (clock s, inserts (outbox s), emergencyAlerts (outbox s),
               isTriggered s))
    (ride (fall ++ [CancelClick 5000; SensorRow 9999 fallenRow allFine;
                    TimerDue allFine; SensorRow 10000 fallenRow allFine]))
  = Some (10000%Z, 2%nat, 0%nat, true).
Proof. split; vm_compute; reflexivity. Qed.

(** The same fall, not cancelled: the timer fires at 31000 ms and one
    emergency alert is posted. *)
Example timeout_scenario :
  option_map
    (fun s => (clock s, emergencyAlerts (outbox s), confirmations (outbox s),
               activeAccident s, map due (timers s)))
    (ride (fall ++ watching ++ [TimerDue allFine]))
  = Some (31000%Z, 1%nat, 1%nat, None, [36000%Z]).
Proof. vm_compute. reflexivity. Qed.

(** The history of the detection service survives the timeout and is
    emptied by the cancellation. *)
Example history_scenario :
  length (history (detectionService pendingFall)) = 1%nat /\
  length (history (detectionService timedOutFall)) = 1%nat /\
  length (history (detectionService cancelledFall)) = 0%nat.
Proof. repeat split. Qed.

(** The named states are the states of the ride. *)
Lemma ride_states :
  ride fall = Some pendingFall /\
  ride (fall ++ watching) = Some watchedFall /\
  ride (fall ++ watching ++ [TimerDue allFine]) = Some confirmedFall /\
  ride (fall ++ [TimerDue allFine]) = Some timedOutFall /\
  ride (fall ++ [TimerDue allFine; TimerDue allFine]) = Some rearmedFall /\
  ride (fall ++ [CancelClick 5000]) = Some cancelledFall /\
  ride (fall ++ [CancelClick 5000; SensorRow 9999 fallenRow allFine])
  = Some coolingFall /\
  ride (fall ++ [TimerDue allFine; SensorRow 35999 fallenRow allFine])
  = Some coolingTimeout /\
  ride [SensorRow 1000 fallenRow insertFails] = Some latchedFall /\
  ride (SensorRow 1000 fallenRow insertFails :: laterFalls)
  = Some ignoredFalls /\
  ride [SensorRow 0 uprightRow allFine] = Some firstReading.
Proof. repeat split; vm_compute; reflexivity. Qed.

Lemma mounted_Phase : Phase mounted.
Proof. exact (Phase_initialState (H := demoService) 0 scooter _). Qed.

Lemma pendingFall_Pending :
  Pending pendingFall {| id := "acc-1"; activeDanger := 80 |}
    {| tid := 1%nat; due := 31000%Z;
       callback := Escalate "acc-1" (Some contacts) 36.8 10.18 80 |}.
Proof. red. cbn. repeat split. do 3 eexists. reflexivity. Qed.

(* --------------------------------------------------------------------- *)
(** *** The theorems at these runs *)

(** C2 at a concrete input: the insert of the fall at 1000 ms fails; the
    falls at 2000 ms and at 60000 ms, with a working insert, send
    nothing. *)
Lemma C2_witness :
  activeAccident latchedFall = None /\ timers latchedFall = [] /\
  isTriggered latchedFall = true /\
  isTriggered ignoredFalls = true /\
  inserts (outbox ignoredFalls) = inserts (outbox latchedFall).
Proof.
  assert (E1 : dispatch (H := demoService) mounted
                 (SensorRow 1000 fallenRow insertFails) = Some latchedFall)
    by (vm_compute; reflexivity).
  assert (E2 : run (H := demoService) laterFalls latchedFall
               = Some ignoredFalls) by (vm_compute; reflexivity).
  assert (Hq : fst (decision (H := demoService) mounted fallenRow) = true)
    by (vm_compute; reflexivity).
  destruct (C2_failed_insert_latches (H := demoService) mounted 1000%Z
              fallenRow insertFails latchedFall mounted_Phase eq_refl Hq
              (or_introl eq_refl) E1) as ((Ea & Etm) & Et & _ & Hlater).
  destruct (Hlater laterFalls ignoredFalls E2) as (Et2 & _ & Ei2).
  repeat split; assumption.
Defined.

Lemma C3_witness :
  triggerDecision scooter (-0.75) (alarmed scooter []) = (true, 100) /\
  triggerDecision scooter 0.1 (quiet scooter [])
  = (true, Math_max 0 80) /\
  triggerDecision car (-0.2) (alarmed car []) = (true, Math_max 95 90).
Proof.
  split; [|split].
  - destruct (C3_vehicle_overrides (H := demoService)
                (alarmed scooter []) (-0.75)) as (_ & _ & Hup & _).
    apply Hup. reflexivity.
  - destruct (C3_vehicle_overrides (H := demoService)
                (quiet scooter []) 0.1) as (_ & _ & _ & Htip & _).
    apply Htip. reflexivity.
  - destruct (C3_vehicle_overrides (H := demoService)
                (alarmed car []) (-0.2)) as (_ & _ & _ & _ & Hcar & _).
    apply Hcar. reflexivity.
Defined.



Lemma C6_witness :
  isConnected (beatAt 9999) = true /\ isConnected (beatAt 10001) = false.
Proof.
  assert (E0 : dispatch (H := demoService) mounted
                 (SensorRow 0 uprightRow allFine) = Some firstReading)
    by (vm_compute; reflexivity).
  destruct (C6_connection_monitor (H := demoService)) as (_ & _ & Hstamp & _).
  split.
  - refine (Hstamp mounted 0%Z uprightRow allFine firstReading 9999%Z
              (beatAt 9999) E0 _).
    vm_compute. reflexivity.
  - refine (Hstamp mounted 0%Z uprightRow allFine firstReading 10001%Z
              (beatAt 10001) E0 _).
    vm_compute. reflexivity.
Defined.



Lemma C10_witness :
  detectionService rearmedFall = detectionService pendingFall /\
  isTriggered rearmedFall = false.
Proof.
  assert (E1 : dispatch (H := demoService) pendingFall (TimerDue allFine)
               = Some timedOutFall) by (vm_compute; reflexivity).
  assert (E2 : dispatch (H := demoService) timedOutFall (TimerDue allFine)
               = Some rearmedFall) by (vm_compute; reflexivity).
  destruct (C10_timeout_keeps_history (H := demoService))
    as (_ & _ & _ & Hidle).
  destruct (Hidle pendingFall _ _ allFine allFine timedOutFall rearmedFall
              pendingFall_Pending eq_refl E1 E2)
    as ((_ & Et & _) & Ed & _).
  split; assumption.
Defined.

(* ===================================================================== *)
(** ** Further properties of the pipeline *)
(* ===================================================================== *)

(** The filter output lies between the previous value and the sample. *)
Lemma lowPassFilter_between (alpha current previous lo hi : number) :
  0 <= alpha -> alpha <= 1 ->
  lo <= previous -> previous <= hi -> lo <= current -> current <= hi ->
  lo <= lowPassFilter current previous alpha /\
  lowPassFilter current previous alpha <= hi.
Proof.
  intros Ha0 Ha1 Hlp Hph Hlc Hch. unfold lowPassFilter.
  split; Lqa.nra.
Qed.

Lemma lowPassFilter_floor (current previous floor : number) :
  floor <= previous -> floor <= current ->
  floor <= lowPassFilter current previous 0.3.
Proof. intros Hp Hc. unfold lowPassFilter. Lqa.lra. Qed.

(** The override conditions in one place. *)
Lemma triggerDecision_fires (v : VehicleType) (zValue : number)
    (result : DetectionResult) :
  fst (triggerDecision v zValue result) = true <->
  isAccident result = true \/
  match v with
  | scooter => zValue < -0.5 \/ Qabs zValue < 0.4
  | car => Qabs zValue < 0.3
  end.
Proof.
  unfold triggerDecision, Math_abs. destruct v.
  - destruct (Qltb zValue (-0.5)) eqn:Eup; cbn.
    + apply Qltb_lt in Eup. tauto.
    + apply Qltb_ge in Eup.
      destruct (Qltb (Qabs zValue) 0.4) eqn:Etip; cbn.
      * apply Qltb_lt in Etip. tauto.
      * apply Qltb_ge in Etip. split; [tauto|].
        intros [Hacc|[Hup|Htip]]; [exact Hacc|exfalso..].
        -- exact (Qlt_not_le _ _ Hup Eup).
        -- exact (Qlt_not_le _ _ Htip Etip).
  - destruct (Qltb (Qabs zValue) 0.3) eqn:Eflat; cbn.
    + apply Qltb_lt in Eflat. tauto.
    + apply Qltb_ge in Eflat. split; [tauto|].
      intros [Hacc|Hflat]; [exact Hacc|exfalso].
      exact (Qlt_not_le _ _ Hflat Eflat).
Qed.

Lemma Math_max_le (a b c : number) : a <= c -> b <= c -> Math_max a b <= c.
Proof.
  intros Ha Hb. destruct (Math_max_cases a b) as [[_ ->]|[_ ->]]; assumption.
Qed.

(** X1. The overrides only add to the base result: the trigger
    flag is the base flag or an override condition, an accident flagged by
    the detector is never cleared, and a base danger between 0 and 100 is
    never lowered and never pushed beyond 100. *)
Theorem overrides_only_escalate (v : VehicleType) (zValue : number)
    (result : DetectionResult) :
  0 <= dangerPercentage result -> dangerPercentage result <= 100 ->
  (fst (triggerDecision v zValue result) = true <->
   isAccident result = true \/
   match v with
   | scooter => zValue < -0.5 \/ Qabs zValue < 0.4
   | car => Qabs zValue < 0.3
   end) /\
  (isAccident result = true -> fst (triggerDecision v zValue result) = true) /\
  dangerPercentage result <= snd (triggerDecision v zValue result) /\
  snd (triggerDecision v zValue result) <= 100.
Proof.
  intros H0 H100. split; [apply triggerDecision_fires|].
  split; [intro Hacc; apply triggerDecision_fires; now left|].
  unfold triggerDecision, Math_abs. destruct v.
  - destruct (Qltb zValue (-0.5)); cbn; [split; [assumption|apply Qle_refl]|].
    destruct (Qltb (Qabs zValue) 0.4); cbn.
    + split; [apply Math_max_ge_l|apply Math_max_le; [assumption|discriminate]].
    + split; [apply Qle_refl|assumption].
  - destruct (Qltb (Qabs zValue) 0.3); cbn.
    + split; [apply Math_max_ge_l|apply Math_max_le; [assumption|discriminate]].
    + split; [apply Qle_refl|assumption].
Qed.

(** X2. Whatever makes the car override fire makes the scooter
    override fire as well, and the car reports the larger danger. *)
Theorem car_override_within_scooter_override (zValue : number)
    (result : DetectionResult) :
  isAccident result = false ->
  fst (triggerDecision car zValue result) = true ->
  fst (triggerDecision scooter zValue result) = true /\
  snd (triggerDecision scooter zValue result)
  <= snd (triggerDecision car zValue result).
Proof.
  intros Hbase Hcar.
  apply triggerDecision_fires in Hcar.
  destruct Hcar as [Hacc|Hflat]; [congruence|].
  assert (Htip : Qabs zValue < 0.4).
  { eapply Qlt_trans; [exact Hflat|]. reflexivity. }
  rewrite (triggerDecision_tipped_over result zValue Htip).
  rewrite (triggerDecision_car_flat result zValue Hflat). cbn.
  split; [reflexivity|].
  destruct (Math_max_cases (dangerPercentage result) 80) as [[H80 ->]|[H80 ->]].
  - eapply Qle_trans; [|apply Math_max_ge_r]. discriminate.
  - apply Math_max_ge_l.
Qed.

Section MoreOfAppProofs.

Context {D : Type} `{AccidentDetectionService D}.
Implicit Types (s : AppState D) (a : ActiveAccident) (tm : Timer).

Ltac run_handlers :=
  cbv [handleNewData handleAccidentDetected sendEmergencyAlerts
       handleCancelAccident handleVehicleChange loadVehicleType heartbeat
       runCallback fetchHistory
       tryCatch bind ret read modify send fetch setTimeout clearTimeout
       stateOf].

(** Only a reading moves the filter state. *)
Lemma prevAccel_dispatch s e s' :
  dispatch s e = Some s' ->
  prevAccel s'
  = match e with
    | SensorRow _ newData _ =>
        let raw := accelerometer (convertToSensorData newData) in
        {| x := lowPassFilter (x raw) (x (prevAccel s)) 0.3;
           y := lowPassFilter (y raw) (y (prevAccel s)) 0.3;
           z := lowPassFilter (z raw) (z (prevAccel s)) 0.3 |}
    | _ => prevAccel s
    end.
Proof.
  intro E. destruct e as [t newData net|t|t newType|t|net|t type]; cbn in E.
  - apply at_time_Some in E. destruct E as [_ ->].
    now destruct (handleNewData_telemetry (set_clock t s) newData net)
      as (-> & _).
  - apply at_time_Some in E. destruct E as [_ ->]. run_handlers. cbn.
    destruct (activeAccident s), (accidentTimeoutRef s); reflexivity.
  - apply at_time_Some in E. destruct E as [_ ->]. reflexivity.
  - apply at_time_Some in E. destruct E as [_ ->]. reflexivity.
  - destruct (earliest (timers s)) as [tm|]; [|discriminate].
    injection E as <-. run_handlers.
    destruct (callback tm) as [i [st|] lat lon d|];
      try destruct (fetchResolves net); reflexivity.
  - apply at_time_Some in E. destruct E as [_ ->]. now destruct type.
Qed.

(** X3. Along every run, each axis of the smoothed acceleration stays
    within the range of the readings and of the value it started from: the
    filter never overshoots its input. *)
Theorem smoothed_acceleration_stays_in_range (lo hi : number) events :
  forall s s',
    within lo hi (prevAccel s) -> rowsWithin lo hi events ->
    run events s = Some s' ->
    within lo hi (prevAccel s').
Proof.
  induction events as [|e events IH]; intros s s' Hs Hrows E; cbn in E.
  - now injection E as <-.
  - destruct (dispatch s e) as [s1|] eqn:E1; [|discriminate].
    apply (IH s1 s'); [| |exact E].
    + rewrite (prevAccel_dispatch s e s1 E1).
      destruct e as [t newData net|t|t newType|t|net|t type]; try exact Hs.
      pose proof (Hrows t newData net (or_introl eq_refl)) as Hrow.
      destruct Hs as ((? & ?) & (? & ?) & (? & ?)).
      destruct Hrow as ((? & ?) & (? & ?) & (? & ?)).
      cbv zeta. unfold within. cbn [x y z].
      repeat split;
        apply (lowPassFilter_between 0.3 _ _ lo hi);
        try assumption; discriminate.
    + intros t newData net Hin. apply (Hrows t newData net). now right.
Qed.

Lemma Idle_ext s s' : escalation s' = escalation s -> Idle s -> Idle s'.
Proof.
  unfold escalation, Idle. intros E P. injection E as -> -> -> _. exact P.
Qed.

(** With the smoothed z at 0.4 or more, no override fires, for a scooter
    and for a car. *)
Lemma upright_no_override (v : VehicleType) (zValue : number)
    (result : DetectionResult) :
  0.4 <= zValue -> isAccident result = false ->
  fst (triggerDecision v zValue result) = false.
Proof.
  intros Hz Hbase.
  destruct (fst (triggerDecision v zValue result)) eqn:E; [|reflexivity].
  exfalso. apply triggerDecision_fires in E.
  pose proof (Qle_Qabs zValue) as Habs.
  destruct E as [Hacc|Hov]; [congruence|].
  destruct v; [destruct Hov as [Hup|Htip]|]; Lqa.lra.
Qed.

(** X4. With a detector that never flags, a vehicle whose z
    acceleration stays at 0.4 g or more never has an accident created,
    whatever else happens: starting from the mounted component, every
    reachable state is idle and no insert was ever sent. *)
Theorem no_alarm_while_upright t0 saved simulated events s :
  neverFlags -> rowsAtLeast 0.4 events ->
  run events (initialState t0 saved simulated) = Some s ->
  Idle s /\ inserts (outbox s) = 0%nat /\ 0.4 <= z (prevAccel s).
Proof.
  intros Hquiet.
  assert (Hstep : forall events s0 s1,
            rowsAtLeast 0.4 events ->
            Idle s0 /\ inserts (outbox s0) = 0%nat /\ 0.4 <= z (prevAccel s0) ->
            run events s0 = Some s1 ->
            Idle s1 /\ inserts (outbox s1) = 0%nat /\ 0.4 <= z (prevAccel s1)).
  { clear events s. induction events as [|e events IH];
      intros s0 s1 Hrows J E; cbn in E.
    - now injection E as <-.
    - destruct (dispatch s0 e) as [s'|] eqn:E1; [|discriminate].
      apply (IH s' s1); [| |exact E].
      + intros t newData net Hin. apply (Hrows t newData net). now right.
      + destruct J as (I & Hins & Hz).
        assert (U : undisturbed s0 s').
        { destruct e as [t newData net|t|t newType|t|net|t type].
          - eapply undisturbed_quiet_reading; [|exact E1].
            apply upright_no_override; [|apply Hquiet].
            apply lowPassFilter_floor; [exact Hz|].
            apply (Hrows t newData net). now left.
          - eapply undisturbed_idle_cancel; [apply I|exact E1].
          - eapply undisturbed_vehicle_change; eauto.
          - eapply undisturbed_heartbeat; eauto.
          - destruct I as (_ & _ & Etm). cbn in E1. rewrite Etm in E1.
            discriminate.
          - eapply undisturbed_vehicle_loaded; eauto. }
        destruct U as (Ue & Ui & _).
        split; [eapply Idle_ext; eauto|]. split; [congruence|].
        rewrite (prevAccel_dispatch s0 e s' E1).
        destruct e as [t newData net|t|t newType|t|net|t type]; try exact Hz.
        cbv zeta. cbn [z]. apply lowPassFilter_floor; [exact Hz|].
        apply (Hrows t newData net). now left. }
  intros Hrows E.
  apply (Hstep events (initialState t0 saved simulated) s Hrows); [|exact E].
  split; [|split]; [repeat split| reflexivity | cbn; discriminate].
Qed.

(* --------------------------------------------------------------------- *)
(** *** A reading is always taken in *)

(** X5. Whatever the phase of the life cycle and whatever the
    collaborators answer, a reading is taken in in full: the filter state
    moves, the dashboard shows the row with the smoothed acceleration, the
    detection service receives the smoothed reading and is asked for its
    result, the time of the last packet is the time of arrival and the
    indicator is on. *)
Theorem reading_is_always_taken_in s t newData net s' :
  dispatch s (SensorRow t newData net) = Some s' ->
  let raw := convertToSensorData newData in
  let smoothedAccel :=
    {| x := lowPassFilter (x (accelerometer raw)) (x (prevAccel s)) 0.3;
       y := lowPassFilter (y (accelerometer raw)) (y (prevAccel s)) 0.3;
       z := lowPassFilter (z (accelerometer raw)) (z (prevAccel s)) 0.3 |} in
  prevAccel s' = smoothedAccel /\
  sensorData s'
  = {| location := location raw; accelerometer := smoothedAccel;
       gyroscope := gyroscope raw; timestamp := timestamp raw |} /\
  detectionService s'
  = snd (detectWithHistory
           (addReading (detectionService s)
              (x smoothedAccel) (y smoothedAccel) (z smoothedAccel)
              (x (gyroscope raw)) (y (gyroscope raw)) (z (gyroscope raw)))) /\
  lastPacketTimeRef s' = t /\ isConnected s' = true /\
  vehicleType s' = vehicleType s.
Proof.
  intro E. cbn in E. apply at_time_Some in E. destruct E as [_ ->].
  run_handlers. cbn.
  match goal with |- context [if ?c then _ else _] => destruct c end;
    [|repeat split; reflexivity].
  cbn. destruct net as [[[i|] [|]] [st|] [|]]; repeat split; reflexivity.
Qed.

(* --------------------------------------------------------------------- *)
(** *** Cancelling with nothing to cancel *)

Lemma handleCancelAccident_noop s :
  activeAccident s = None \/ accidentTimeoutRef s = None ->
  handleCancelAccident s = Fulfilled tt s.
Proof.
  intros Hnone. run_handlers.
  destruct (activeAccident s) as [a|], (accidentTimeoutRef s) as [r|];
    try reflexivity.
  destruct Hnone; discriminate.
Qed.

(** X6. A cancel click with no event active, or with no timer id
    stored, changes nothing but the clock: no request is sent, the detection
    service is not reset and no cooldown starts. *)
Theorem cancel_without_target_is_noop s t s' :
  activeAccident s = None \/ accidentTimeoutRef s = None ->
  dispatch s (CancelClick t) = Some s' ->
  s' = set_clock t s.
Proof.
  intros Hnone E. cbn in E. apply at_time_Some in E. destruct E as [_ ->].
  now rewrite (handleCancelAccident_noop (set_clock t s)).
Qed.

(* --------------------------------------------------------------------- *)
(** *** When an alert request is rejected *)

(** The first alert is rejected: the event is active, the timer is never
    armed. *)
Lemma handleNewData_rejected s newData net i st :
  isTriggered s = false -> activeAccident s = None ->
  fst (decision s newData) = true ->
  insertReply net = {| data := Some i; error := false |} ->
  settingsReply net = Some st -> fetchResolves net = false ->
  let danger := snd (decision s newData) in
  let s' := stateOf (handleNewData newData net s) in
  activeAccident s' = Some {| id := i; activeDanger := danger |} /\
  isTriggered s' = true /\ timers s' = timers s /\
  accidentTimeoutRef s' = accidentTimeoutRef s /\
  outbox s' = outbox s ++ insertOf newData danger :: SelectUserSettings ::
                alertOf (Some st) (SensorDataRow.latitude newData)
                  (SensorDataRow.longitude newData) danger i user_confirmation.
Proof.
  intros Et Ea Hq Hins Hst Hrej. unfold decision in Hq. cbn in Hq.
  run_handlers. cbn. rewrite Ea, Et, Hq, Hins, Hst, Hrej. cbn.
  rewrite <- !app_assoc. repeat split; reflexivity.
Qed.

Lemma Unarmed_ext s s' a :
  escalation s' = escalation s -> Unarmed s a -> Unarmed s' a.
Proof.
  unfold escalation, Unarmed. intros E P. injection E as -> -> -> _. exact P.
Qed.

(** An active event with no timer armed and no timer id stored stays as it
    is under every event. *)
Lemma trapped_dispatch s a e s' :
  Unarmed s a -> accidentTimeoutRef s = None ->
  dispatch s e = Some s' -> undisturbed s s'.
Proof.
  intros (Ea & Et & Etm) Er E.
  destruct e as [t newData net|t|t newType|t|net|t type].
  - eapply undisturbed_busy_reading; eauto.
  - cbn in E. apply at_time_Some in E. destruct E as [_ ->].
    rewrite (handleCancelAccident_noop (set_clock t s)) by now right.
    repeat split.
  - eapply undisturbed_vehicle_change; eauto.
  - eapply undisturbed_heartbeat; eauto.
  - cbn in E. rewrite Etm in E. discriminate.
  - eapply undisturbed_vehicle_loaded; eauto.
Qed.

Lemma trapped_run events : forall s a s',
  Unarmed s a -> accidentTimeoutRef s = None ->
  run events s = Some s' -> undisturbed s s'.
Proof.
  induction events as [|e events IH]; intros s a s' U Er E; cbn in E.
  - injection E as <-. apply undisturbed_refl.
  - destruct (dispatch s e) as [s1|] eqn:E1; [|discriminate].
    pose proof (trapped_dispatch s a e s1 U Er E1) as U1.
    eapply undisturbed_trans; [exact U1|].
    destruct U1 as (Ee & _).
    apply (IH s1 a s'); [eapply Unarmed_ext; eauto| |exact E].
    unfold escalation in Ee. injection Ee as _ _ _ Er1. congruence.
Qed.


(** The escalation whose alert request is rejected: the request was sent,
    nothing else happened. *)
Lemma timeout_rejected s a tm st lat lon net s' :
  Pending s a tm ->
  callback tm = Escalate (id a) (Some st) lat lon (activeDanger a) ->
  fetchResolves net = false ->
  dispatch s (TimerDue net) = Some s' ->
  Unarmed s' a /\ accidentTimeoutRef s' = Some (tid tm) /\
  outbox s' = outbox s
              ++ alertOf (Some st) lat lon (activeDanger a) (id a)
                   emergency_alert /\
  detectionService s' = detectionService s.
Proof.
  intros (Ea & Et & Etm & Er & _) Ecb Hrej E.
  cbn in E. rewrite Etm in E. cbn [earliest] in E.
  rewrite withoutTimer_self, Ecb in E. injection E as <-.
  run_handlers. rewrite Hrej. cbn. repeat split; assumption.
Qed.


(* --------------------------------------------------------------------- *)
(** *** The connection indicator *)

Lemma set_isConnected_same s :
  isConnected s = true -> set_isConnected true s = s.
Proof. destruct s. cbn. intros ->. reflexivity. Qed.

(** X10. The freshness test of [fetchHistory] has no effect: however
    old the last stored row is, loading it leaves the component exactly as
    a live reading of that row would, marked connected and with the time of
    the last packet set to now. *)
Theorem fetchHistory_ignores_data_age row dataAge net s :
  stateOf (fetchHistory (Some row) dataAge net s)
  = stateOf (handleNewData row net s) /\
  isConnected (stateOf (fetchHistory (Some row) dataAge net s)) = true /\
  lastPacketTimeRef (stateOf (fetchHistory (Some row) dataAge net s))
  = clock s.
Proof.
  assert (Hnever : exists s', handleNewData row net s = Fulfilled tt s').
  { run_handlers. cbn.
    match goal with |- context [if ?c then _ else _] => destruct c end;
      [|eexists; reflexivity].
    cbn. destruct net as [[[i|] [|]] [st|] [|]]; cbn; eexists; reflexivity. }
  destruct Hnever as [s' Es'].
  destruct (handleNewData_telemetry s row net) as (_ & _ & Elast & Econ & _).
  assert (Esame : stateOf (fetchHistory (Some row) dataAge net s)
                  = stateOf (handleNewData row net s)).
  { unfold fetchHistory, bind. rewrite Es' in *. cbn [stateOf] in *.
    destruct (dataAge <? 10000)%Z; [|reflexivity].
    unfold modify. cbn [stateOf]. now apply set_isConnected_same. }
  rewrite Esame. auto.
Qed.

(** What each event does to the connection indicator: a reading sets it
    and stamps the time of the last packet, the heartbeat recomputes it from
    that time, and nothing else touches either. *)
Lemma connection_dispatch s e s' :
  dispatch s e = Some s' ->
  match e with
  | SensorRow t _ _ => isConnected s' = true /\ lastPacketTimeRef s' = t
  | HeartbeatTick t =>
      isConnected s' = (t - lastPacketTimeRef s <? 10000)%Z /\
      lastPacketTimeRef s' = lastPacketTimeRef s
  | _ =>
      isConnected s' = isConnected s /\
      lastPacketTimeRef s' = lastPacketTimeRef s
  end.
Proof.
  intro E. destruct e as [t newData net|t|t newType|t|net|t type].
  - cbn in E. apply at_time_Some in E. destruct E as [_ ->].
    destruct (handleNewData_telemetry (set_clock t s) newData net)
      as (_ & _ & Elast & Econ & _). auto.
  - cbn in E. apply at_time_Some in E. destruct E as [_ ->].
    run_handlers. cbn.
    destruct (activeAccident s), (accidentTimeoutRef s); auto.
  - cbn in E. apply at_time_Some in E. destruct E as [_ ->]. auto.
  - cbn in E. apply at_time_Some in E. destruct E as [_ ->]. cbn.
    unfold updateConnected, shouldBeConnected. cbv zeta.
    destruct (isConnected s), (t - lastPacketTimeRef s <? 10000)%Z; auto.
  - cbn in E. destruct (earliest (timers s)) as [tm|]; [|discriminate].
    injection E as <-. run_handlers.
    destruct (callback tm) as [i [st|] lat lon d|];
      try destruct (fetchResolves net); auto.
  - cbn in E. apply at_time_Some in E. destruct E as [_ ->].
    destruct type; auto.
Qed.

(* --------------------------------------------------------------------- *)
(** *** Time since the last packet *)

Lemma lastPacket_dispatch s e s' :
  (lastPacketTimeRef s <= clock s)%Z -> dispatch s e = Some s' ->
  (lastPacketTimeRef s' <= clock s')%Z.
Proof.
  intros Hle E.
  pose proof (clock_dispatch _ _ _ E) as [Hmono Hc].
  pose proof (connection_dispatch s e s' E) as Hl.
  destruct e as [t newData net|t|t newType|t|net|t type];
    destruct Hl as [_ Hl]; rewrite Hl; lia.
Qed.

Lemma lastPacket_run events : forall s s',
  (lastPacketTimeRef s <= clock s)%Z -> run events s = Some s' ->
  (lastPacketTimeRef s' <= clock s')%Z.
Proof.
  induction events as [|e events IH]; intros s s' Hle E; cbn in E.
  - now injection E as <-.
  - destruct (dispatch s e) as [s1|] eqn:E1; [|discriminate].
    eapply IH; [|exact E]. eapply lastPacket_dispatch; eauto.
Qed.

(** X11. In every state the component can reach, the time of the last
    packet is not ahead of the clock, so the heartbeat never computes a
    negative silence; it reports connected exactly when it ticks less than
    10000 ms after the last packet; and nothing but a heartbeat that finds
    10000 ms of silence or more ever turns the indicator off. *)
Theorem silence_is_never_negative t0 saved simulated events s :
  run events (initialState t0 saved simulated) = Some s ->
  (lastPacketTimeRef s <= clock s)%Z /\
  (forall t s',
     dispatch s (HeartbeatTick t) = Some s' ->
     (0 <= t - lastPacketTimeRef s)%Z /\
     (isConnected s' = true <-> (t < lastPacketTimeRef s + 10000)%Z)) /\
  (forall e s',
     dispatch s e = Some s' ->
     isConnected s = true -> isConnected s' = false ->
     exists t, e = HeartbeatTick t /\
               (lastPacketTimeRef s + 10000 <= t)%Z).
Proof.
  intro E.
  assert (Hle : (lastPacketTimeRef s <= clock s)%Z).
  { apply (lastPacket_run events (initialState t0 saved simulated) s);
      [cbn; lia|exact E]. }
  split; [exact Hle|]. split.
  - intros t s' Eb.
    pose proof (clock_dispatch _ _ _ Eb) as [Hmono Hc]. cbn in Hc.
    destruct (connection_dispatch _ _ _ Eb) as [Econ _].
    split; [lia|]. rewrite Econ, Z.ltb_lt. lia.
  - intros e s' Ed Hon Hoff.
    pose proof (connection_dispatch _ _ _ Ed) as Hc.
    destruct e as [t newData net|t|t newType|t|net|t type];
      destruct Hc as [Hc _]; try congruence.
    exists t. split; [reflexivity|].
    rewrite Hoff in Hc. symmetry in Hc. apply Z.ltb_ge in Hc. lia.
Qed.

End MoreOfAppProofs.


(* ===================================================================== *)
(** ** Further properties of the orientation estimate *)
(* ===================================================================== *)

Local Open Scope R_scope.

Lemma toDeg_PI : toDeg PI = 180.
Proof. unfold toDeg. field. apply PI_neq0. Qed.

Lemma toDeg_half_PI : toDeg (PI / 2) = 90.
Proof. unfold toDeg. field. apply PI_neq0. Qed.

Lemma toDeg_0 : toDeg 0 = 0.
Proof. unfold toDeg. ring. Qed.

Lemma toDeg_opp (r : R) : toDeg (- r) = - toDeg r.
Proof. unfold toDeg. ring. Qed.

Lemma sqrt_of_square (g : R) : 0 < g -> sqrt (0 * 0 + g * g) = g.
Proof.
  intro Hg. replace (0 * 0 + g * g) with (g * g) by ring.
  apply sqrt_square. lra.
Qed.

Lemma Math_atan2_zero_right (a : R) : 0 < a -> Math_atan2 0 a = 0.
Proof.
  intro Ha. unfold Math_atan2. destruct (Rlt_dec 0 a); [|contradiction].
  unfold Rdiv. rewrite Rmult_0_l. apply atan_0.
Qed.

(** X14. The estimate at the cardinal poses, for gravity of any
    strength [g > 0]: level gives pitch 0 and roll 0, upside down gives
    pitch 180 and roll 0, nose up gives pitch 90, and lying on either side
    gives roll -90 or 90 with pitch 0. *)
Theorem orientation_at_cardinal_poses (g : R) :
  0 < g ->
  calculateOrientation {| x := 0; y := 0; z := g |}
  = {| x := 0; y := 0; z := 0 |} /\
  calculateOrientation {| x := 0; y := 0; z := - g |}
  = {| x := 180; y := 0; z := 0 |} /\
  calculateOrientation {| x := 0; y := g; z := 0 |}
  = {| x := 90; y := 0; z := 0 |} /\
  calculateOrientation {| x := g; y := 0; z := 0 |}
  = {| x := 0; y := 0; z := -90 |} /\
  calculateOrientation {| x := - g; y := 0; z := 0 |}
  = {| x := 0; y := 0; z := 90 |}.
Proof.
  intro Hg. unfold calculateOrientation. cbn [x y z].
  rewrite Ropp_0, Ropp_involutive.
  replace (0 * 0 + - g * - g) with (0 * 0 + g * g) by ring.
  replace (g * g + 0 * 0) with (0 * 0 + g * g) by ring.
  rewrite (sqrt_of_square g Hg).
  replace (0 * 0 + 0 * 0) with 0 by ring. rewrite sqrt_0.
  rewrite (Math_atan2_zero_right g Hg), Math_atan2_origin, toDeg_0.
  assert (Hdown : Math_atan2 0 (- g) = PI).
  { unfold Math_atan2.
    destruct (Rlt_dec 0 (- g)); [lra|]. destruct (Rlt_dec (- g) 0); [|lra].
    destruct (Rle_dec 0 0); [|lra].
    unfold Rdiv. rewrite Rmult_0_l, atan_0. ring. }
  assert (Hup : Math_atan2 g 0 = PI / 2).
  { unfold Math_atan2.
    destruct (Rlt_dec 0 0); [lra|]. destruct (Rlt_dec 0 g); [reflexivity|lra]. }
  assert (Hleft : Math_atan2 (- g) 0 = - (PI / 2)).
  { unfold Math_atan2.
    destruct (Rlt_dec 0 0); [lra|]. destruct (Rlt_dec 0 (- g)); [lra|].
    destruct (Rlt_dec (- g) 0); [reflexivity|lra]. }
  rewrite Hdown, Hup, Hleft, toDeg_opp, toDeg_PI, toDeg_half_PI.
  repeat split.
Qed.

Lemma Math_atan2_opp_right (b a : R) :
  0 <= a -> Math_atan2 (- b) a = - Math_atan2 b a.
Proof.
  intro Ha. unfold Math_atan2.
  destruct (Rlt_dec 0 a) as [Hpos|Hpos].
  - replace (- b / a) with (- (b / a)) by (field; lra). apply atan_opp.
  - destruct (Rlt_dec a 0); [lra|].
    destruct (Rlt_dec 0 b), (Rlt_dec 0 (- b)), (Rlt_dec b 0),
      (Rlt_dec (- b) 0); lra.
Qed.

Lemma Math_atan2_opp_front (b a : R) :
  0 < a \/ b <> 0 -> Math_atan2 (- b) a = - Math_atan2 b a.
Proof.
  intros Hside.
  destruct (Rle_dec 0 a) as [Ha|Ha]; [now apply Math_atan2_opp_right|].
  unfold Math_atan2.
  destruct (Rlt_dec 0 a); [lra|]. destruct (Rlt_dec a 0); [|lra].
  replace (- b / a) with (- (b / a)) by (field; lra). rewrite atan_opp.
  destruct (Rle_dec 0 b), (Rle_dec 0 (- b)); lra.
Qed.

(** X15. Mirroring the vehicle left to right (negating x) negates the
    roll and keeps the pitch. Mirroring it front to back (negating y)
    negates the pitch and keeps the roll, except on the seam of [atan2]
    (y = 0 with z not positive), where the pitch stays at 180 or 0. *)
Theorem orientation_mirror_symmetry (acc : Vec3 R) :
  (let mirrored := {| x := - x acc; y := y acc; z := z acc |} in
   x (calculateOrientation mirrored) = x (calculateOrientation acc) /\
   z (calculateOrientation mirrored) = - z (calculateOrientation acc)) /\
  (0 < z acc \/ y acc <> 0 ->
   let mirrored := {| x := x acc; y := - y acc; z := z acc |} in
   x (calculateOrientation mirrored) = - x (calculateOrientation acc) /\
   z (calculateOrientation mirrored) = z (calculateOrientation acc)).
Proof.
  split.
  - cbv zeta. unfold calculateOrientation. cbn [x y z].
    split; [reflexivity|].
    rewrite Math_atan2_opp_right by apply sqrt_pos. apply toDeg_opp.
  - intro Hside. cbv zeta. unfold calculateOrientation. cbn [x y z].
    replace (- y acc * - y acc) with (y acc * y acc) by ring.
    split; [|reflexivity].
    rewrite Math_atan2_opp_front by exact Hside. apply toDeg_opp.
Qed.

Local Close Scope R_scope.


(* --------------------------------------------------------------------- *)
(** *** Materials *)

Local Open Scope string_scope.

Lemma toLowerCase_app (s1 s2 : string) :
  toLowerCase (s1 ++ s2) = toLowerCase s1 ++ toLowerCase s2.
Proof.
  induction s1 as [|c s1 IH]; [reflexivity|]. cbn. now rewrite IH.
Qed.

Lemma prefix_app (needle rest : string) :
  String.prefix needle (needle ++ rest) = true.
Proof.
  induction needle as [|c needle IH]; [now destruct rest|]. cbn.
  destruct (ascii_dec c c); [exact IH|contradiction].
Qed.

Lemma includes_prefix (needle s : string) :
  String.prefix needle s = true -> includes needle s = true.
Proof. intro Hp. destruct s; cbn [includes]; now rewrite Hp. Qed.

Lemma includes_app (needle before after : string) :
  includes needle (before ++ needle ++ after) = true.
Proof.
  induction before as [|c before IH].
  - cbn [append]. apply includes_prefix, prefix_app.
  - cbn [append includes]. rewrite IH. apply orb_true_r.
Qed.

(** A material dressed as glass is glass by its opacity; one dressed as
    solid is told apart by its name alone. *)
Lemma isGlass_after (material : Material) (sd : Side) :
  isGlass {| name := name material; opacity := 0.3; transparent := true;
             depthWrite := false; roughness := 0; metalness := 0.8;
             side := sd |} = true /\
  (isGlass material = false ->
   isGlass {| name := name material; opacity := 1; transparent := false;
              depthWrite := true; roughness := 0.6; metalness := 0.1;
              side := sd |} = false).
Proof.
  unfold isGlass. cbn [name opacity]. split.
  - rewrite !orb_true_iff. right. reflexivity.
  - intro Hsolid. apply orb_false_iff in Hsolid. destruct Hsolid as [Hn _].
    rewrite Hn. reflexivity.
Qed.

(** X18. The material effect is stable under repetition, in both
    view components: running it again on a material it has already dressed
    changes nothing, so it does not matter how often the effect runs or how
    many meshes share a material. The glass test gives the same answer
    afterwards and the name is kept, in both components. [VehicleModel]
    always ends with the front side and [Model] keeps the side; on every
    other field (opacity, transparency, depth write, roughness, metalness)
    the two components write the same value. *)
Theorem material_effect_is_idempotent (material : Material) :
  fixMaterial_Model (fixMaterial_Model material)
  = fixMaterial_Model material /\
  fixMaterial_VehicleModel (fixMaterial_VehicleModel material)
  = fixMaterial_VehicleModel material /\
  isGlass (fixMaterial_Model material) = isGlass material /\
  isGlass (fixMaterial_VehicleModel material) = isGlass material /\
  name (fixMaterial_Model material) = name material /\
  name (fixMaterial_VehicleModel material) = name material /\
  side (fixMaterial_Model material) = side material /\
  side (fixMaterial_VehicleModel material) = FrontSide /\
  opacity (fixMaterial_VehicleModel material)
  = opacity (fixMaterial_Model material) /\
  transparent (fixMaterial_VehicleModel material)
  = transparent (fixMaterial_Model material) /\
  depthWrite (fixMaterial_VehicleModel material)
  = depthWrite (fixMaterial_Model material) /\
  roughness (fixMaterial_VehicleModel material)
  = roughness (fixMaterial_Model material) /\
  metalness (fixMaterial_VehicleModel material)
  = metalness (fixMaterial_Model material).
Proof.
  destruct (isGlass_after material (side material)) as [Hg1 Hs1].
  destruct (isGlass_after material FrontSide) as [Hg2 Hs2].
  unfold fixMaterial_Model, fixMaterial_VehicleModel.
  destruct (isGlass material) eqn:E.
  - rewrite Hg1, Hg2.
    cbn [name side opacity transparent depthWrite roughness metalness].
    repeat split; assumption.
  - rewrite (Hs1 eq_refl), (Hs2 eq_refl).
    cbn [name side opacity transparent depthWrite roughness metalness].
    repeat split; auto.
Qed.

(** X19. The glass test reads the name without regard to case and
    anywhere in it: a material whose name contains a spelling of "window"
    or of "glass" is dressed as glass whatever its opacity, and so is any
    material with an opacity below 0.5 whatever its name. *)
Theorem glass_is_found_by_name_or_opacity (material : Material) :
  (forall before word after,
     toLowerCase word = "window" \/ toLowerCase word = "glass" ->
     name material = before ++ word ++ after ->
     isGlass material = true) /\
  (opacity material < 0.5 -> isGlass material = true) /\
  (isGlass material = true ->
   opacity (fixMaterial_Model material) == 0.3 /\
   transparent (fixMaterial_Model material) = true /\
   depthWrite (fixMaterial_Model material) = false) /\
  (isGlass material = false ->
   opacity (fixMaterial_Model material) == 1 /\
   transparent (fixMaterial_Model material) = false /\
   depthWrite (fixMaterial_Model material) = true).
Proof.
  split; [|split; [|split]].
  - intros before word after Hword Hname. unfold isGlass.
    rewrite Hname, !toLowerCase_app.
    destruct Hword as [-> | ->]; rewrite includes_app;
      [reflexivity|].
    rewrite orb_true_r. reflexivity.
  - intro Hop. unfold isGlass. apply Qltb_lt in Hop. rewrite Hop.
    apply orb_true_r.
  - intros E. unfold fixMaterial_Model. rewrite E. cbn.
    repeat split; reflexivity.
  - intros E. unfold fixMaterial_Model. rewrite E. cbn.
    repeat split; reflexivity.
Qed.

Local Close Scope string_scope.

(* --------------------------------------------------------------------- *)
(** *** The vehicle type as a string *)

Local Open Scope string_scope.

(** X20. The stored vehicle type is taken as it is; only a
    missing or empty entry becomes "scooter". The overrides and the display
    agree for "scooter" and for "car" and for nothing else: any other
    stored type gets the overrides of a car and is shown as a scooter. *)
Theorem stored_vehicle_type_is_not_checked (vehicleType : string) :
  initialVehicleType None = "scooter" /\
  initialVehicleType (Some EmptyString) = "scooter" /\
  (vehicleType <> EmptyString ->
   initialVehicleType (Some vehicleType) = vehicleType) /\
  (overridesFor vehicleType = shownAs vehicleType <->
   vehicleType = "scooter" \/ vehicleType = "car") /\
  (vehicleType <> "scooter" -> vehicleType <> "car" ->
   overridesFor vehicleType = car /\ shownAs vehicleType = scooter /\
   modelPath vehicleType = "/scooter1.glb").
Proof.
  split; [reflexivity|]. split; [reflexivity|]. split.
  { intro Hne. destruct vehicleType; [contradiction|reflexivity]. }
  unfold modelPath, overridesFor, shownAs.
  destruct (String.eqb_spec vehicleType "scooter") as [->|Hs].
  { split; [split; [now left|reflexivity]|]. intros Hs; contradiction. }
  destruct (String.eqb_spec vehicleType "car") as [->|Hc].
  { split; [split; [now right|reflexivity]|]. intros _ Hc; contradiction. }
  split; [|auto].
  split; [discriminate|]. intros [E|E]; contradiction.
Qed.

Local Close Scope string_scope.


(* ===================================================================== *)
(** ** The further properties at concrete inputs *)
(* ===================================================================== *)

Ltac rows_of_trace Hin :=
  cbn [In app fall watching calmRide] in Hin;
  repeat (destruct Hin as [Hin|Hin];
          [try discriminate Hin; injection Hin as _ <- _|]);
  [..|contradiction].

Lemma overrides_only_escalate_witness :
  95 <= snd (triggerDecision scooter 0.1 (alarmed scooter [])) /\
  snd (triggerDecision scooter 0.1 (alarmed scooter [])) <= 100.
Proof.
  assert (H0 : 0 <= dangerPercentage (alarmed scooter []))
    by (vm_compute; discriminate).
  assert (H1 : dangerPercentage (alarmed scooter []) <= 100)
    by (vm_compute; discriminate).
  destruct (overrides_only_escalate scooter 0.1 (alarmed scooter []) H0 H1)
    as (_ & _ & Hlo & Hhi).
  split; assumption.
Defined.

Lemma car_override_within_scooter_override_witness :
  fst (triggerDecision scooter 0.2 (quiet car [])) = true /\
  snd (triggerDecision scooter 0.2 (quiet car []))
  <= snd (triggerDecision car 0.2 (quiet car [])).
Proof.
  apply (car_override_within_scooter_override 0.2 (quiet car []));
    reflexivity.
Defined.

Lemma smoothed_acceleration_stays_in_range_witness :
  within (-2) 1 (prevAccel watchedFall).
Proof.
  assert (E : run (H := demoService) (fall ++ watching) mounted
              = Some watchedFall) by (vm_compute; reflexivity).
  assert (H0 : within (-2) 1 (prevAccel mounted))
    by (repeat split; vm_compute; discriminate).
  assert (H1 : rowsWithin (-2) 1 (fall ++ watching)).
  { intros t newData net Hin. rows_of_trace Hin;
      repeat split; vm_compute; discriminate. }
  exact (smoothed_acceleration_stays_in_range (H := demoService) (-2) 1
           (fall ++ watching) mounted watchedFall H0 H1 E).
Defined.

Lemma no_alarm_while_upright_witness :
  Idle calmState /\ inserts (outbox calmState) = 0%nat /\
  0.4 <= z (prevAccel calmState).
Proof.
  assert (E : run (H := demoService) calmRide
                (initialState (H := demoService) 0%Z scooter
                   (convertToSensorData uprightRow))
              = Some calmState) by (vm_compute; reflexivity).
  assert (H0 : neverFlags (H := demoService)) by (intro d; reflexivity).
  assert (H1 : rowsAtLeast 0.4 calmRide).
  { intros t newData net Hin. rows_of_trace Hin; vm_compute; discriminate. }
  exact (no_alarm_while_upright (H := demoService) 0%Z scooter
           (convertToSensorData uprightRow) calmRide calmState H0 H1 E).
Defined.

Lemma reading_is_always_taken_in_witness :
  lastPacketTimeRef secondReading = 20000%Z /\
  isConnected secondReading = true /\
  vehicleType secondReading = vehicleType pendingFall.
Proof.
  assert (E : dispatch (H := demoService) pendingFall
                (SensorRow 20000 fallenRow allFine) = Some secondReading)
    by (vm_compute; reflexivity).
  destruct (reading_is_always_taken_in (H := demoService) pendingFall
              20000%Z fallenRow allFine secondReading E)
    as (_ & _ & _ & Hl & Hc & Hv).
  repeat split; assumption.
Defined.

Lemma cancel_without_target_is_noop_witness :
  idleClick = set_clock 500%Z mounted.
Proof.
  assert (E : dispatch (H := demoService) mounted (CancelClick 500)
              = Some idleClick) by (vm_compute; reflexivity).
  exact (cancel_without_target_is_noop (H := demoService) mounted 500%Z
           idleClick (or_introl eq_refl) E).
Defined.



Lemma silence_is_never_negative_witness :
  (lastPacketTimeRef firstReading <= clock firstReading)%Z /\
  (0 <= 9999 - lastPacketTimeRef firstReading)%Z /\
  isConnected (beatAt 9999) = true.
Proof.
  assert (E : run (H := demoService) [SensorRow 0 uprightRow allFine]
                (initialState (H := demoService) 0%Z scooter
                   (convertToSensorData uprightRow))
              = Some firstReading) by (vm_compute; reflexivity).
  assert (Eb : dispatch (H := demoService) firstReading (HeartbeatTick 9999)
               = Some (beatAt 9999)) by (vm_compute; reflexivity).
  destruct (silence_is_never_negative (H := demoService) 0%Z scooter
              (convertToSensorData uprightRow)
              [SensorRow 0 uprightRow allFine] firstReading E)
    as (Hle & Hbeat & _).
  destruct (Hbeat 9999%Z (beatAt 9999) Eb) as [Hpos Hcon].
  split; [exact Hle|]. split; [exact Hpos|].
  apply Hcon. vm_compute. reflexivity.
Defined.

Local Open Scope R_scope.

Lemma orientation_at_cardinal_poses_witness :
  calculateOrientation {| x := 0; y := 0; z := 1 |}
  = {| x := 0; y := 0; z := 0 |} /\
  calculateOrientation {| x := 0; y := 0; z := - 1 |}
  = {| x := 180; y := 0; z := 0 |}.
Proof.
  destruct (orientation_at_cardinal_poses 1 Rlt_0_1) as (Hlevel & Hdown & _).
  split; assumption.
Defined.

Lemma orientation_mirror_symmetry_witness :
  x (calculateOrientation {| x := 1; y := - 2; z := 3 |})
  = - x (calculateOrientation {| x := 1; y := 2; z := 3 |}).
Proof.
  destruct (orientation_mirror_symmetry {| x := 1; y := 2; z := 3 |})
    as [_ Hy].
  assert (Hz : 0 < z {| x := 1; y := 2; z := 3 |}) by (cbn; lra).
  destruct (Hy (or_introl Hz)) as [Hx _].
  exact Hx.
Defined.

Local Close Scope R_scope.

Lemma glass_is_found_by_name_or_opacity_witness :
  isGlass windowMaterial = true /\ isGlass tintedMaterial = true.
Proof.
  split.
  - destruct (glass_is_found_by_name_or_opacity windowMaterial)
      as (Hname & _).
    apply (Hname "Car_"%string "WINDOW"%string "_left"%string);
      [left; reflexivity|reflexivity].
  - destruct (glass_is_found_by_name_or_opacity tintedMaterial)
      as (_ & Hop & _).
    apply Hop. vm_compute. reflexivity.
Defined.

Lemma stored_vehicle_type_is_not_checked_witness :
  initialVehicleType (Some "truck"%string) = "truck"%string /\
  overridesFor "truck" = car /\ shownAs "truck" = scooter.
Proof.
  destruct (stored_vehicle_type_is_not_checked "truck")
    as (_ & _ & Hkept & _ & Hother).
  split; [apply Hkept; discriminate|].
  destruct Hother as (Ho & Hs & _); [discriminate|discriminate|].
  split; assumption.
Defined.

(* ===================================================================== *)
(** ** The handlers with their awaits: properties *)
(* ===================================================================== *)

Section AwaitsProofs.

Context {D : Type} `{AccidentDetectionService D}.
Implicit Types (s : AppState D) (l : Awaits.Loop (D := D)).

Ltac run_segment :=
  cbv [Awaits.handleNewData Awaits.handleAccidentDetected
       Awaits.sendEmergencyAlerts Awaits.handleCancelAccident Awaits.resume
       Awaits.runCallback Awaits.finish
       handleVehicleChange loadVehicleType heartbeat
       bind ret read modify send setTimeout clearTimeout].

Lemma turn_Some t (h : Async (option Awaits.Awaiting)) s others l :
  Awaits.turn t h s others = Some l ->
  (clock s <= t)%Z /\
  l = match h (set_clock t s) with
      | Fulfilled (Some w) s' =>
          {| Awaits.app := s'; Awaits.awaited := others ++ [w] |}
      | Fulfilled None s' => {| Awaits.app := s'; Awaits.awaited := others |}
      | Rejected _ s' => {| Awaits.app := s'; Awaits.awaited := others |}
      end.
Proof.
  unfold Awaits.turn. destruct (clock s <=? t)%Z eqn:E; [|discriminate].
  intro E'. injection E' as <-. split; [now apply Z.leb_le|reflexivity].
Qed.

(** The synchronous part of a reading is the reading of the first model
    with an insert that returns nothing. *)
Lemma handleNewData_first_segment newData net s :
  data (insertReply net) = None ->
  match Awaits.handleNewData newData s with
  | Fulfilled _ s' => s' = stateOf (handleNewData newData net s)
  | Rejected _ _ => False
  end.
Proof.
  intro Hnone. run_segment.
  cbv [handleNewData handleAccidentDetected tryCatch bind ret read modify
       send stateOf].
  cbn.
  match goal with |- context [if ?c then _ else _] => destruct c end;
    [|reflexivity].
  cbn. rewrite Hnone. reflexivity.
Qed.


Tactic Notation "next_event" hyp(E) ident(E') :=
  cbn [Awaits.run] in E;
  match type of E with
  | match Awaits.dispatch ?l ?e with _ => _ end = Some _ =>
      let l' := fresh "l" in
      destruct (Awaits.dispatch l e) as [l'|] eqn:E'; [|discriminate E];
      cbn [Awaits.dispatch Awaits.app Awaits.awaited nth_error] in E'
  end.

Ltac flat :=
  cbv [set_vehicleType set_sensorData set_isConnected set_activeAccident
       set_lastPacketTimeRef set_detectionService set_accidentTimeoutRef
       set_prevAccel set_isTriggered set_clock set_timers set_nextTimerId
       set_outbox
       vehicleType sensorData isConnected activeAccident lastPacketTimeRef
       detectionService accidentTimeoutRef prevAccel isTriggered clock timers
       nextTimerId outbox Awaits.app Awaits.awaited].

Ltac flat_in Hc :=
  cbv [set_vehicleType set_sensorData set_isConnected set_activeAccident
       set_lastPacketTimeRef set_detectionService set_accidentTimeoutRef
       set_prevAccel set_isTriggered set_clock set_timers set_nextTimerId
       set_outbox
       vehicleType sensorData isConnected activeAccident lastPacketTimeRef
       detectionService accidentTimeoutRef prevAccel isTriggered clock timers
       nextTimerId outbox Awaits.app Awaits.awaited] in Hc.

Tactic Notation "segment" hyp(E) ident(Hc) :=
  apply turn_Some in E; destruct E as [Hc E]; flat_in Hc;
  revert E; run_segment; flat.

(** The handlers of the first model are the handlers with their awaits,
    every await settled at once with the answers of [net]. *)
Lemma handlers_run_to_completion net s :
  (forall newData,
     stateOf (handleNewData newData net s)
     = match Awaits.handleNewData newData s with
       | Fulfilled w s' => Awaits.settle net w s'
       | Rejected _ s' => s'
       end) /\
  stateOf (handleCancelAccident s)
  = match Awaits.handleCancelAccident s with
    | Fulfilled w s' => Awaits.settle net w s'
    | Rejected _ s' => s'
    end /\
  (forall cb,
     stateOf (runCallback net cb s)
     = match Awaits.runCallback cb s with
       | Fulfilled w s' => Awaits.settle net w s'
       | Rejected _ s' => s'
       end).
Proof.
  split; [|split].
  - intro newData. unfold Awaits.settle. run_segment.
    cbv [handleNewData handleAccidentDetected tryCatch fetch bind ret read
         modify send setTimeout stateOf].
    cbn.
    match goal with |- context [if ?c then _ else _] => destruct c end;
      [|reflexivity].
    cbn. destruct net as [[[i|] [|]] [st|] [|]]; reflexivity.
  - unfold Awaits.settle. run_segment.
    cbv [handleCancelAccident bind ret read modify send setTimeout
         clearTimeout stateOf].
    destruct (activeAccident s), (accidentTimeoutRef s); reflexivity.
  - intros [i settings lat lon d|]; unfold Awaits.settle; run_segment;
      cbv [runCallback sendEmergencyAlerts fetch bind ret read modify send
           setTimeout stateOf]; [|reflexivity].
    destruct settings as [st|]; [|reflexivity].
    cbn. destruct (fetchResolves net); reflexivity.
Qed.


(* --------------------------------------------------------------------- *)
(** *** A cancel click before the escalation timer is armed *)

Ltac open_loop l :=
  let v := fresh "v" in let sd := fresh "sd" in let ic := fresh "ic" in
  let aa := fresh "aa" in let lp := fresh "lp" in let ds := fresh "ds" in
  let ar := fresh "ar" in let pa := fresh "pa" in let it := fresh "it" in
  let ck := fresh "ck" in let tms := fresh "tms" in let nt := fresh "nt" in
  let ob := fresh "ob" in let aw := fresh "aw" in
  destruct l as [[v sd ic aa lp ds ar pa it ck tms nt ob] aw];
  cbn [Awaits.app Awaits.awaited vehicleType sensorData isConnected
       activeAccident lastPacketTimeRef detectionService accidentTimeoutRef
       prevAccel isTriggered clock timers nextTimerId outbox] in *.

(** A reading that qualifies, with no event active and the latch clear,
    sets the latch and sends the insert; the call waits for the answer. *)
Lemma reading_sends_insert l t newData l' :
  activeAccident (Awaits.app l) = None ->
  isTriggered (Awaits.app l) = false ->
  fst (decision (Awaits.app l) newData) = true ->
  Awaits.dispatch l (Awaits.SensorRow t newData) = Some l' ->
  let danger := snd (decision (Awaits.app l) newData) in
  (clock (Awaits.app l) <= t)%Z /\ clock (Awaits.app l') = t /\
  activeAccident (Awaits.app l') = None /\
  isTriggered (Awaits.app l') = true /\
  timers (Awaits.app l') = timers (Awaits.app l) /\
  accidentTimeoutRef (Awaits.app l') = accidentTimeoutRef (Awaits.app l) /\
  nextTimerId (Awaits.app l') = nextTimerId (Awaits.app l) /\
  outbox (Awaits.app l')
  = outbox (Awaits.app l) ++ [insertOf newData danger] /\
  Awaits.awaited l'
  = Awaits.awaited l ++
    [Awaits.InsertingLog (SensorDataRow.latitude newData)
       (SensorDataRow.longitude newData) danger].
Proof.
  intros Ea Et Hq E. open_loop l. subst.
  unfold decision in *. cbn in Hq |- *.
  cbn [Awaits.dispatch Awaits.app Awaits.awaited] in E.
  segment E Hc. cbn. rewrite Hq. cbn [andb negb isSome].
  intros ->. flat. repeat split; auto.
Qed.

(** The rest of [handleAccidentDetected], when the insert succeeds, the
    settings are found and the first alert is delivered, and nothing else
    happens in between. *)
Lemma accident_created l lat lon danger i st netA netC netD t2 t5 t6 l' :
  Awaits.awaited l = [Awaits.InsertingLog lat lon danger] ->
  insertReply netA = {| data := Some i; error := false |} ->
  settingsReply netC = Some st ->
  fetchResolves netD = true ->
  Awaits.run [Awaits.Resumed t2 0 netA; Awaits.Resumed t5 0 netC;
              Awaits.Resumed t6 0 netD] l = Some l' ->
  activeAccident (Awaits.app l')
  = Some {| id := i; activeDanger := danger |} /\
  isTriggered (Awaits.app l') = isTriggered (Awaits.app l) /\
  timers (Awaits.app l')
  = timers (Awaits.app l) ++
    [{| tid := nextTimerId (Awaits.app l); due := (t6 + 30000)%Z;
        callback := Escalate i (Some st) lat lon danger |}] /\
  accidentTimeoutRef (Awaits.app l') = Some (nextTimerId (Awaits.app l)) /\
  nextTimerId (Awaits.app l') = S (nextTimerId (Awaits.app l)) /\
  outbox (Awaits.app l')
  = outbox (Awaits.app l) ++ SelectUserSettings ::
      alertOf (Some st) lat lon danger i user_confirmation /\
  Awaits.awaited l' = [] /\
  detectionService (Awaits.app l') = detectionService (Awaits.app l) /\
  prevAccel (Awaits.app l') = prevAccel (Awaits.app l) /\
  vehicleType (Awaits.app l') = vehicleType (Awaits.app l) /\
  clock (Awaits.app l') = t6 /\ (clock (Awaits.app l) <= t6)%Z.
Proof.
  intros Eaw HA HC HD E. open_loop l. subst.
  next_event E E2. segment E2 H2. rewrite HA. cbn [data error]. flat. intros ->.
  next_event E E5. segment E5 H5. rewrite HC. flat. intros ->.
  next_event E E6. segment E6 H6. rewrite HD. flat. intros ->.
  cbn in E. injection E as <-. flat. cbn [alertOf].
  rewrite <- !app_assoc. cbn [app]. repeat split; auto. lia.
Qed.

(** The click in flight. An earlier accident has left the id [r] of its
    fired timer in [accidentTimeoutRef]. A new accident is created; the
    rider clicks cancel while the first alert is under way, that is, after
    the component shows the event and before the call has armed its
    timer. The click is accepted: the event is marked cancelled and the
    component shows no event. The call then goes on and arms the
    escalation timer of the cancelled event. When the re-arming of the
    click has fired, the latch is clear and that timer is still armed. *)
Lemma cancel_in_flight l newData r i st netA netB netC netD
    t1 t2 t3 t4 t5 t6 t7 l7 :
  activeAccident (Awaits.app l) = None ->
  isTriggered (Awaits.app l) = false ->
  timers (Awaits.app l) = [] ->
  Awaits.awaited l = [] ->
  accidentTimeoutRef (Awaits.app l) = Some r ->
  fst (decision (Awaits.app l) newData) = true ->
  insertReply netA = {| data := Some i; error := false |} ->
  settingsReply netC = Some st ->
  fetchResolves netD = true ->
  Awaits.run [Awaits.SensorRow t1 newData; Awaits.Resumed t2 0 netA;
              Awaits.Resumed t3 0 netC; Awaits.CancelClick t4;
              Awaits.Resumed t5 1 netB; Awaits.Resumed t6 0 netD;
              Awaits.TimerFired t7] l
  = Some l7 ->
  let danger := snd (decision (Awaits.app l) newData) in
  let n := nextTimerId (Awaits.app l) in
  activeAccident (Awaits.app l7) = None /\
  isTriggered (Awaits.app l7) = false /\
  Awaits.awaited l7 = [] /\
  timers (Awaits.app l7)
  = [{| tid := S n; due := (t6 + 30000)%Z;
        callback := Escalate i (Some st) (SensorDataRow.latitude newData)
                      (SensorDataRow.longitude newData) danger |}] /\
  accidentTimeoutRef (Awaits.app l7) = Some (S n) /\
  nextTimerId (Awaits.app l7) = S (S n) /\
  outbox (Awaits.app l7)
  = outbox (Awaits.app l) ++
    [insertOf newData danger; SelectUserSettings] ++
    alertOf (Some st) (SensorDataRow.latitude newData)
      (SensorDataRow.longitude newData) danger i user_confirmation ++
    [UpdateAccidentLog i status_cancelled] /\
  clock (Awaits.app l7) = t7 /\
  (t2 <= t4 <= t6)%Z /\ (t5 + 5000 <= t7)%Z /\ (t6 <= t7)%Z.
Proof.
  intros Ea Et Etm Eaw Er Hq HA HC HD E.
  open_loop l. subst.
  unfold decision in *. cbn in Hq |- *.
  next_event E E1. segment E1 H1. cbn. rewrite Hq. cbn [andb negb isSome].
  set (danger := snd (triggerDecision _ _ _)).
  set (service := snd (detectWithHistory _)).
  set (smoothed := Build_Vec3 _ _ _).
  intros ->.
  next_event E E2. segment E2 H2. rewrite HA. cbn [data error]. flat.
  intros ->.
  cbn [app Awaits.without_nth firstn skipn nth_error] in E.
  next_event E E3. segment E3 H3. rewrite HC. flat. intros ->.
  cbn [app Awaits.without_nth firstn skipn nth_error] in E.
  next_event E E4. segment E4 H4. cbn [withoutTimer filter]. intros ->.
  cbn [app Awaits.without_nth firstn skipn nth_error] in E.
  next_event E E5. segment E5 H5. intros ->.
  cbn [app Awaits.without_nth firstn skipn nth_error] in E.
  next_event E E6. segment E6 H6. rewrite HD. flat. intros ->.
  cbn [app Awaits.without_nth firstn skipn nth_error] in E.
  next_event E E7. flat_in E7. cbn [earliest due] in E7.
  destruct (Z.leb_spec (t5 + 5000) (t6 + 30000)) as [_|Hlt]; [|lia].
  cbn [due tid callback] in E7.
  destruct (Z.leb_spec (t5 + 5000) t7) as [Hdue|_]; [|discriminate E7].
  cbn [withoutTimer filter tid] in E7.
  rewrite Nat.eqb_refl in E7.
  replace (Nat.eqb (S nt) nt) with false in E7
    by (symmetry; apply Nat.eqb_neq; lia).
  cbn [negb] in E7.
  segment E7 H7. intros ->.
  cbn in E. injection E as <-. flat. cbn [alertOf id].
  rewrite <- !app_assoc. cbn [app].
  repeat split; auto; lia.
Qed.

Lemma run_cons (e : Awaits.Event) rest l l' :
  Awaits.run (e :: rest) l = Some l' ->
  exists l1, Awaits.dispatch l e = Some l1 /\ Awaits.run rest l1 = Some l'.
Proof.
  cbn [Awaits.run]. destruct (Awaits.dispatch l e) as [l1|]; [|discriminate].
  intro E. now exists l1.
Qed.


(** C5, as the code has it. Both parts start from a qualifying reading
    with no event active and the latch clear, and a cancel click that
    arrives while the first alert is under way: the event is active and
    its cancel button is shown, and the call has not yet armed the
    escalation timer.

    With the id [r] of an earlier, fired timer still stored, the click is
    accepted and the event is marked cancelled; the call then arms the
    escalation timer all the same (the click in flight, above). When that
    timer fires, the emergency alert of the cancelled event is posted and
    the event is marked confirmed.

    With nothing stored (the first accident of a session) the click does
    nothing: the event stays active, nothing is sent for the click, and
    the call goes on to arm the timer. *)
Theorem C5_click_in_flight_does_not_cancel :
  (forall l newData r i st netA netB netC netD netE netF
          t1 t2 t3 t4 t5 t6 t7 l7 t8 t9 t10 l',
     activeAccident (Awaits.app l) = None ->
     isTriggered (Awaits.app l) = false ->
     timers (Awaits.app l) = [] ->
     Awaits.awaited l = [] ->
     accidentTimeoutRef (Awaits.app l) = Some r ->
     fst (decision (Awaits.app l) newData) = true ->
     insertReply netA = {| data := Some i; error := false |} ->
     settingsReply netC = Some st ->
     fetchResolves netD = true ->
     Awaits.run [Awaits.SensorRow t1 newData; Awaits.Resumed t2 0 netA;
                 Awaits.Resumed t3 0 netC; Awaits.CancelClick t4;
                 Awaits.Resumed t5 1 netB; Awaits.Resumed t6 0 netD;
                 Awaits.TimerFired t7] l
     = Some l7 ->
     fetchResolves netE = true ->
     Awaits.run [Awaits.TimerFired t8; Awaits.Resumed t9 0 netE;
                 Awaits.Resumed t10 0 netF] l7
     = Some l' ->
     let danger := snd (decision (Awaits.app l) newData) in
     let lat := SensorDataRow.latitude newData in
     let lon := SensorDataRow.longitude newData in
     outbox (Awaits.app l')
     = outbox (Awaits.app l) ++
       [insertOf newData danger; SelectUserSettings] ++
       alertOf (Some st) lat lon danger i user_confirmation ++
       [UpdateAccidentLog i status_cancelled] ++
       alertOf (Some st) lat lon danger i emergency_alert ++
       [UpdateAccidentLog i status_confirmed] /\
     (t4 <= t8)%Z /\ (t6 + 30000 <= t8)%Z /\
     activeAccident (Awaits.app l7) = None) /\
  (forall l newData i st netA netC t1 t2 t3 t4 l3 l4,
     activeAccident (Awaits.app l) = None ->
     isTriggered (Awaits.app l) = false ->
     Awaits.awaited l = [] ->
     accidentTimeoutRef (Awaits.app l) = None ->
     fst (decision (Awaits.app l) newData) = true ->
     insertReply netA = {| data := Some i; error := false |} ->
     settingsReply netC = Some st ->
     Awaits.run [Awaits.SensorRow t1 newData; Awaits.Resumed t2 0 netA;
                 Awaits.Resumed t3 0 netC] l
     = Some l3 ->
     Awaits.dispatch l3 (Awaits.CancelClick t4) = Some l4 ->
     let danger := snd (decision (Awaits.app l) newData) in
     activeAccident (Awaits.app l3)
     = Some {| id := i; activeDanger := danger |} /\
     timers (Awaits.app l3) = timers (Awaits.app l) /\
     l4 = {| Awaits.app := set_clock t4 (Awaits.app l3);
             Awaits.awaited := Awaits.awaited l3 |} /\
     Awaits.awaited l4
     = [Awaits.PostingConfirmation i st (SensorDataRow.latitude newData)
          (SensorDataRow.longitude newData) danger]).
Proof.
  split.
  - intros l newData r i st netA netB netC netD netE netF
      t1 t2 t3 t4 t5 t6 t7 l7 t8 t9 t10 l'
      Ea Et Etm Eaw Er Hq HA HC HD E7 HE E.
    destruct (cancel_in_flight l newData r i st netA netB netC netD
                t1 t2 t3 t4 t5 t6 t7 l7 Ea Et Etm Eaw Er Hq HA HC HD E7)
      as (Ea7 & Et7 & Eaw7 & Etm7 & Er7 & En7 & Eo7 & Ec7 & Ht & Hd & H67).
    cbv zeta. set (danger := snd (decision (Awaits.app l) newData)) in *.
    open_loop l7. subst.
    next_event E E8. flat_in E8. cbn [earliest due] in E8.
    destruct (Z.leb_spec (t6 + 30000) t8) as [Hdue|_]; [|discriminate E8].
    cbn [withoutTimer filter tid callback] in E8.
    rewrite Nat.eqb_refl in E8. cbn [negb] in E8.
    segment E8 H8. intros ->.
    cbn [app Awaits.without_nth firstn skipn nth_error] in E.
    next_event E E9. segment E9 H9. rewrite HE. flat. intros ->.
    cbn [app Awaits.without_nth firstn skipn nth_error] in E.
    next_event E E10. segment E10 H10. intros ->.
    cbn in E. injection E as <-. flat. cbn [alertOf].
    rewrite <- !app_assoc. cbn [app].
    repeat split; auto; lia.
  - intros l newData i st netA netC t1 t2 t3 t4 l3 l4
      Ea Et Eaw Er Hq HA HC E E4.
    apply run_cons in E. destruct E as (l1 & E1 & E).
    destruct (reading_sends_insert l t1 newData l1 Ea Et Hq E1)
      as (_ & _ & Ea1 & _ & Etm1 & Er1 & _ & _ & Eaw1).
    rewrite Eaw in Eaw1. cbn [app] in Eaw1. rewrite Er in Er1.
    cbv zeta. set (danger := snd (decision (Awaits.app l) newData)) in *.
    clearbody danger. clear E1 Hq. rewrite <- Etm1. clear Etm1.
    open_loop l1. subst.
    next_event E E2. segment E2 H2. rewrite HA. cbn [data error]. flat.
    intros ->.
    cbn [app Awaits.without_nth firstn skipn nth_error] in E.
    next_event E E3. segment E3 H3. rewrite HC. flat. intros ->.
    cbn in E. injection E as <-.
    cbn [Awaits.dispatch Awaits.app Awaits.awaited] in E4.
    segment E4 H4. intros ->. flat.
    repeat split; reflexivity.
Qed.

End AwaitsProofs.

(* --------------------------------------------------------------------- *)
(** *** The click in flight at a concrete ride *)

Lemma click_in_flight_states :
  Awaits.run (H := demoService) firstAccident mountedLoop = Some staleLoop /\
  Awaits.run (H := demoService) clickInFlight staleLoop = Some clickedLoop /\
  Awaits.run (H := demoService) thirdAccident clickedLoop
  = Some twoTimersLoop /\
  Awaits.run (H := demoService) lateEscalation clickedLoop
  = Some escalatedLoop /\
  Awaits.run (H := demoService) firstClick mountedLoop = Some activeLoop /\
  Awaits.dispatch (H := demoService) activeLoop (Awaits.CancelClick 2500)
  = Some ignoredClickLoop.
Proof. repeat split; vm_compute; reflexivity. Qed.


(** C5 at the same ride: the second accident is cancelled by the click at
    41500 ms, and at 72500 ms its emergency alert is posted and it is
    marked confirmed. In the first accident of a session, a click at
    2500 ms, while the first alert is under way, changes nothing. *)
Lemma C5_witness :
  (exists before,
     outbox (Awaits.app escalatedLoop)
     = before ++
       [PostAccidentAlert "rider@example.org" "family@example.org"
          EmptyString 36.8 10.18 100 "acc-2" user_confirmation;
        UpdateAccidentLog "acc-2" status_cancelled;
        PostAccidentAlert "rider@example.org" "family@example.org"
          EmptyString 36.8 10.18 100 "acc-2" emergency_alert;
        UpdateAccidentLog "acc-2" status_confirmed]) /\
  activeAccident (Awaits.app activeLoop)
  = Some {| id := "acc-1"; activeDanger := 80 |} /\
  ignoredClickLoop
  = {| Awaits.app := set_clock 2500%Z (Awaits.app activeLoop);
       Awaits.awaited := Awaits.awaited activeLoop |}.
Proof.
  destruct click_in_flight_states as (_ & E7 & _ & E & E2 & E3).
  assert (Hq : fst (decision (H := demoService) (Awaits.app staleLoop)
                      fallenRow) = true) by (vm_compute; reflexivity).
  assert (Hd : snd (decision (H := demoService) (Awaits.app staleLoop)
                      fallenRow) = 100) by (vm_compute; reflexivity).
  assert (Hq1 : fst (decision (H := demoService) (Awaits.app mountedLoop)
                       fallenRow) = true) by (vm_compute; reflexivity).
  assert (Hd1 : snd (decision (H := demoService) (Awaits.app mountedLoop)
                       fallenRow) = 80) by (vm_compute; reflexivity).
  destruct (C5_click_in_flight_does_not_cancel (H := demoService))
    as [Hstale Hfirst].
  destruct (Hstale staleLoop fallenRow 1%nat "acc-2"%string contacts
              (answering "acc-2") (answering "acc-2") (answering "acc-2")
              (answering "acc-2") (answering "acc-2") (answering "acc-2")
              40000%Z 40100%Z 40200%Z 41500%Z 41600%Z 42500%Z 46600%Z
              clickedLoop 72500%Z 72600%Z 72700%Z escalatedLoop
              eq_refl eq_refl eq_refl eq_refl eq_refl Hq eq_refl eq_refl
              eq_refl E7 eq_refl E)
    as (Eo & _).
  destruct (Hfirst mountedLoop fallenRow "acc-1"%string contacts
              (answering "acc-1") (answering "acc-1")
              1000%Z 1100%Z 1200%Z 2500%Z activeLoop ignoredClickLoop
              eq_refl eq_refl eq_refl eq_refl Hq1 eq_refl eq_refl E2 E3)
    as (Ea & _ & El & _).
  rewrite Hd1 in Ea.
  split; [|split; [exact Ea|exact El]].
  exists (outbox (Awaits.app staleLoop) ++
          [insertOf fallenRow 100; SelectUserSettings]).
  rewrite Eo, Hd. rewrite <- app_assoc. reflexivity.
Defined.

(* ===================================================================== *)
(** ** The numeric claims in the arithmetic of the code *)
(* ===================================================================== *)

Local Open Scope float_scope.
Local Set Warnings "-inexact-float".


(* --------------------------------------------------------------------- *)
(** *** The orientation estimate in binary64 *)


Local Close Scope float_scope.
